(** * write_cuda_headers.py: a shallow embedding and its checked properties

    The script [Tools/F_scripts/write_cuda_headers.py] reads C++ sources
    and headers line by line, finds the calls marked with [#pragma gpu],
    and rewrites the matching header declarations into a device
    declaration and a grid-stride kernel.

    Text is modelled as [string] (ASCII characters); a file opened for
    reading is the list of the lines that [readline] has still to return;
    what is written to an output file is the list of the written strings.
    Loops that the script runs with [while] take a fuel argument and
    return [None] when the fuel runs out; [sys.exit] and uncaught Python
    exceptions are the two failures of the [result] type.  Strings
    behave as in Python 3.  Files are given by their contents, so a
    failure to open one is not modelled, and [print] calls (progress
    output on stdout) are left out. *)

From Stdlib Require Import String Ascii List ZArith Lia Bool Arith Permutation Sorted.
Import ListNotations.
Open Scope string_scope.

(** ** Python string primitives *)

Module Py.

(** [str.isspace] on the ASCII range: tab, line feed, vertical tab, form
    feed, carriage return, the four separators 28..31 and the space. *)
Definition is_space (c : ascii) : bool :=
  let n := nat_of_ascii c in
  (((9 <=? n) && (n <=? 13)) || ((28 <=? n) && (n <=? 31)) || (n =? 32))%nat.

Definition is_upper (c : ascii) : bool :=
  let n := nat_of_ascii c in ((65 <=? n) && (n <=? 90))%nat.

Definition is_lower (c : ascii) : bool :=
  let n := nat_of_ascii c in ((97 <=? n) && (n <=? 122))%nat.

Definition to_lower (c : ascii) : ascii :=
  if is_upper c then ascii_of_nat (nat_of_ascii c + 32) else c.

(** [s.lower()] *)
Fixpoint lower (s : string) : string :=
  match s with
  | EmptyString => EmptyString
  | String c s' => String (to_lower c) (lower s')
  end.

Fixpoint rev (s : string) : string :=
  match s with
  | EmptyString => EmptyString
  | String c s' => rev s' ++ String c EmptyString
  end.

Fixpoint take (n : nat) (s : string) : string :=
  match n, s with
  | S k, String c s' => String c (take k s')
  | _, _ => EmptyString
  end.

Fixpoint drop (n : nat) (s : string) : string :=
  match n, s with
  | S k, String _ s' => drop k s'
  | _, _ => s
  end.

(** [s.startswith(p)] and [s.endswith(p)] *)
Definition startswith (s p : string) : bool := prefix p s.

Definition endswith (s p : string) : bool :=
  (String.length p <=? String.length s)%nat
  && String.eqb (drop (String.length s - String.length p) s) p.

(** [s.lstrip()], [s.rstrip()], [s.strip()] *)
Fixpoint lstrip (s : string) : string :=
  match s with
  | EmptyString => EmptyString
  | String c s' => if is_space c then lstrip s' else s
  end.

Fixpoint rstrip (s : string) : string :=
  match s with
  | EmptyString => EmptyString
  | String c s' =>
      match rstrip s' with
      | EmptyString => if is_space c then EmptyString else String c EmptyString
      | r => String c r
      end
  end.

Definition strip (s : string) : string := lstrip (rstrip s).

(** Position of the first occurrence of [sub] in [s]. *)
Fixpoint index_of (sub s : string) : option nat :=
  if prefix sub s then Some 0
  else match s with
       | EmptyString => None
       | String _ s' => option_map S (index_of sub s')
       end.

(** [s.find(sub)]: the position, or -1. *)
Definition find (s sub : string) : Z :=
  match index_of sub s with
  | Some i => Z.of_nat i
  | None => (-1)%Z
  end.

(** [sub in s] *)
Definition contains (sub s : string) : bool :=
  match index_of sub s with Some _ => true | None => false end.

(** A slice bound as Python normalises it: a negative bound counts from
    the end, and every bound is clamped to [0, len]. *)
Definition norm_bound (len : nat) (i : Z) : nat :=
  if (i <? 0)%Z then Z.to_nat (Z.max 0 (i + Z.of_nat len))
  else Nat.min (Z.to_nat i) len.

(** [s[a:b]]; [None] is an omitted bound. *)
Definition slice (s : string) (a b : option Z) : string :=
  let len := String.length s in
  let start := match a with Some i => norm_bound len i | None => 0 end in
  let stop := match b with Some i => norm_bound len i | None => len end in
  take (stop - start) (drop start s).

(** [s.replace(old, new)] for a non-empty [old]: scan from the left; at
    an occurrence of [old] write [new] and skip the occurrence. [skip]
    counts the characters of a replaced occurrence still to pass. *)
Fixpoint replace_go (old new : string) (skip : nat) (s : string) : string :=
  match s with
  | EmptyString => EmptyString
  | String c s' =>
      match skip with
      | S k => replace_go old new k s'
      | O =>
          if prefix old s
          then new ++ replace_go old new (String.length old - 1) s'
          else String c (replace_go old new 0 s')
      end
  end.

(** With an empty [old], Python writes [new] before every character and
    once at the end. *)
Fixpoint intersperse (new s : string) : string :=
  match s with
  | EmptyString => new
  | String c s' => new ++ String c (intersperse new s')
  end.

Definition replace (old new s : string) : string :=
  match old with
  | EmptyString => intersperse new s
  | _ => replace_go old new 0 s
  end.

(** [s.split(sep)] for a one-character separator (the script only uses
    such separators): always at least one piece. *)
Fixpoint split (sep : ascii) (s : string) : list string :=
  match s with
  | EmptyString => [EmptyString]
  | String c s' =>
      if Ascii.eqb c sep then EmptyString :: split sep s'
      else match split sep s' with
           | h :: t => String c h :: t
           | [] => [String c EmptyString]
           end
  end.

Fixpoint index_char (sep : ascii) (s : string) : option nat :=
  match s with
  | EmptyString => None
  | String c s' =>
      if Ascii.eqb c sep then Some 0 else option_map S (index_char sep s')
  end.

Fixpoint rindex_char (sep : ascii) (s : string) : option nat :=
  match s with
  | EmptyString => None
  | String c s' =>
      match rindex_char sep s' with
      | Some i => Some (S i)
      | None => if Ascii.eqb c sep then Some 0 else None
      end
  end.

(** [s.split(sep, 1)]: cut at the first separator, if there is one. *)
Definition split1 (sep : ascii) (s : string) : list string :=
  match index_char sep s with
  | Some i => [take i s; drop (S i) s]
  | None => [s]
  end.

(** [s.rsplit(sep, 1)]: cut at the last separator, if there is one. *)
Definition rsplit1 (sep : ascii) (s : string) : list string :=
  match rindex_char sep s with
  | Some i => [take i s; drop (S i) s]
  | None => [s]
  end.

(** [s.split()]: the maximal runs of non-space characters. *)
Fixpoint words (s : string) : list string :=
  match s with
  | EmptyString => []
  | String c s' =>
      if is_space c then words s'
      else match s' with
           | EmptyString => [String c EmptyString]
           | String d _ =>
               if is_space d then String c EmptyString :: words s'
               else match words s' with
                    | h :: t => String c h :: t
                    | [] => [String c EmptyString]
                    end
           end
  end.

(** [s.strip(chars)]: drop the characters of [chars] at both ends. *)
Fixpoint mem_char (c : ascii) (chars : string) : bool :=
  match chars with
  | EmptyString => false
  | String d r => Ascii.eqb c d || mem_char c r
  end.

Fixpoint lstrip_chars (chars s : string) : string :=
  match s with
  | EmptyString => EmptyString
  | String c s' => if mem_char c chars then lstrip_chars chars s' else s
  end.

Fixpoint rstrip_chars (chars s : string) : string :=
  match s with
  | EmptyString => EmptyString
  | String c s' =>
      match rstrip_chars chars s' with
      | EmptyString => if mem_char c chars then EmptyString else String c EmptyString
      | r => String c r
      end
  end.

Definition strip_chars (chars s : string) : string :=
  lstrip_chars chars (rstrip_chars chars s).

(** [l[-1]] *)
Definition last_item {A : Type} (l : list A) : option A :=
  match l with
  | [] => None
  | x :: r => Some (List.last r x)
  end.

End Py.

(** The characters that cannot be typed inside a literal. *)
Definition nl : string := String (ascii_of_nat 10) EmptyString.
Definition tab : string := String (ascii_of_nat 9) EmptyString.
Definition dquote : string := String (ascii_of_nat 34) EmptyString.

(** ** Failures, dictionaries, files *)

Inductive exn : Type := IndexError | AttributeError | KeyError.

(** How a run of a piece of the script ends: normally, through
    [sys.exit(msg)], or through an exception that nothing catches. *)
Inductive result (A : Type) : Type :=
| Ok (a : A)
| SysExit (msg : string)
| Raise (e : exn).

Arguments Ok {A} a.
Arguments SysExit {A} msg.
Arguments Raise {A} e.

Definition bind {A B : Type} (r : result A) (k : A -> result B) : result B :=
  match r with
  | Ok a => k a
  | SysExit msg => SysExit msg
  | Raise e => Raise e
  end.

Notation "x <- r ;; k" := (bind r (fun x => k))
  (at level 61, r at next level, right associativity).

(** [l[i]] for a non-negative [i]. *)
Definition item {A : Type} (l : list A) (i : nat) : result A :=
  match nth_error l i with
  | Some a => Ok a
  | None => Raise IndexError
  end.

(** [l[-1]] *)
Definition item_last {A : Type} (l : list A) : result A :=
  match Py.last_item l with
  | Some a => Ok a
  | None => Raise IndexError
  end.

(** A Python [dict] with string keys: the entries in insertion order;
    assigning to a key that is present keeps its place. *)
Definition dict (V : Type) : Type := list (string * V).

Definition keys {V : Type} (d : dict V) : list string := map fst d.

Fixpoint dict_get {V : Type} (d : dict V) (k : string) : option V :=
  match d with
  | [] => None
  | (k', v) :: r => if String.eqb k k' then Some v else dict_get r k
  end.

Fixpoint dict_set {V : Type} (d : dict V) (k : string) (v : V) : dict V :=
  match d with
  | [] => [(k, v)]
  | (k', v') :: r =>
      if String.eqb k k' then (k, v) :: r else (k', v') :: dict_set r k v
  end.

(** [d[k]] *)
Definition lookup {V : Type} (d : dict V) (k : string) : result V :=
  match dict_get d k with
  | Some v => Ok v
  | None => Raise KeyError
  end.

(** A file open for reading: the lines still to be read.  At the end of
    the file [readline] returns the empty string, again and again. *)
Definition file : Type := list string.

Definition readline (hin : file) : string * file :=
  match hin with
  | [] => (EmptyString, [])
  | l :: r => (l, r)
  end.

(** ** The regular expressions *)

(** [decls_re]: a lazy run of any characters (group 1), an opening
    parenthesis, a greedy run of any characters (group 3), a closing
    parenthesis, with DOTALL.  So group 1 is the text before the first
    opening parenthesis and group 3 the text between it and the last
    closing parenthesis after it. *)
Record decls_match : Type := { group1 : string; group3 : string }.

Definition decls_re_search (s : string) : option decls_match :=
  match Py.index_char "(" s with
  | None => None
  | Some i =>
      let rest := Py.drop (S i) s in
      match Py.rindex_char ")" rest with
      | None => None
      | Some j => Some {| group1 := Py.take i s; group3 := Py.take j rest |}
      end
  end.

(** [dd.group()]: the whole match. *)
Definition group0 (dd : decls_match) : string :=
  group1 dd ++ "(" ++ group3 dd ++ ")".

(** The longest prefix of characters that satisfy [p], and the rest. *)
Fixpoint span (p : ascii -> bool) (s : string) : string * string :=
  match s with
  | EmptyString => (EmptyString, EmptyString)
  | String c s' =>
      if p c then let (a, b) := span p s' in (String c a, b)
      else (EmptyString, s)
  end.

(** The class [[a-z]] and the class [[a-z_]] under IGNORECASE. *)
Definition is_letter (c : ascii) : bool := Py.is_lower (Py.to_lower c).

Definition is_name_char (c : ascii) : bool := is_letter c || Ascii.eqb c "_".

(** [fortran_binding_re]: the word void (group 1), one or more spaces
    (group 2), a letter and one or more name characters (group 3),
    IGNORECASE; here tried at the start of [s], giving the text of
    group 3.  The space run and the name run are maximal, and nothing
    follows group 3, so the matcher has nothing to backtrack into. *)
Definition binding_match_at (s : string) : option string :=
  if String.eqb (Py.lower (Py.take 4 s)) "void" then
    match span Py.is_space (Py.drop 4 s) with
    | (String _ _, String c r) =>
        if is_letter c then
          match span is_name_char r with
          | (String d nm, _) => Some (String c (String d nm))
          | _ => None
          end
        else None
    | _ => None
    end
  else None.

(** [fortran_binding_re.search(s).group(3)]: the leftmost match. *)
Fixpoint fortran_binding_re_search (s : string) : option string :=
  match binding_match_at s with
  | Some g => Some g
  | None =>
      match s with
      | EmptyString => None
      | String _ s' => fortran_binding_re_search s'
      end
  end.

(** ** Statement capture *)

(** [line.strip().endswith(";")] *)
Definition ends_statement (line : string) : bool :=
  Py.endswith (Py.strip line) ";".

(** [while not line.strip().endswith(";"): acc += line; line = hin.readline()]
    -- the loop of the collector, of the call-site expander and of the
    scan of the expanded header.  Result: the text gathered, the line
    that ended the loop, and the file after it. *)
Fixpoint accumulate (fuel : nat) (line : string) (hin : file) (acc : string)
  : option (string * string * file) :=
  match fuel with
  | O => None
  | S f =>
      if ends_statement line then Some (acc, line, hin)
      else let (line', hin') := readline hin in
           accumulate f line' hin' (acc ++ line)
  end.

(** The loop of the scan of the original header:
    [while not sig_end: line = hin.readline(); launch_sig += line;
     if line.strip().endswith(";"): sig_end = True]. *)
Fixpoint capture_original (fuel : nat) (hin : file) (launch_sig : string)
  : option (string * file) :=
  match fuel with
  | O => None
  | S f =>
      let (line, hin') := readline hin in
      let launch_sig' := launch_sig ++ line in
      if ends_statement line then Some (launch_sig', hin')
      else capture_original f hin' launch_sig'
  end.

(** ** find_targets_from_pragmas *)

Definition marker : string := "#pragma gpu".

(** For one call target: for each macro of [macro_list], the positions
    of the arguments that contain it. *)
Definition tag_table : Type := list (list nat).

(** [for i, arg in enumerate(args): if macro in arg: ....append(i)] *)
Fixpoint positions_from (i : nat) (macro : string) (args : list string)
  : list nat :=
  match args with
  | [] => []
  | arg :: r =>
      if Py.contains macro arg then i :: positions_from (S i) macro r
      else positions_from (S i) macro r
  end.

Definition tag_positions (macro_list args : list string) : tag_table :=
  map (fun macro => positions_from 0 macro args) macro_list.

(** [func_call += line.rstrip()[:-1]] *)
Definition call_text (acc last : string) : string :=
  acc ++ Py.slice (Py.rstrip last) None (Some (-1)%Z).

(** The captured call split into the name and the tag table. *)
Definition parse_target (macro_list : list string) (func_call : string)
  : result (string * tag_table) :=
  match decls_re_search func_call with
  | None => Raise AttributeError
  | Some dd =>
      let func_name := Py.replace " " "" (Py.strip (group1 dd)) in
      after <- item (Py.split1 "(" (Py.strip (group0 dd))) 1 ;;
      inner <- item (Py.rsplit1 ")" after) 0 ;;
      Ok (func_name, tag_positions macro_list (Py.split "," inner))
  end.

(** The [while line:] loop over one source file. *)
Fixpoint scan_pragmas (fuel : nat) (macro_list : list string)
  (line : string) (hin : file) (targets : dict tag_table)
  : option (result (dict tag_table)) :=
  match fuel with
  | O => None
  | S f =>
      match line with
      | EmptyString => Some (Ok targets)
      | _ =>
          if Py.startswith line marker then
            let (l1, h1) := readline hin in
            match accumulate f l1 h1 EmptyString with
            | None => None
            | Some (acc, last, h2) =>
                match parse_target macro_list (call_text acc last) with
                | Ok (func_name, tags) =>
                    let (l3, h3) := readline h2 in
                    scan_pragmas f macro_list l3 h3
                      (dict_set targets func_name tags)
                | SysExit msg => Some (SysExit msg)
                | Raise e => Some (Raise e)
                end
            end
          else
            let (l1, h1) := readline hin in
            scan_pragmas f macro_list l1 h1 targets
      end
  end.

(** [for c in cxx_files]: the files are given by their lines. *)
Fixpoint find_targets_loop (fuel : nat) (macro_list : list string)
  (cxx_files : list file) (targets : dict tag_table)
  : option (result (dict tag_table)) :=
  match cxx_files with
  | [] => Some (Ok targets)
  | hin :: r =>
      let (l0, h0) := readline hin in
      match scan_pragmas fuel macro_list l0 h0 targets with
      | Some (Ok targets') => find_targets_loop fuel macro_list r targets'
      | other => other
      end
  end.

Definition find_targets_from_pragmas (fuel : nat) (cxx_files : list file)
  (macro_list : list string) : option (result (dict tag_table)) :=
  find_targets_loop fuel macro_list cxx_files [].

(** ** convert_cxx *)

(** The text written for one marked call. *)
Definition launch_text (func_name args : string) : string :=
  "dim3 " ++ func_name ++ "numBlocks, " ++ func_name ++ "numThreads;" ++ nl
  ++ "Device::grid_stride_threads_and_blocks(" ++ func_name ++ "numBlocks, "
  ++ func_name ++ "numThreads);" ++ nl
  ++ "#if ((__CUDACC_VER_MAJOR__ > 9) || (__CUDACC_VER_MAJOR__ == 9 && __CUDACC_VER_MINOR__ >= 1))" ++ nl
  ++ "CudaAPICheck(cudaFuncSetAttribute(&cuda_" ++ func_name
  ++ ", cudaFuncAttributePreferredSharedMemoryCarveout, 0));" ++ nl
  ++ "#endif" ++ nl
  ++ "cuda_" ++ func_name ++ "<<<" ++ func_name ++ "numBlocks, " ++ func_name
  ++ "numThreads, 0, Device::cudaStream()>>>" ++ nl
  ++ "    (" ++ args ++ ");" ++ nl.

Definition expand_call (func_call : string) : result string :=
  match decls_re_search func_call with
  | None => Raise AttributeError
  | Some dd =>
      let func_name := Py.replace " " "" (Py.strip (group1 dd)) in
      let args := group3 dd in
      Ok (launch_text func_name args)
  end.

(** The [while line:] loop over one source file; [out] is what has been
    written so far. *)
Fixpoint scan_cxx (fuel : nat) (line : string) (hin : file)
  (out : list string) : option (result (list string)) :=
  match fuel with
  | O => None
  | S f =>
      match line with
      | EmptyString => Some (Ok out)
      | _ =>
          if Py.startswith line marker then
            let (l1, h1) := readline hin in
            match accumulate f l1 h1 EmptyString with
            | None => None
            | Some (acc, last, h2) =>
                match expand_call (call_text acc last) with
                | Ok text =>
                    let (l3, h3) := readline h2 in
                    scan_cxx f l3 h3 (out ++ [text])%list
                | SysExit msg => Some (SysExit msg)
                | Raise e => Some (Raise e)
                end
            end
          else
            let (l1, h1) := readline hin in
            scan_cxx f l1 h1 (out ++ [line])%list
      end
  end.

(** One source file, from its first line. *)
Definition convert_cxx (fuel : nat) (hin : file)
  : option (result (list string)) :=
  let (l0, h0) := readline hin in scan_cxx fuel l0 h0 [].

(** ** convert_headers: rewriting one signature *)

(** [TEMPLATE.format(a, b, c)], the four pieces of the template text
    around its three fields. *)
Definition TEMPLATE_0 : string :=
"
__global__ static void cuda_".

Definition TEMPLATE_1 : string :=
"
{
".

Definition TEMPLATE_2 : string :=
"
   int blo[3];
   int bhi[3];
   for (int k = lo[2] + blockIdx.z * blockDim.z + threadIdx.z; k <= hi[2]; k += blockDim.z * gridDim.z) {
     blo[2] = k;
     bhi[2] = k;
     for (int j = lo[1] + blockIdx.y * blockDim.y + threadIdx.y; j <= hi[1]; j += blockDim.y * gridDim.y) {
       blo[1] = j;
       bhi[1] = j;
       for (int i = lo[0] + blockIdx.x * blockDim.x + threadIdx.x; i <= hi[0]; i += blockDim.x * gridDim.x) {
         blo[0] = i;
         bhi[0] = i;
         ".

Definition TEMPLATE_3 : string :=
";
       }
     }
   }
}
".

Definition TEMPLATE (a b c : string) : string :=
  TEMPLATE_0 ++ a ++ TEMPLATE_1 ++ b ++ TEMPLATE_2 ++ c ++ TEMPLATE_3.

(** ["const int {}_1, const int {}_2, const int {}_3".format(var, var, var)] *)
Definition three_ints (var : string) : string :=
  "const int " ++ var ++ "_1, const int " ++ var ++ "_2, const int " ++ var ++ "_3".

(** The variables of the loop over the parameters. *)
Record rw_state : Type := {
  func_sig : string;
  device_sig : string;
  has_lo : bool;
  has_hi : bool;
  vars : list string;
  intvect_vars : list string
}.

(** [for arg_position in arg_positions: if n == arg_position: ...] *)
Fixpoint tagged_loop (args : list string) (n : nat) (arg_positions : list nat)
  (var : string) (st : rw_state) : result (string * rw_state) :=
  match arg_positions with
  | [] => Ok (var, st)
  | arg_position :: r =>
      if Nat.eqb n arg_position then
        arg <- item args arg_position ;;
        var' <- item_last (Py.words arg) ;;
        tagged_loop args n r var'
          {| func_sig := Py.replace arg (three_ints var') (func_sig st);
             device_sig := Py.replace arg ("const int* " ++ var') (device_sig st);
             has_lo := has_lo st;
             has_hi := has_hi st;
             vars := vars st;
             intvect_vars := (intvect_vars st ++ [var'])%list |}
      else tagged_loop args n r var st
  end.

(** The legacy case: [lo] and [hi] passed as plain pointers. *)
Definition legacy_step (var : string) (st : rw_state) : rw_state :=
  if String.eqb var "lo" then
    {| func_sig := Py.replace "const int* lo" (three_ints var) (func_sig st);
       device_sig := device_sig st;
       has_lo := has_lo st;
       has_hi := has_hi st;
       vars := vars st;
       intvect_vars := (intvect_vars st ++ [var])%list |}
  else if String.eqb var "hi" then
    {| func_sig := Py.replace "const int* hi" (three_ints var) (func_sig st);
       device_sig := device_sig st;
       has_lo := has_lo st;
       has_hi := has_hi st;
       vars := vars st;
       intvect_vars := (intvect_vars st ++ [var])%list |}
  else st.

(** [if var == "lo": ... elif var == "hi": ...; vars.append(var)] *)
Definition bound_step (var : string) (st : rw_state) : rw_state :=
  if String.eqb var "lo" then
    {| func_sig := func_sig st; device_sig := device_sig st;
       has_lo := true; has_hi := has_hi st;
       vars := (vars st ++ ["blo"])%list; intvect_vars := intvect_vars st |}
  else if String.eqb var "hi" then
    {| func_sig := func_sig st; device_sig := device_sig st;
       has_lo := has_lo st; has_hi := true;
       vars := (vars st ++ ["bhi"])%list; intvect_vars := intvect_vars st |}
  else
    {| func_sig := func_sig st; device_sig := device_sig st;
       has_lo := has_lo st; has_hi := has_hi st;
       vars := (vars st ++ [var])%list; intvect_vars := intvect_vars st |}.

(** [_tmp[-1].replace("*", "").replace("&", "").strip()], then the two
    array-descriptor macros replaced. *)
Definition param_var (tok : string) : string :=
  let var := Py.strip (Py.replace "&" "" (Py.replace "*" "" tok)) in
  let var := Py.replace "BL_FORT_FAB_ARG_3D" "BL_FORT_FAB_VAL_3D" var in
  Py.replace "BL_FORT_IFAB_ARG_3D" "BL_FORT_FAB_VAL_3D" var.

(** The body of [for n, v in enumerate(dd.group(3).split(","))];
    [sig0] is [signatures[name][0]] and [tags] is [signatures[name][1]]. *)
Definition rewrite_param (sig0 : string) (tags : tag_table) (n : nat)
  (v : string) (st : rw_state) : result rw_state :=
  tok <- item_last (Py.words v) ;;
  let var := param_var tok in
  after <- item (Py.split1 "(" sig0) 1 ;;
  inner <- item (Py.rsplit1 ")" after) 0 ;;
  let args := Py.split "," inner in
  arg_positions <- item tags 0 ;;
  match arg_positions with
  | _ :: _ =>
      r <- tagged_loop args n arg_positions var st ;;
      Ok (bound_step (fst r) (snd r))
  | [] => Ok (bound_step var (legacy_step var st))
  end.

Fixpoint rewrite_params (sig0 : string) (tags : tag_table) (n : nat)
  (params : list string) (st : rw_state) : result rw_state :=
  match params with
  | [] => Ok st
  | v :: r =>
      st' <- rewrite_param sig0 tags n v st ;;
      rewrite_params sig0 tags (S n) r st'
  end.

Definition missing_bounds_message (name sig : string) : string :=
  "ERROR: function signature must have variables lo and hi defined:" ++ nl
  ++ "--- function name:" ++ nl ++ " " ++ name ++ " " ++ nl
  ++ "--- function signature:" ++ nl ++ " " ++ sig ++ nl ++ "---".

(** ["   int {}[3] = {{{}_1, {}_2, {}_3}};\n"] for every entry *)
Fixpoint intvect_decls (l : list string) : string :=
  match l with
  | [] => EmptyString
  | v :: r =>
      "   int " ++ v ++ "[3] = {" ++ v ++ "_1, " ++ v ++ "_2, " ++ v ++ "_3};" ++ nl
      ++ intvect_decls r
  end.

(** What one signature turns into. *)
Record generated_pair : Type := {
  device_declaration : string;
  kernel : string
}.

(** [func_sig.lower().find(name)] and the name in its original case. *)
Definition name_index (sig0 name : string) : Z := Py.find (Py.lower sig0) name.

Definition case_name (sig0 name : string) : string :=
  let idx := name_index sig0 name in
  Py.slice sig0 (Some idx) (Some (idx + Z.of_nat (String.length name))%Z).

(** The device signature before the loop over the parameters. *)
Definition device_sig_start (sig0 name : string) : string :=
  Py.replace (case_name sig0 name) (case_name sig0 name ++ "_device")
    ("__device__ " ++ sig0 ++ ";" ++ nl ++ nl).

(** The body of [for name in list(signatures_needed)], for the entry
    [signatures[name] = [sig0, tags]]. *)
Definition rewrite_signature (name sig0 : string) (tags : tag_table)
  : result generated_pair :=
  let idx := name_index sig0 name in
  let cname := case_name sig0 name in
  match decls_re_search sig0 with
  | None => Raise AttributeError
  | Some dd =>
      st <- rewrite_params sig0 tags 0 (Py.split "," (group3 dd))
              {| func_sig := sig0;
                 device_sig := device_sig_start sig0 name;
                 has_lo := false; has_hi := false;
                 vars := []; intvect_vars := [] |} ;;
      if negb (has_lo st) || negb (has_hi st) then
        SysExit (missing_bounds_message name (func_sig st))
      else
        let all_vars := String.concat ", " (vars st) in
        let new_call := cname ++ "_device" ++ "(" ++ all_vars ++ ")" in
        let intvects := intvect_decls (intvect_vars st) in
        Ok {| device_declaration := device_sig st;
              kernel := TEMPLATE (Py.replace ";" "" (Py.slice (func_sig st) (Some idx) None))
                          intvects new_call |}
  end.

Definition bar_decl : string :=
  "void bar(const int* lo, const int* hi, Real* a);" ++ nl.

(** ** convert_headers: the two scans of one header *)

(** [idx = line.find("//"); tline = line[:idx]] *)
Definition strip_comment (line : string) : string :=
  Py.slice line None (Some (Py.find line "//")).

(** [for target in names: m = fortran_binding_re.search(tline.lower());
     if m: if target == m.group(3): found = target; break] *)
Definition find_target (names : list string) (tline : string)
  : option string :=
  List.find
    (fun target =>
       match fortran_binding_re_search (Py.lower tline) with
       | Some g => String.eqb target g
       | None => false
       end)
    names.

(** What [signatures] holds for a name: the captured text and the
    tag table of the target. *)
Definition sig_entry : Type := (string * tag_table)%type.

(** The scan of the preprocessed header. *)
Fixpoint scan_expanded (fuel : nat) (targets : dict tag_table)
  (line : string) (hin : file) (signatures : dict sig_entry)
  : option (result (dict sig_entry)) :=
  match fuel with
  | O => None
  | S f =>
      match line with
      | EmptyString => Some (Ok signatures)
      | _ =>
          match find_target (keys targets) (strip_comment line) with
          | Some found =>
              match accumulate f line hin EmptyString with
              | None => None
              | Some (acc, last, h1) =>
                  let launch_sig := acc ++ last in
                  match dict_get targets found with
                  | None => Some (Raise KeyError)
                  | Some tags =>
                      let (l2, h2) := readline h1 in
                      scan_expanded f targets l2 h2
                        (dict_set signatures found (launch_sig, tags))
                  end
              end
          | None =>
              let (l1, h1) := readline hin in
              scan_expanded f targets l1 h1 signatures
          end
      end
  end.

(** The scan of the original header: [out] is what has been written,
    [needed] is [signatures_needed]. *)
Fixpoint scan_original (fuel : nat) (signatures : dict sig_entry)
  (line : string) (hin : file) (out : list string) (needed : dict sig_entry)
  : option (result (list string * dict sig_entry)) :=
  match fuel with
  | O => None
  | S f =>
      match line with
      | EmptyString => Some (Ok (out, needed))
      | _ =>
          match find_target (keys signatures) (strip_comment line) with
          | Some found =>
              match dict_get signatures found with
              | None => Some (Raise KeyError)
              | Some entry =>
                  match capture_original f hin line with
                  | None => None
                  | Some (_, h1) =>
                      let (l2, h2) := readline h1 in
                      scan_original f signatures l2 h2 out
                        (dict_set needed found entry)
                  end
              end
          | None =>
              let (l1, h1) := readline hin in
              scan_original f signatures l1 h1 (out ++ [line])%list needed
          end
      end
  end.

(** [for name in list(signatures_needed)]: one pair for every name. *)
Fixpoint emit_pairs (signatures : dict sig_entry) (names : list string)
  : result (list (string * generated_pair)) :=
  match names with
  | [] => Ok []
  | name :: r =>
      entry <- lookup signatures name ;;
      pair <- rewrite_signature name (fst entry) (snd entry) ;;
      rest <- emit_pairs signatures r ;;
      Ok ((name, pair) :: rest)
  end.

(** [os.path.basename(h.name).strip(".H")] *)
Definition guard_name (hname : string) : string :=
  Py.strip_chars ".H" (List.last (Py.split "/" hname) EmptyString).

(** The new header: the lines copied from the original one, and the
    pairs; [written] below is the text of the file. *)
Record cuda_header : Type := {
  copied : list string;
  guard : string;
  pairs : list (string * generated_pair)
}.

Definition pair_text (p : string * generated_pair) : list string :=
  [device_declaration (snd p); kernel (snd p); nl].

Definition preamble (guard : string) : list string :=
  [ nl;
    "#include <AMReX_ArrayLim.H>" ++ nl;
    "#include <AMReX_BLFort.H>" ++ nl;
    "#include <AMReX_Device.H>" ++ nl;
    nl;
    "#ifndef _cuda_" ++ guard ++ "_" ++ nl;
    "#define _cuda_" ++ guard ++ "_" ++ nl ++ nl;
    "#ifdef AMREX_USE_CUDA" ++ nl;
    "extern " ++ dquote ++ "C" ++ dquote ++ " {" ++ nl ++ nl ].

Definition closing : list string :=
  [ nl ++ "}" ++ nl; "#endif" ++ nl; nl; "#endif" ++ nl ].

Definition written (h : cuda_header) : list string :=
  app (copied h)
    (app (preamble (guard h)) (app (flat_map pair_text (pairs h)) closing)).

Section ConvertHeaders.

(** [list(set(d))]: the keys of [d] in the order in which the set
    yields them, which Python leaves open. *)
Variable set_order : list string -> list string.

(** The body of [for h in pheaders]: [expanded] is the file
    [h.cpp_name], [original] the file [h.name]. *)
Definition convert_header (fuel : nat) (targets : dict tag_table)
  (hname : string) (expanded original : file)
  : option (result cuda_header) :=
  let (l0, h0) := readline expanded in
  match scan_expanded fuel targets l0 h0 [] with
  | None => None
  | Some (SysExit msg) => Some (SysExit msg)
  | Some (Raise e) => Some (Raise e)
  | Some (Ok signatures) =>
      let (l1, h1) := readline original in
      match scan_original fuel signatures l1 h1 [] [] with
      | None => None
      | Some (SysExit msg) => Some (SysExit msg)
      | Some (Raise e) => Some (Raise e)
      | Some (Ok (out, needed)) =>
          let names := set_order (keys needed) in
          match emit_pairs signatures names with
          | Ok ps =>
              Some (Ok {| copied := out; guard := guard_name hname; pairs := ps |})
          | SysExit msg => Some (SysExit msg)
          | Raise e => Some (Raise e)
          end
      end
  end.

(** [for h in pheaders]: every header is given by its name, its
    preprocessed text and its original text. *)
Fixpoint convert_headers (fuel : nat) (targets : dict tag_table)
  (headers : list (string * file * file))
  : option (result (list cuda_header)) :=
  match headers with
  | [] => Some (Ok [])
  | (hname, expanded, original) :: r =>
      match convert_header fuel targets hname expanded original with
      | None => None
      | Some (SysExit msg) => Some (SysExit msg)
      | Some (Raise e) => Some (Raise e)
      | Some (Ok h) =>
          match convert_headers fuel targets r with
          | Some (Ok hs) => Some (Ok (h :: hs))
          | other => other
          end
      end
  end.

End ConvertHeaders.

(** The one macro that the main program looks for. *)
Definition macro_list : list string := ["AMREX_INT_ANYD"].

(** ** Vocabulary of the properties *)

(** The line, trimmed, ends in a semicolon. *)
Definition terminated (l : string) : Prop := ends_statement l = true.

(** A loop given by its fuel-indexed runs stops when some amount of
    fuel lets it return, and hangs when no amount does. *)
Definition stops {A : Type} (run : nat -> option A) : Prop :=
  exists fuel r, run fuel = Some r.

Definition hangs {A : Type} (run : nat -> option A) : Prop :=
  forall fuel, run fuel = None.

Definition foo_one_line : string :=
  "void foo(const int* lo, const int* hi);" ++ nl.

(** [c] does not occur in [s]. *)
Definition no_char (c : ascii) (s : string) : Prop := Py.index_char c s = None.

(** The specification's wording, whitespace removed: every whitespace
    character deleted. *)
Fixpoint remove_whitespace (s : string) : string :=
  match s with
  | EmptyString => EmptyString
  | String c s' =>
      if Py.is_space c then remove_whitespace s'
      else String c (remove_whitespace s')
  end.

(** [s.count(sub)] for a non-empty [sub]: the occurrences met by a scan
    from the left that steps over each one. *)
Fixpoint count_go (sub : string) (skip : nat) (s : string) : nat :=
  match s with
  | EmptyString => 0
  | String c s' =>
      match skip with
      | S k => count_go sub k s'
      | O =>
          if prefix sub s then S (count_go sub (String.length sub - 1) s')
          else count_go sub 0 s'
      end
  end.

Definition count (s sub : string) : nat := count_go sub 0 s.

Definition bar_kernel : string :=
"
__global__ static void cuda_bar(const int lo_1, const int lo_2, const int lo_3, const int hi_1, const int hi_2, const int hi_3, Real* a)

{
   int lo[3] = {lo_1, lo_2, lo_3};
   int hi[3] = {hi_1, hi_2, hi_3};

   int blo[3];
   int bhi[3];
   for (int k = lo[2] + blockIdx.z * blockDim.z + threadIdx.z; k <= hi[2]; k += blockDim.z * gridDim.z) {
     blo[2] = k;
     bhi[2] = k;
     for (int j = lo[1] + blockIdx.y * blockDim.y + threadIdx.y; j <= hi[1]; j += blockDim.y * gridDim.y) {
       blo[1] = j;
       bhi[1] = j;
       for (int i = lo[0] + blockIdx.x * blockDim.x + threadIdx.x; i <= hi[0]; i += blockDim.x * gridDim.x) {
         blo[0] = i;
         bhi[0] = i;
         bar_device(blo, bhi, a);
       }
     }
   }
}
".

Definition fill_decl : string :=
  "void fill(const int* lo, const int* hi, fill_t* a);" ++ nl.

Definition id_order (l : list string) : list string := l.

Definition header_one_line_decl : file :=
  [ foo_one_line; "int keep_me;" ++ nl; "int other;" ++ nl ].

Definition header_foo_twice : file :=
  [ "void foo(const int* lo, const int* hi," ++ nl;
    "         Real* a);" ++ nl;
    "int between;" ++ nl;
    "void foo(const int* lo, const int* hi," ++ nl;
    "         Real* a);" ++ nl ].

Definition header_only_includes : file :=
  [ "#include <Foo_F.H>" ++ nl; "int own;" ++ nl ].

(** The name that a parameter declares: its last whitespace-delimited
    token without the sigils. *)
Definition param_name (v : string) : option string :=
  option_map
    (fun tok => Py.strip (Py.replace "&" "" (Py.replace "*" "" tok)))
    (Py.last_item (Py.words v)).

Definition names_bound (bound v : string) : bool :=
  match param_name v with
  | Some nm => String.eqb nm bound
  | None => false
  end.

(** The parameter list has a parameter called [bound]. *)
Definition declares (bound : string) (params : list string) : bool :=
  existsb (names_bound bound) params.

Fixpoint all_chars (p : ascii -> bool) (s : string) : bool :=
  match s with
  | EmptyString => true
  | String c s' => p c && all_chars p s'
  end.

(** A non-empty run of whitespace. *)
Definition space_run (ws : string) : Prop :=
  ws <> EmptyString /\ all_chars Py.is_space ws = true.

(** A letter followed by one or more name characters. *)
Definition binding_name (nm : string) : Prop :=
  exists c d r,
    nm = String c (String d r)
    /\ is_letter c = true /\ all_chars is_name_char (String d r) = true.

(** The text after a name: empty, or starting with a character that
    cannot continue the name. *)
Definition name_stops (rest : string) : Prop :=
  match rest with
  | EmptyString => True
  | String c _ => is_name_char c = false
  end.

(** [s] starts with the word void in any case, a whitespace run and the
    name [nm], and the name ends there. *)
Definition binding_at (s nm : string) : Prop :=
  exists kw ws rest,
    s = kw ++ ws ++ nm ++ rest
    /\ Py.lower kw = "void" /\ space_run ws /\ binding_name nm
    /\ name_stops rest.

(** No match of the pattern starts inside [pre], read in front of [rest]. *)
Definition no_match_inside (pre rest : string) : Prop :=
  forall p1 p2 nm,
    pre = p1 ++ p2 -> p2 <> EmptyString -> ~ binding_at (p2 ++ rest) nm.

(** No non-empty suffix of [r] and [q] are prefixes of one another. *)
Fixpoint no_clash (q r : string) : bool :=
  match r with
  | EmptyString => true
  | String _ r' => negb (prefix q r || prefix r q) && no_clash q r'
  end.

(** The last character of [q] is not a whitespace character. *)
Fixpoint last_nonspace (q : string) : bool :=
  match q with
  | EmptyString => false
  | String c EmptyString => negb (Py.is_space c)
  | String _ q' => last_nonspace q'
  end.

Fixpoint remove_char (c : ascii) (s : string) : string :=
  match s with
  | EmptyString => EmptyString
  | String a s' =>
      if Ascii.eqb c a then remove_char c s' else String a (remove_char c s')
  end.

Definition lo_pointer : string := "const int* lo".
Definition hi_pointer : string := "const int* hi".

(** What the loop over the parameters keeps true when no position is
    tagged: the signature is a text [b] without semicolon, the
    semicolon and the blank [tail]; a bound that has been seen has left
    no pointer form in [b]; the device signature is untouched. *)
Definition legacy_inv (tail dev0 : string) (st : rw_state) : Prop :=
  exists b,
    func_sig st = b ++ ";" ++ tail
    /\ no_char ";" b
    /\ (has_lo st = true -> Py.contains lo_pointer b = false)
    /\ (has_hi st = true -> Py.contains hi_pointer b = false)
    /\ device_sig st = dev0.

(** ** The loop nest of the kernel template *)

(** One loop of the template, [for (int i = start; i <= hi; i += stride)],
    as the list of the values that [i] takes; the integers are
    unbounded, and [fuel] bounds the number of rounds. *)
Fixpoint stride_loop (fuel : nat) (i hi stride : Z) : list Z :=
  match fuel with
  | O => []
  | S f =>
      if (i <=? hi)%Z then i :: stride_loop f (i + stride)%Z hi stride else []
  end.

(** The loop of one thread in one dimension: [t] stands for its global
    index [blockIdx * blockDim + threadIdx] and [stride] for the number
    [blockDim * gridDim] of threads.  The loop starts at [lo + t]; with
    a positive stride it makes at most [hi - lo + 1] rounds. *)
Definition thread_indices (lo hi t stride : Z) : list Z :=
  stride_loop (Z.to_nat (hi - lo + 1)) (lo + t)%Z hi stride.

Record dim3 : Type := { dx : Z; dy : Z; dz : Z }.

Definition dim3_eq_dec (a b : dim3) : {a = b} + {a <> b}.
Proof. decide equality; apply Z.eq_dec. Defined.

(** The three nested loops, [k] outermost: the index triples for which
    the thread [t] of a grid of [s] threads executes the innermost
    body, that is, sets [blo] and [bhi] to the triple and calls the
    device function. *)
Definition thread_calls (lo hi t s : dim3) : list dim3 :=
  flat_map
    (fun k =>
       flat_map
         (fun j =>
            map (fun i => {| dx := i; dy := j; dz := k |})
              (thread_indices (dx lo) (dx hi) (dx t) (dx s)))
         (thread_indices (dy lo) (dy hi) (dy t) (dy s)))
    (thread_indices (dz lo) (dz hi) (dz t) (dz s)).

(** [i] is reached by the loop that starts at [start]. *)
Definition visits (start hi stride i : Z) : bool :=
  ((start <=? i) && (i <=? hi) && ((i - start) mod stride =? 0))%Z.

(** The index triples of the box, the threads of the grid, and the
    thread that a triple falls to. *)
Definition in_box (lo hi p : dim3) : Prop :=
  (dx lo <= dx p <= dx hi /\ dy lo <= dy p <= dy hi
   /\ dz lo <= dz p <= dz hi)%Z.

Definition in_grid (s t : dim3) : Prop :=
  (0 <= dx t < dx s /\ 0 <= dy t < dy s /\ 0 <= dz t < dz s)%Z.

Definition owner (lo s p : dim3) : dim3 :=
  {| dx := ((dx p - dx lo) mod dx s)%Z;
     dy := ((dy p - dy lo) mod dy s)%Z;
     dz := ((dz p - dz lo) mod dz s)%Z |}.

(** ** Vocabulary of the further properties *)

(** How a run ended, without what it returned. *)
Definition result_kind {A : Type} (r : result A) : result unit :=
  match r with
  | Ok _ => Ok tt
  | SysExit msg => SysExit msg
  | Raise e => Raise e
  end.

Definition run_kind {A : Type} (r : option (result A)) : option (result unit) :=
  option_map result_kind r.

(** A line that the scans of the source files pass over: not the end of
    the file and not a marker line. *)
Definition unmarked (l : string) : Prop :=
  l <> EmptyString /\ Py.startswith l marker = false.

(** [kept] is [l] with some elements left out. *)
Inductive subseq {A : Type} : list A -> list A -> Prop :=
| subseq_nil : subseq [] []
| subseq_skip : forall x kept l, subseq kept l -> subseq kept (x :: l)
| subseq_keep : forall x kept l, subseq kept l -> subseq (x :: kept) (x :: l).

(** The characters of a name that a header scan can find. *)
Definition lower_name_char (c : ascii) : bool :=
  Py.is_lower c || Ascii.eqb c "_".

(** [lo] and [hi] are forwarded as the bounds of the thread. *)
Definition thread_bound (var : string) : string :=
  if String.eqb var "lo" then "blo"
  else if String.eqb var "hi" then "bhi" else var.

(** A token with every [*] and every [&] deleted, and then with the two
    array-descriptor macros renamed. *)
Definition bare_name (tok : string) : string :=
  Py.replace "BL_FORT_IFAB_ARG_3D" "BL_FORT_FAB_VAL_3D"
    (Py.replace "BL_FORT_FAB_ARG_3D" "BL_FORT_FAB_VAL_3D"
       (remove_char "&" (remove_char "*" tok))).

(** The argument that the kernel forwards for the parameter [v] when no
    position is tagged. *)
Definition forward_name (v : string) : string :=
  match Py.last_item (Py.words v) with
  | Some tok => thread_bound (bare_name tok)
  | None => EmptyString
  end.

(** A text without whitespace. *)
Definition spaceless (s : string) : bool :=
  all_chars (fun c => negb (Py.is_space c)) s.

(** The lines from [--exclude_defines] on in the main program:
    [for ex in exclude_defines.split(): defines = defines.replace(ex, "")],
    skipped when [exclude_defines] is empty. *)
Definition filter_defines (defines exclude_defines : string) : string :=
  match exclude_defines with
  | EmptyString => defines
  | _ =>
      fold_left (fun d ex => Py.replace ex EmptyString d)
        (Py.words exclude_defines) defines
  end.

(** A run that ends well or in an [IndexError], and in nothing else. *)
Definition only_index_error {A : Type} (r : result A) : Prop :=
  match r with
  | Ok _ => True
  | SysExit _ => False
  | Raise e => e = IndexError
  end.

(** The name of a bound. *)
Definition is_bound_name (x : string) : Prop := x = "lo" \/ x = "hi".

(** What the loop over the parameters keeps true of the forwarded
    arguments and of the local arrays when no position is tagged. *)
Definition forwarding_inv (st : rw_state) : Prop :=
  Forall (fun a => ~ is_bound_name a) (vars st)
  /\ Forall is_bound_name (intvect_vars st)
  /\ (has_lo st = true -> In "blo" (vars st) /\ In "lo" (intvect_vars st))
  /\ (has_hi st = true -> In "bhi" (vars st) /\ In "hi" (intvect_vars st)).

(** The ways in which the conversion of a header can fail: one of two
    exceptions, or the exit for missing bounds on a target. *)
Definition header_failure_allowed {A : Type} (names : list string)
  (r : result A) : Prop :=
  match r with
  | Ok _ => True
  | Raise e => e = AttributeError \/ e = IndexError
  | SysExit msg =>
      exists name sig',
        In name names /\ msg = missing_bounds_message name sig'
  end.

(** A header with a declaration on two lines between two other lines. *)
Definition header_bar_between : file :=
  [ "#include <AMReX_REAL.H>" ++ nl;
    "void bar(const int* lo, const int* hi," ++ nl;
    "         Real* a);" ++ nl;
    "int keep_me;" ++ nl ].

(** What every entry of [signatures] satisfies after the scan of the
    preprocessed header: the tag table is that of the target, the name
    is found in the lowered text, and the text at that place is the
    name up to the case of its letters. *)
Definition entry_sound (targets : dict tag_table) (e : string * sig_entry)
  : Prop :=
  dict_get targets (fst e) = Some (snd (snd e))
  /\ (0 <= name_index (fst (snd e)) (fst e))%Z
  /\ Py.lower (case_name (fst (snd e)) (fst e)) = fst e.

(** A parameter without a token: empty, or whitespace only. *)
Definition blank (v : string) : Prop := Py.words v = [].

(** The last token of a parameter, as it is written. *)
Definition raw_name (v : string) : string :=
  match Py.last_item (Py.words v) with
  | Some tok => tok
  | None => EmptyString
  end.

(** The arguments that the kernel forwards for the parameters [params],
    the first of which has the position [n], when the positions [ps]
    are tagged: at a tagged position the last token as it is written,
    elsewhere the last token without [*] and [&] and with the
    array-descriptor macros renamed. *)
Fixpoint forward_tagged (ps : list nat) (n : nat) (params : list string)
  : list string :=
  match params with
  | [] => []
  | v :: r =>
      thread_bound (if existsb (Nat.eqb n) ps then raw_name v
                    else bare_name (raw_name v))
      :: forward_tagged ps (S n) r
  end.

(** The local arrays of the kernel: one for every tagged position, each
    time the position is listed. *)
Fixpoint local_arrays (ps : list nat) (n : nat) (params : list string)
  : list string :=
  match params with
  | [] => []
  | v :: r =>
      (repeat (raw_name v) (count_occ Nat.eq_dec ps n)
       ++ local_arrays ps (S n) r)%list
  end.

(** What every entry of the collector's registry satisfies: one row of
    positions for every macro, each row in ascending order. *)
Definition table_sound (macro_list : list string) (e : string * tag_table)
  : Prop :=
  List.length (snd e) = List.length macro_list
  /\ Forall (StronglySorted lt) (snd e).

(** The line [line] carries the binding of [found], one of [names]: in
    its text before the comment, lowercased, the leftmost place where
    the pattern of [fortran_binding_re] matches has the name [found]. *)
Definition line_matches (names : list string) (line found : string) : Prop :=
  In found names
  /\ exists pre rest,
       Py.lower (strip_comment line) = pre ++ rest
       /\ binding_at rest found
       /\ no_match_inside pre rest.

(** How the scan of the preprocessed header reads a file, for the names
    searched for: the names at which it starts a capture, in order.
    It stops at the end of the file (an empty line read), passes over
    a line that does not match, and at a line that matches it captures
    from that line up to the first line, that line included, which
    ends a statement, and goes on behind it. *)
Inductive expanded_view (names : list string) : file -> list string -> Prop :=
| eview_end : expanded_view names [] []
| eview_stop : forall rest, expanded_view names (EmptyString :: rest) []
| eview_skip : forall l rest found,
    l <> EmptyString ->
    (forall name, ~ line_matches names l name) ->
    expanded_view names rest found ->
    expanded_view names (l :: rest) found
| eview_capture : forall l hin name before t rest found,
    l <> EmptyString ->
    line_matches names l name ->
    l :: hin = (before ++ t :: rest)%list ->
    Forall (fun x => ends_statement x = false) before ->
    ends_statement t = true ->
    expanded_view names rest found ->
    expanded_view names (l :: hin) (name :: found).

(** How the scan of the original header reads a file, for the names
    searched for: the lines it copies and the names at which it starts
    a capture, in order.  A line that does not match is copied; at a
    line that matches, the lines after it are read up to the first one,
    that one included, which ends a statement -- at least one line,
    whatever the matching line itself ends with -- and none of these
    lines is copied or examined. *)
Inductive original_view (names : list string)
  : file -> list string -> list string -> Prop :=
| oview_end : original_view names [] [] []
| oview_stop : forall rest, original_view names (EmptyString :: rest) [] []
| oview_copy : forall l rest copied found,
    l <> EmptyString ->
    (forall name, ~ line_matches names l name) ->
    original_view names rest copied found ->
    original_view names (l :: rest) (l :: copied) found
| oview_capture : forall l name body t rest copied found,
    l <> EmptyString ->
    line_matches names l name ->
    Forall (fun x => ends_statement x = false) body ->
    ends_statement t = true ->
    original_view names rest copied found ->
    original_view names (l :: body ++ t :: rest)%list copied (name :: found).

(** A header with two declarations on one line each, one after the
    other. *)
Definition header_foo_then_bar : file :=
  [ "void foo(const int* lo, const int* hi);" ++ nl;
    "void bar(const int* lo, const int* hi);" ++ nl;
    "int after;" ++ nl ].

(** * Properties *)

(** ** The model at work *)

Example collect_example :
  find_targets_from_pragmas 20
    [[ "int main() {" ++ nl; "#pragma gpu" ++ nl;
       "  foo(AMREX_INT_ANYD(lo), AMREX_INT_ANYD(hi)," ++ nl;
       "      a, AMREX_INT_ANYD(dx));" ++ nl; "}" ++ nl ]]
    ["AMREX_INT_ANYD"]
  = Some (Ok [("foo", [[0; 1; 3]])]).
Proof. reflexivity. Qed.

Example expand_example :
  convert_cxx 20 [ "x = 1;" ++ nl; "#pragma gpu" ++ nl; "  foo(lo, hi," ++ nl; "      a);" ++ nl; "y = 2;" ++ nl ]
  = Some (Ok [ "x = 1;" ++ nl; launch_text "foo" ("lo, hi," ++ nl ++ "      a"); "y = 2;" ++ nl ]).
Proof. reflexivity. Qed.

(** Scenario A: both bounds tagged.  The tagged rule replaces the whole
    parameter text, leading blank included. *)
Example rewrite_tagged_bounds :
  option_map device_declaration
    (match rewrite_signature "foo"
             ("void foo(const int* lo, const int* hi, Real* a);" ++ nl) [[0; 1]]
     with Ok p => Some p | _ => None end)
  = Some ("__device__ void foo_device(const int* lo,const int* hi, Real* a);"
          ++ nl ++ ";" ++ nl ++ nl).
Proof. vm_compute. reflexivity. Qed.

Example rewrite_bar :
  rewrite_signature "bar" bar_decl [[]]
  = Ok {| device_declaration :=
            "__device__ void bar_device(const int* lo, const int* hi, Real* a);"
            ++ nl ++ ";" ++ nl ++ nl;
          kernel :=
            TEMPLATE
              ("bar(const int lo_1, const int lo_2, const int lo_3, const int hi_1, const int hi_2, const int hi_3, Real* a)" ++ nl)
              ("   int lo[3] = {lo_1, lo_2, lo_3};" ++ nl ++ "   int hi[3] = {hi_1, hi_2, hi_3};" ++ nl)
              "bar_device(blo, bhi, a)" |}.
Proof. vm_compute. reflexivity. Qed.

(** ** Statement capture: when the loops stop *)

Lemma ends_statement_empty : ends_statement EmptyString = false.
Proof. reflexivity. Qed.

Lemma accumulate_eof (fuel : nat) (acc : string) :
  accumulate fuel EmptyString [] acc = None.
Proof.
  revert acc; induction fuel as [|f IH]; intro acc; simpl.
  - reflexivity.
  - apply IH.
Qed.

Lemma accumulate_stops_only_at_terminator (fuel : nat) :
  forall line hin acc r,
    accumulate fuel line hin acc = Some r ->
    terminated line \/ Exists terminated hin.
Proof.
  induction fuel as [|f IH]; intros line hin acc r H; simpl in H.
  - discriminate.
  - destruct (ends_statement line) eqn:E.
    + left; exact E.
    + right. destruct hin as [|l rest]; simpl in H.
      * rewrite accumulate_eof in H. discriminate.
      * destruct (IH _ _ _ _ H) as [Hl | Hr].
        -- apply Exists_cons_hd; exact Hl.
        -- apply Exists_cons_tl; exact Hr.
Qed.

Lemma accumulate_reaches_terminator (hin : file) :
  forall line acc,
    terminated line \/ Exists terminated hin ->
    exists r, accumulate (S (List.length hin)) line hin acc = Some r.
Proof.
  induction hin as [|l rest IH]; intros line acc H.
  - destruct H as [H | H].
    + simpl. unfold terminated in H. rewrite H. eexists; reflexivity.
    + inversion H.
  - cbn [List.length].
    change (accumulate (S (S (List.length rest))) line (l :: rest) acc)
      with (if ends_statement line then Some (acc, line, l :: rest)
            else accumulate (S (List.length rest)) l rest (acc ++ line)).
    destruct (ends_statement line) eqn:E.
    + eexists; reflexivity.
    + apply IH. destruct H as [H | H].
      * unfold terminated in H. congruence.
      * inversion H; subst; [left | right]; assumption.
Qed.

Lemma accumulate_never_without_terminator (fuel : nat) line hin acc :
  ends_statement line = false -> ~ Exists terminated hin ->
  accumulate fuel line hin acc = None.
Proof.
  intros Hl Hh.
  destruct (accumulate fuel line hin acc) as [r|] eqn:E; [|reflexivity].
  apply accumulate_stops_only_at_terminator in E.
  destruct E as [E | E]; [unfold terminated in E; congruence | contradiction].
Qed.

Lemma capture_original_stops_only_at_terminator (fuel : nat) :
  forall hin sig r,
    capture_original fuel hin sig = Some r -> Exists terminated hin.
Proof.
  induction fuel as [|f IH]; intros hin sig r H; simpl in H.
  - discriminate.
  - destruct hin as [|l rest]; simpl in H.
    + exfalso. clear IH. revert sig H.
      induction f as [|f IHf]; intros sig H; simpl in H; [discriminate|].
      eapply IHf; exact H.
    + destruct (ends_statement l) eqn:E.
      * apply Exists_cons_hd; exact E.
      * apply Exists_cons_tl. eapply IH; exact H.
Qed.

Lemma capture_original_reaches_terminator (hin : file) :
  forall sig,
    Exists terminated hin ->
    exists r, capture_original (List.length hin) hin sig = Some r.
Proof.
  induction hin as [|l rest IH]; intros sig H.
  - inversion H.
  - simpl. destruct (ends_statement l) eqn:E.
    + eexists; reflexivity.
    + apply IH. inversion H; subst; [unfold terminated in *; congruence | assumption].
Qed.

Lemma capture_original_never_without_terminator (fuel : nat) hin sig :
  ~ Exists terminated hin -> capture_original fuel hin sig = None.
Proof.
  intro Hh.
  destruct (capture_original fuel hin sig) as [r|] eqn:E; [|reflexivity].
  apply capture_original_stops_only_at_terminator in E. contradiction.
Qed.

Lemma after_marker_never (fuel : nat) (hin : file) (acc : string) :
  ~ Exists terminated hin ->
  accumulate fuel (fst (readline hin)) (snd (readline hin)) acc = None.
Proof.
  intro H. destruct hin as [|l rest]; simpl.
  - apply accumulate_eof.
  - apply accumulate_never_without_terminator.
    + destruct (ends_statement l) eqn:E; [|reflexivity].
      exfalso; apply H; apply Exists_cons_hd; exact E.
    + intro Hr; apply H; apply Exists_cons_tl; exact Hr.
Qed.

Lemma scan_pragmas_hangs (fuel : nat) macro_list line hin targets :
  Py.startswith line marker = true -> ~ Exists terminated hin ->
  scan_pragmas fuel macro_list line hin targets = None.
Proof.
  intros Hm Hh. destruct fuel as [|f]; [reflexivity|].
  destruct line as [|c line']; [discriminate|].
  cbn [scan_pragmas]. rewrite Hm.
  pose proof (after_marker_never f hin EmptyString Hh) as A.
  destruct (readline hin) as [l1 h1]; cbn [fst snd] in A.
  rewrite A. reflexivity.
Qed.

Lemma scan_cxx_hangs (fuel : nat) line hin out :
  Py.startswith line marker = true -> ~ Exists terminated hin ->
  scan_cxx fuel line hin out = None.
Proof.
  intros Hm Hh. destruct fuel as [|f]; [reflexivity|].
  destruct line as [|c line']; [discriminate|].
  cbn [scan_cxx]. rewrite Hm.
  pose proof (after_marker_never f hin EmptyString Hh) as A.
  destruct (readline hin) as [l1 h1]; cbn [fst snd] in A.
  rewrite A. reflexivity.
Qed.

Lemma find_target_in (names : list string) (tline found : string) :
  find_target names tline = Some found -> In found names.
Proof.
  unfold find_target. intro H. apply find_some in H. tauto.
Qed.

Lemma find_target_matches (names : list string) (tline found : string) :
  find_target names tline = Some found ->
  fortran_binding_re_search (Py.lower tline) = Some found.
Proof.
  unfold find_target. intro H. apply find_some in H. destruct H as [_ H].
  destruct (fortran_binding_re_search (Py.lower tline)) as [g|]; [|discriminate].
  apply String.eqb_eq in H. congruence.
Qed.

Lemma find_target_empty_line (names : list string) :
  find_target names (strip_comment EmptyString) = None.
Proof.
  destruct (find_target names (strip_comment EmptyString)) as [t|] eqn:E;
    [|reflexivity].
  apply find_target_matches in E. discriminate.
Qed.

Lemma dict_get_in {V : Type} (d : dict V) (k : string) :
  In k (keys d) -> exists v, dict_get d k = Some v.
Proof.
  induction d as [|[k' v'] r IH]; simpl; intro H; [contradiction|].
  destruct (String.eqb k k') eqn:E.
  - eexists; reflexivity.
  - destruct H as [H | H].
    + subst. rewrite String.eqb_refl in E. discriminate.
    + apply IH; exact H.
Qed.

Lemma scan_expanded_hangs (fuel : nat) targets line hin signatures found :
  find_target (keys targets) (strip_comment line) = Some found ->
  ends_statement line = false -> ~ Exists terminated hin ->
  scan_expanded fuel targets line hin signatures = None.
Proof.
  intros Hf Hl Hh. destruct fuel as [|f]; [reflexivity|].
  destruct line as [|c line'].
  - rewrite find_target_empty_line in Hf. discriminate.
  - cbn [scan_expanded]. rewrite Hf.
    rewrite accumulate_never_without_terminator by assumption.
    reflexivity.
Qed.

Lemma scan_original_hangs (fuel : nat) signatures line hin out needed found :
  find_target (keys signatures) (strip_comment line) = Some found ->
  ~ Exists terminated hin ->
  scan_original fuel signatures line hin out needed = None.
Proof.
  intros Hf Hh. destruct fuel as [|f]; [reflexivity|].
  destruct line as [|c line'].
  - rewrite find_target_empty_line in Hf. discriminate.
  - cbn [scan_original]. rewrite Hf.
    destruct (dict_get_in signatures found (find_target_in _ _ _ Hf)) as [e He].
    rewrite He.
    rewrite capture_original_never_without_terminator by assumption.
    reflexivity.
Qed.

(** C10, as stated, fails for the scan of the expanded header: the loop
    there tests the matched line itself, so a one-line declaration on
    the last line of the file is captured although no later line ends
    in a semicolon. *)
Lemma expanded_capture_stops_without_later_line :
  find_target ["foo"] (strip_comment foo_one_line) = Some "foo"
  /\ stops (fun fuel => accumulate fuel foo_one_line [] EmptyString)
  /\ ~ Exists terminated ([] : file)
  /\ scan_expanded 2 [("foo", [[]])] foo_one_line [] []
     = Some (Ok [("foo", (foo_one_line, [[]]))]).
Proof.
  split; [reflexivity|]. split; [|split].
  - exists 1, (EmptyString, foo_one_line, []). reflexivity.
  - intro H; inversion H.
  - reflexivity.
Qed.

(** C10 (amended): a capture loop stops exactly when one of the lines it
    tests, trimmed, ends in a semicolon.  The collector and the
    call-site expander test the lines after the marker; the scan of the
    expanded header tests the matched line and the lines after it; the
    loop of the scan of the original header stops when a line after the
    matched one ends a statement and hangs when neither the matched line
    nor a later one does.  At the end of the file [readline] keeps
    returning the empty string, the loop hangs, and so does the scan
    that entered it. *)
Theorem capture_loops_stop_iff_terminator_ahead :
  (readline [] = (EmptyString, [])
   /\ forall acc, hangs (fun fuel => accumulate fuel EmptyString [] acc))
  /\ (forall hin acc,
        stops (fun fuel =>
                 accumulate fuel (fst (readline hin)) (snd (readline hin)) acc)
        <-> Exists terminated hin)
  /\ (forall line hin acc,
        stops (fun fuel => accumulate fuel line hin acc)
        <-> terminated line \/ Exists terminated hin)
  /\ (forall line hin,
        (Exists terminated hin ->
         stops (fun fuel => capture_original fuel hin line))
        /\ (ends_statement line = false -> ~ Exists terminated hin ->
            hangs (fun fuel => capture_original fuel hin line)))
  /\ (forall macro_list line hin targets,
        Py.startswith line marker = true -> ~ Exists terminated hin ->
        hangs (fun fuel => scan_pragmas fuel macro_list line hin targets))
  /\ (forall line hin out,
        Py.startswith line marker = true -> ~ Exists terminated hin ->
        hangs (fun fuel => scan_cxx fuel line hin out))
  /\ (forall targets line hin signatures found,
        find_target (keys targets) (strip_comment line) = Some found ->
        ends_statement line = false -> ~ Exists terminated hin ->
        hangs (fun fuel => scan_expanded fuel targets line hin signatures))
  /\ (forall signatures line hin out needed found,
        find_target (keys signatures) (strip_comment line) = Some found ->
        ends_statement line = false -> ~ Exists terminated hin ->
        hangs (fun fuel => scan_original fuel signatures line hin out needed)).
Proof.
  split; [split; [reflexivity | intros acc fuel; apply accumulate_eof]|].
  split; [intros hin acc; split|].
  { intros (fuel & r & H).
    apply accumulate_stops_only_at_terminator in H.
    destruct hin as [|l rest]; simpl in H.
    - destruct H as [H | H]; [discriminate | inversion H].
    - destruct H as [H | H]; [apply Exists_cons_hd | apply Exists_cons_tl];
        exact H. }
  { intro H. destruct hin as [|l rest]; [inversion H|]. simpl.
    destruct (accumulate_reaches_terminator rest l acc) as [r Hr].
    - inversion H; subst; [left | right]; assumption.
    - exists (S (List.length rest)), r. exact Hr. }
  split; [intros line hin acc; split|].
  { intros (fuel & r & H).
    eapply accumulate_stops_only_at_terminator; exact H. }
  { intro H. destruct (accumulate_reaches_terminator hin line acc H) as [r Hr].
    exists (S (List.length hin)), r. exact Hr. }
  split; [intros line hin; split|].
  { intro H.
    destruct (capture_original_reaches_terminator hin line H) as [r Hr].
    exists (List.length hin), r. exact Hr. }
  { intros _ H fuel. apply capture_original_never_without_terminator; exact H. }
  split; [intros ? ? ? ? Hm Hh fuel; apply scan_pragmas_hangs; assumption|].
  split; [intros ? ? ? Hm Hh fuel; apply scan_cxx_hangs; assumption|].
  split.
  - intros ? ? ? ? ? Hf Hl Hh fuel. eapply scan_expanded_hangs; eassumption.
  - intros ? ? ? ? ? ? Hf _ Hh fuel. eapply scan_original_hangs; eassumption.
Qed.

Lemma capture_loops_stop_iff_terminator_ahead_witness :
  stops (fun fuel =>
           accumulate fuel ("  foo(lo, hi," ++ nl) ["      a);" ++ nl] EmptyString)
  /\ hangs (fun fuel =>
              scan_cxx fuel ("#pragma gpu" ++ nl) ["  foo(lo, hi," ++ nl] []).
Proof.
  destruct capture_loops_stop_iff_terminator_ahead
    as (_ & _ & Hacc & _ & _ & Hcxx & _).
  split.
  - apply Hacc. right. apply Exists_cons_hd. reflexivity.
  - apply Hcxx.
    + reflexivity.
    + intro H. inversion H as [? ? H1 | ? ? H1]; [discriminate | inversion H1].
Defined.

(** ** Text lemmas *)

Lemma app_assoc_s (a b c : string) : (a ++ b) ++ c = a ++ (b ++ c).
Proof. induction a as [|x a IH]; simpl; [reflexivity | now rewrite IH]. Qed.

Lemma app_nil_r_s (a : string) : a ++ EmptyString = a.
Proof. induction a as [|x a IH]; simpl; [reflexivity | now rewrite IH]. Qed.

Lemma length_app_s (a b : string) :
  String.length (a ++ b) = String.length a + String.length b.
Proof. induction a as [|x a IH]; simpl; [reflexivity | now rewrite IH]. Qed.

Lemma take_app (a b : string) : Py.take (String.length a) (a ++ b) = a.
Proof. induction a as [|x a IH]; simpl; [now destruct b | now rewrite IH]. Qed.

Lemma drop_app (a b : string) : Py.drop (String.length a) (a ++ b) = b.
Proof. induction a as [|x a IH]; simpl; [now destruct b | exact IH]. Qed.

Lemma no_char_cons (c x : ascii) (s : string) :
  no_char c (String x s) -> Ascii.eqb x c = false /\ no_char c s.
Proof.
  unfold no_char; simpl. destruct (Ascii.eqb x c); [discriminate|].
  destruct (Py.index_char c s); [discriminate|]. tauto.
Qed.

Lemma index_char_app (c : ascii) (pre rest : string) :
  no_char c pre ->
  Py.index_char c (pre ++ String c rest) = Some (String.length pre).
Proof.
  induction pre as [|x pre IH]; intro H; simpl.
  - now rewrite Ascii.eqb_refl.
  - apply no_char_cons in H. destruct H as [Hx Hp].
    rewrite Hx, (IH Hp). reflexivity.
Qed.

Lemma rindex_char_none (c : ascii) (s : string) :
  no_char c s -> Py.rindex_char c s = None.
Proof.
  induction s as [|x s IH]; intro H; simpl; [reflexivity|].
  apply no_char_cons in H. destruct H as [Hx Hs].
  now rewrite (IH Hs), Hx.
Qed.

Lemma rindex_char_app (c : ascii) (mid post : string) :
  no_char c post ->
  Py.rindex_char c (mid ++ String c post) = Some (String.length mid).
Proof.
  intro H. induction mid as [|x mid IH]; simpl.
  - now rewrite (rindex_char_none _ _ H), Ascii.eqb_refl.
  - now rewrite IH.
Qed.

Lemma drop_S_app (c : ascii) (a b : string) :
  Py.drop (S (String.length a)) (a ++ String c b) = b.
Proof. induction a as [|x a IH]; simpl; [now destruct b | exact IH]. Qed.

Lemma split1_app (c : ascii) (pre rest : string) :
  no_char c pre -> Py.split1 c (pre ++ String c rest) = [pre; rest].
Proof.
  intro H. unfold Py.split1. rewrite (index_char_app _ _ _ H).
  now rewrite take_app, drop_S_app.
Qed.

Lemma rsplit1_app (c : ascii) (mid post : string) :
  no_char c post -> Py.rsplit1 c (mid ++ String c post) = [mid; post].
Proof.
  intro H. unfold Py.rsplit1. rewrite (rindex_char_app _ _ _ H).
  now rewrite take_app, drop_S_app.
Qed.

(** What [decls_re] finds in a text with a parenthesised part. *)
Lemma decls_re_search_app (pre mid post : string) :
  no_char "(" pre -> no_char ")" post ->
  decls_re_search (pre ++ "(" ++ mid ++ ")" ++ post)
  = Some {| group1 := pre; group3 := mid |}.
Proof.
  intros Hpre Hpost. unfold decls_re_search.
  change (pre ++ "(" ++ mid ++ ")" ++ post)
    with (pre ++ String "(" (mid ++ String ")" post)).
  rewrite (index_char_app _ _ _ Hpre), drop_S_app, take_app.
  rewrite (rindex_char_app _ _ _ Hpost), take_app. reflexivity.
Qed.

Lemma index_char_some (c : ascii) (s : string) (i : nat) :
  Py.index_char c s = Some i ->
  s = Py.take i s ++ String c (Py.drop (S i) s) /\ no_char c (Py.take i s).
Proof.
  revert i; induction s as [|x s IH]; intros i H; simpl in H; [discriminate|].
  destruct (Ascii.eqb x c) eqn:E.
  - injection H as <-. apply Ascii.eqb_eq in E. subst. simpl.
    split; [now destruct s | reflexivity].
  - destruct (Py.index_char c s) as [k|] eqn:K; [|discriminate].
    injection H as <-. destruct (IH k eq_refl) as [Hs Hn].
    split.
    + simpl. f_equal. exact Hs.
    + unfold no_char. simpl. rewrite E. unfold no_char in Hn. now rewrite Hn.
Qed.

Lemma rindex_char_no_char (c : ascii) (s : string) :
  Py.rindex_char c s = None -> no_char c s.
Proof.
  induction s as [|x s IH]; intro H; [reflexivity|]. simpl in H.
  destruct (Py.rindex_char c s); [discriminate|].
  destruct (Ascii.eqb x c) eqn:E; [discriminate|].
  unfold no_char. simpl. rewrite E. specialize (IH eq_refl).
  unfold no_char in IH. now rewrite IH.
Qed.

Lemma rindex_char_some (c : ascii) (s : string) (j : nat) :
  Py.rindex_char c s = Some j ->
  s = Py.take j s ++ String c (Py.drop (S j) s) /\ no_char c (Py.drop (S j) s).
Proof.
  revert j; induction s as [|x s IH]; intros j H; simpl in H; [discriminate|].
  destruct (Py.rindex_char c s) as [k|] eqn:K.
  - injection H as <-. destruct (IH k eq_refl) as [Hs Hn].
    split; [simpl; f_equal; exact Hs | exact Hn].
  - destruct (Ascii.eqb x c) eqn:E; [|discriminate].
    injection H as <-. apply Ascii.eqb_eq in E. subst.
    split; [now destruct s|]. simpl.
    replace (Py.drop 0 s) with s by now destruct s.
    apply rindex_char_no_char; exact K.
Qed.

Lemma decls_re_search_some (s : string) (dd : decls_match) :
  decls_re_search s = Some dd ->
  exists post,
    s = group1 dd ++ "(" ++ group3 dd ++ ")" ++ post
    /\ no_char "(" (group1 dd) /\ no_char ")" post.
Proof.
  unfold decls_re_search. intro H.
  destruct (Py.index_char "(" s) as [i|] eqn:I; [|discriminate].
  destruct (Py.rindex_char ")" (Py.drop (S i) s)) as [j|] eqn:J; [|discriminate].
  injection H as <-. simpl.
  destruct (index_char_some _ _ _ I) as [Hs Hn].
  destruct (rindex_char_some _ _ _ J) as [Hr Hm].
  exists (Py.drop (S j) (Py.drop (S i) s)).
  split; [|split; assumption].
  rewrite Hs at 1. simpl. f_equal. f_equal. exact Hr.
Qed.

Lemma rstrip_app_nonspace (x : string) (c : ascii) :
  Py.is_space c = false ->
  Py.rstrip (x ++ String c EmptyString) = x ++ String c EmptyString.
Proof.
  intro H. induction x as [|a x IH]; simpl.
  - now rewrite H.
  - rewrite IH. destruct x; reflexivity.
Qed.

Lemma lstrip_before_paren (pre rest : string) :
  no_char "(" pre ->
  exists pre',
    Py.lstrip (pre ++ String "(" rest) = pre' ++ String "(" rest
    /\ no_char "(" pre'.
Proof.
  induction pre as [|a pre IH]; intro H.
  - exists EmptyString. split; reflexivity.
  - pose proof (no_char_cons _ _ _ H) as [_ Hp]. simpl.
    destruct (Py.is_space a).
    + apply IH; exact Hp.
    + exists (String a pre). split; [reflexivity | exact H].
Qed.

(** The argument text that the collector splits: the same text as
    group 3. *)
Lemma stripped_match_inner (pre mid : string) :
  no_char "(" pre ->
  (after <- item (Py.split1 "(" (Py.strip (pre ++ "(" ++ mid ++ ")"))) 1 ;;
   item (Py.rsplit1 ")" after) 0) = Ok mid.
Proof.
  intro H. unfold Py.strip.
  change (pre ++ "(" ++ mid ++ ")") with (pre ++ String "(" (mid ++ ")")).
  replace (pre ++ String "(" (mid ++ ")"))
    with ((pre ++ String "(" mid) ++ String ")" EmptyString)
    by (rewrite app_assoc_s; reflexivity).
  rewrite rstrip_app_nonspace by reflexivity.
  rewrite app_assoc_s. cbn [append].
  destruct (lstrip_before_paren pre (mid ++ ")") H) as (pre' & -> & Hp).
  rewrite (split1_app _ _ _ Hp). cbn [item nth_error bind].
  change (mid ++ ")") with (mid ++ String ")" EmptyString).
  rewrite rsplit1_app by reflexivity. reflexivity.
Qed.

(** [s.split(",")] cuts at every comma and nowhere else. *)
Lemma split_pieces (c : ascii) (s : string) :
  String.concat (String c EmptyString) (Py.split c s) = s
  /\ Forall (no_char c) (Py.split c s)
  /\ Py.split c s <> [].
Proof.
  induction s as [|x s (IH1 & IH2 & IH3)].
  - simpl. repeat split; [repeat constructor | discriminate].
  - simpl. destruct (Ascii.eqb x c) eqn:E.
    + apply Ascii.eqb_eq in E. subst x.
      repeat split; [| constructor; [reflexivity | exact IH2] | discriminate].
      destruct (Py.split c s) as [|h t] eqn:S; [contradiction|].
      cbn [concat]. cbn [concat] in IH1.
      destruct t; simpl in *; now rewrite IH1.
    + destruct (Py.split c s) as [|h t] eqn:S; [contradiction|].
      repeat split; [| | discriminate].
      * cbn [concat] in *. destruct t; simpl in *; now rewrite IH1.
      * inversion IH2; subst. constructor; [|assumption].
        unfold no_char in *. simpl. rewrite E. now rewrite H1.
Qed.

Lemma positions_from_spec (macro : string) (args : list string) :
  forall k i,
    In i (positions_from k macro args)
    <-> exists arg, k <= i /\ nth_error args (i - k) = Some arg
                    /\ Py.contains macro arg = true.
Proof.
  induction args as [|a r IH]; intros k i; simpl.
  - split; [contradiction|]. intros (arg & _ & H & _).
    destruct (i - k); discriminate.
  - assert (R : In i (positions_from (S k) macro r)
                <-> exists arg, S k <= i /\ nth_error r (i - S k) = Some arg
                                /\ Py.contains macro arg = true) by apply IH.
    assert (T : (exists arg, k <= i /\ nth_error (a :: r) (i - k) = Some arg
                             /\ Py.contains macro arg = true)
                <-> (i = k /\ Py.contains macro a = true)
                    \/ exists arg, S k <= i /\ nth_error r (i - S k) = Some arg
                                   /\ Py.contains macro arg = true).
    { split.
      - intros (arg & Hk & Hn & Hc).
        destruct (Nat.eq_dec i k) as [-> | Hne].
        + left. rewrite Nat.sub_diag in Hn. simpl in Hn. injection Hn as ->.
          tauto.
        + right. exists arg. split; [lia|]. split; [|exact Hc].
          replace (i - k) with (S (i - S k)) in Hn by lia. exact Hn.
      - intros [[-> Hc] | (arg & Hk & Hn & Hc)].
        + exists a. rewrite Nat.sub_diag. simpl. auto.
        + exists arg. split; [lia|]. split; [|exact Hc].
          replace (i - k) with (S (i - S k)) by lia. exact Hn. }
    rewrite T. destruct (Py.contains macro a) eqn:C; simpl; rewrite R.
    + split; [intros [<- | H]; [left; auto | right; exact H]
             | intros [[-> _] | H]; [left; reflexivity | right; exact H]].
    + split; [intro H; right; exact H | intros [[_ H] | H]; [discriminate | exact H]].
Qed.

Lemma positions_from_lower_bound (macro : string) (args : list string) :
  forall k i, In i (positions_from k macro args) -> k <= i.
Proof.
  intros k i H. apply positions_from_spec in H.
  destruct H as (_ & H & _). exact H.
Qed.

Lemma positions_from_increasing (macro : string) (args : list string) :
  forall k, Sorted.StronglySorted lt (positions_from k macro args).
Proof.
  induction args as [|a r IH]; intro k; simpl; [constructor|].
  destruct (Py.contains macro a); [|apply IH].
  constructor; [apply IH|].
  apply Forall_forall. intros i Hi.
  apply positions_from_lower_bound in Hi. lia.
Qed.

(** ** The collector's parse of a marked call (C4) *)

(** C4, as stated, fails: a tab inside the text before the parenthesis
    stays in the recorded name; the code strips both ends and deletes
    space characters only. *)
Lemma collector_name_keeps_inner_tab :
  parse_target ["AMREX_INT_ANYD"] ("ns::" ++ tab ++ "foo(AMREX_INT_ANYD(lo), a)")
  = Ok ("ns::" ++ tab ++ "foo", [[0]])
  /\ remove_whitespace ("ns::" ++ tab ++ "foo") = "ns::foo"
  /\ "ns::" ++ tab ++ "foo" <> remove_whitespace ("ns::" ++ tab ++ "foo").
Proof.
  split; [reflexivity|]. split; [reflexivity|]. discriminate.
Qed.

(** C4 (amended): for a captured call [pre ( mid ) post], where [pre]
    has no opening and [post] no closing parenthesis, the name is [pre]
    with both ends stripped of whitespace and its space characters
    deleted; the arguments are [mid] cut at every comma and nowhere
    else; and for each tag token the recorded positions are, in
    increasing order, exactly the zero-based indices of the arguments
    that contain the token. *)
Theorem collector_parse (macro_list : list string) (pre mid post : string) :
  no_char "(" pre -> no_char ")" post ->
  let args := Py.split "," mid in
  parse_target macro_list (pre ++ "(" ++ mid ++ ")" ++ post)
  = Ok (Py.replace " " "" (Py.strip pre), tag_positions macro_list args)
  /\ String.concat "," args = mid
  /\ Forall (no_char ",") args
  /\ List.length (tag_positions macro_list args) = List.length macro_list
  /\ forall j macro,
       nth_error macro_list j = Some macro ->
       exists ps,
         nth_error (tag_positions macro_list args) j = Some ps
         /\ Sorted.StronglySorted lt ps
         /\ forall i,
              In i ps
              <-> exists arg, nth_error args i = Some arg
                              /\ Py.contains macro arg = true.
Proof.
  intros Hpre Hpost args.
  split; [|split; [|split; [|split]]].
  - unfold parse_target. rewrite (decls_re_search_app _ _ _ Hpre Hpost).
    unfold group0. cbn [group1 group3].
    pose proof (stripped_match_inner pre mid Hpre) as E.
    destruct (item (Py.split1 "(" (Py.strip (pre ++ "(" ++ mid ++ ")"))) 1)
      as [after | |]; cbn [bind] in *; try discriminate.
    destruct (item (Py.rsplit1 ")" after) 0) as [inner | |];
      cbn [bind] in *; try discriminate.
    injection E as ->. reflexivity.
  - apply (split_pieces "," mid).
  - apply (split_pieces "," mid).
  - unfold tag_positions. apply length_map.
  - intros j macro Hj. exists (positions_from 0 macro args).
    split; [|split].
    + unfold tag_positions. rewrite nth_error_map, Hj. reflexivity.
    + apply positions_from_increasing.
    + intro i. rewrite positions_from_spec. rewrite Nat.sub_0_r.
      split.
      * intros (arg & _ & H). exists arg. exact H.
      * intros (arg & H). exists arg. split; [lia | exact H].
Qed.

Lemma collector_parse_witness :
  parse_target ["AMREX_INT_ANYD"]
    ("  foo" ++ "(" ++ "AMREX_INT_ANYD(lo), AMREX_INT_ANYD(hi), a" ++ ")" ++ EmptyString)
  = Ok ("foo", [[0; 1]]).
Proof.
  exact (proj1 (collector_parse ["AMREX_INT_ANYD"] "  foo"
                  "AMREX_INT_ANYD(lo), AMREX_INT_ANYD(hi), a" EmptyString
                  eq_refl eq_refl)).
Defined.

(** ** Scenario B (C6) *)

Section GridStride.

Local Open Scope Z_scope.

Lemma stride_loop_count (stride hi i : Z) :
  0 < stride ->
  forall fuel start,
    hi - start + 1 <= Z.of_nat fuel ->
    count_occ Z.eq_dec (stride_loop fuel start hi stride) i
    = if visits start hi stride i then 1%nat else 0%nat.
Proof.
  intros Hs. induction fuel as [|f IH]; intros start Hf.
  - simpl. unfold visits.
    destruct (start <=? i) eqn:A; destruct (i <=? hi) eqn:B; simpl; try reflexivity.
    apply Z.leb_le in A, B. lia.
  - cbn [stride_loop]. destruct (start <=? hi) eqn:E.
    + cbn [count_occ]. rewrite IH by lia.
      apply Z.leb_le in E. unfold visits.
      destruct (Z.eq_dec start i) as [->|N].
      * replace (i + stride <=? i) with false by (symmetry; apply Z.leb_gt; lia).
        rewrite Z.leb_refl, Z.sub_diag, Z.mod_0_l by lia.
        replace (i <=? hi) with true by (symmetry; apply Z.leb_le; lia).
        reflexivity.
      * destruct (i <=? hi) eqn:B; [|now rewrite !andb_false_r].
        rewrite !andb_true_r.
        replace (i - (start + stride)) with (i - start + (-1) * stride) by lia.
        rewrite Z.mod_add by lia.
        destruct ((i - start) mod stride =? 0) eqn:M;
          [|now rewrite !andb_false_r].
        rewrite !andb_true_r. apply Z.eqb_eq in M.
        destruct (start <=? i) eqn:A, (start + stride <=? i) eqn:A';
          try reflexivity;
          [apply Z.leb_le in A; apply Z.leb_gt in A' | apply Z.leb_gt in A; apply Z.leb_le in A'; lia].
        exfalso. apply Z.mod_divide in M; [|lia]. destruct M as [q Hq].
        assert (0 < q * stride < stride) by lia.
        assert (q <= 0 \/ 1 <= q) as [Q | Q] by lia; nia.
    + simpl. apply Z.leb_gt in E. unfold visits.
      destruct (start <=? i) eqn:A; destruct (i <=? hi) eqn:B; simpl; try reflexivity.
      apply Z.leb_le in A, B. lia.
Qed.

Lemma stride_mod_owner (lo stride t i : Z) :
  0 < stride -> 0 <= t < stride -> lo <= i ->
  ((lo + t <=? i) && ((i - (lo + t)) mod stride =? 0)) = (t =? (i - lo) mod stride).
Proof.
  intros Hs Ht Hi.
  destruct (t =? (i - lo) mod stride) eqn:E.
  - apply Z.eqb_eq in E.
    pose proof (Z.mod_pos_bound (i - lo) stride Hs) as Bd.
    pose proof (Z.div_mod (i - lo) stride ltac:(lia)) as D.
    apply andb_true_iff. split.
    + apply Z.leb_le. pose proof (Z.mod_le (i - lo) stride ltac:(lia) Hs). lia.
    + apply Z.eqb_eq.
      replace (i - (lo + t)) with (stride * ((i - lo) / stride)) by lia.
      rewrite Z.mul_comm. apply Z.mod_mul. lia.
  - apply Z.eqb_neq in E. apply andb_false_iff.
    destruct (lo + t <=? i) eqn:A; [right | left; reflexivity].
    apply Z.eqb_neq. intro M. apply E.
    apply Z.mod_divide in M; [|lia]. destruct M as [q Hq].
    replace (i - lo) with (t + q * stride) by lia.
    rewrite Z.mod_add by lia. symmetry. apply Z.mod_small. exact Ht.
Qed.

Lemma thread_indices_count (lo hi t stride i : Z) :
  0 < stride -> 0 <= t < stride ->
  count_occ Z.eq_dec (thread_indices lo hi t stride) i
  = if (lo <=? i) && (i <=? hi) && (t =? (i - lo) mod stride) then 1%nat else 0%nat.
Proof.
  intros Hs Ht. unfold thread_indices.
  rewrite (stride_loop_count stride hi i Hs) by lia.
  unfold visits.
  destruct (lo <=? i) eqn:L.
  - apply Z.leb_le in L.
    rewrite <- (stride_mod_owner lo stride t i Hs Ht L).
    destruct (lo + t <=? i), (i <=? hi), ((i - (lo + t)) mod stride =? 0);
      reflexivity.
  - apply Z.leb_gt in L.
    replace (lo + t <=? i) with false by (symmetry; apply Z.leb_gt; lia).
    reflexivity.
Qed.

Lemma count_occ_flat_map_select {A B : Type}
  (decA : forall a b : A, {a = b} + {a <> b})
  (decB : forall a b : B, {a = b} + {a <> b})
  (f : A -> list B) (p : B) (a : A) (c : nat) (l : list A) :
  (forall x, count_occ decB (f x) p = if decA x a then c else 0%nat) ->
  count_occ decB (flat_map f l) p = (c * count_occ decA l a)%nat.
Proof.
  intro H. induction l as [|x l IH]; simpl; [lia|].
  rewrite count_occ_app, IH, H.
  destruct (decA x a); lia.
Qed.

Lemma count_occ_row (j k : Z) (l : list Z) (p : dim3) :
  count_occ dim3_eq_dec (map (fun i => {| dx := i; dy := j; dz := k |}) l) p
  = if Z.eq_dec j (dy p) then
      if Z.eq_dec k (dz p) then count_occ Z.eq_dec l (dx p) else 0%nat
    else 0%nat.
Proof.
  destruct p as [px py pz]. cbn [dx dy dz].
  induction l as [|i l IH]; cbn [map count_occ].
  - destruct (Z.eq_dec j py), (Z.eq_dec k pz); reflexivity.
  - rewrite IH.
    destruct (dim3_eq_dec {| dx := i; dy := j; dz := k |}
                {| dx := px; dy := py; dz := pz |}) as [E|N].
    + injection E as -> -> ->.
      destruct (Z.eq_dec py py) as [_|C]; [|contradiction].
      destruct (Z.eq_dec pz pz) as [_|C]; [|contradiction].
      destruct (Z.eq_dec px px) as [_|C]; [reflexivity | contradiction].
    + destruct (Z.eq_dec j py) as [->|Nj]; [|reflexivity].
      destruct (Z.eq_dec k pz) as [->|Nk]; [|reflexivity].
      destruct (Z.eq_dec i px) as [->|Ni]; [contradiction | reflexivity].
Qed.

Lemma thread_calls_count (lo hi s t p : dim3) :
  in_grid s t ->
  count_occ dim3_eq_dec (thread_calls lo hi t s) p
  = (count_occ Z.eq_dec (thread_indices (dx lo) (dx hi) (dx t) (dx s)) (dx p)
     * count_occ Z.eq_dec (thread_indices (dy lo) (dy hi) (dy t) (dy s)) (dy p)
     * count_occ Z.eq_dec (thread_indices (dz lo) (dz hi) (dz t) (dz s)) (dz p))%nat.
Proof.
  intros _. unfold thread_calls.
  rewrite (count_occ_flat_map_select Z.eq_dec dim3_eq_dec _ p (dz p)
             (count_occ Z.eq_dec (thread_indices (dx lo) (dx hi) (dx t) (dx s)) (dx p)
              * count_occ Z.eq_dec (thread_indices (dy lo) (dy hi) (dy t) (dy s)) (dy p))).
  - reflexivity.
  - intro k.
    destruct (Z.eq_dec k (dz p)) as [->|N].
    + rewrite (count_occ_flat_map_select Z.eq_dec dim3_eq_dec _ p (dy p)
                 (count_occ Z.eq_dec (thread_indices (dx lo) (dx hi) (dx t) (dx s)) (dx p))).
      * reflexivity.
      * intro j. rewrite count_occ_row.
        destruct (Z.eq_dec j (dy p)); [|reflexivity].
        destruct (Z.eq_dec (dz p) (dz p)); [reflexivity | contradiction].
    + rewrite (count_occ_flat_map_select Z.eq_dec dim3_eq_dec _ p (dy p) 0%nat).
      * reflexivity.
      * intro j. rewrite count_occ_row.
        destruct (Z.eq_dec j (dy p)); [|reflexivity].
        destruct (Z.eq_dec k (dz p)); [contradiction | reflexivity].
Qed.

Lemma each_index_once (lo hi s p : dim3) :
  0 < dx s -> 0 < dy s -> 0 < dz s -> in_box lo hi p ->
  in_grid s (owner lo s p)
  /\ count_occ dim3_eq_dec (thread_calls lo hi (owner lo s p) s) p = 1%nat
  /\ forall t, in_grid s t -> t <> owner lo s p ->
       count_occ dim3_eq_dec (thread_calls lo hi t s) p = 0%nat.
Proof.
  intros Hx Hy Hz (Bx & By & Bz).
  assert (G : in_grid s (owner lo s p)).
  { unfold in_grid, owner; simpl.
    repeat split; apply Z.mod_pos_bound; assumption. }
  split; [exact G|]. split.
  - rewrite (thread_calls_count _ _ _ _ _ G).
    destruct G as (Gx & Gy & Gz).
    rewrite !thread_indices_count by assumption.
    unfold owner; simpl. rewrite !Z.eqb_refl.
    replace (dx lo <=? dx p) with true by (symmetry; apply Z.leb_le; lia).
    replace (dy lo <=? dy p) with true by (symmetry; apply Z.leb_le; lia).
    replace (dz lo <=? dz p) with true by (symmetry; apply Z.leb_le; lia).
    replace (dx p <=? dx hi) with true by (symmetry; apply Z.leb_le; lia).
    replace (dy p <=? dy hi) with true by (symmetry; apply Z.leb_le; lia).
    replace (dz p <=? dz hi) with true by (symmetry; apply Z.leb_le; lia).
    reflexivity.
  - intros t Gt Nt. rewrite (thread_calls_count _ _ _ _ _ Gt).
    destruct Gt as (Gx & Gy & Gz).
    rewrite !thread_indices_count by assumption.
    destruct (dx t =? (dx p - dx lo) mod dx s) eqn:Ex;
      [|rewrite !andb_false_r; reflexivity].
    destruct (dy t =? (dy p - dy lo) mod dy s) eqn:Ey;
      [|rewrite !andb_false_r; simpl; lia].
    destruct (dz t =? (dz p - dz lo) mod dz s) eqn:Ez;
      [|rewrite !andb_false_r; simpl; lia].
    exfalso. apply Nt. apply Z.eqb_eq in Ex, Ey, Ez.
    destruct t as [tx ty tz]. unfold owner. simpl in *. congruence.
Qed.

End GridStride.

(** C6: for the untagged declaration of [bar] the device declaration is
    the original text with [__device__] in front, [_device] after the
    name and the pointer parameters [lo] and [hi] as they were; the
    kernel is the template with its three nested grid-stride loops, and
    the innermost body calls [bar_device(blo, bhi, a)], which occurs
    once in the kernel.  Run by a grid of threads with positive
    strides, the loop nest reaches every index triple of the box in
    exactly one thread, exactly once. *)
Theorem scenario_B_bar :
  rewrite_signature "bar"
    ("void bar(const int* lo, const int* hi, Real* a);" ++ nl) [[]]
  = Ok {| device_declaration :=
            "__device__ "
            ++ "void bar_device(const int* lo, const int* hi, Real* a);" ++ nl
            ++ ";" ++ nl ++ nl;
          kernel := bar_kernel |}
  /\ count bar_kernel "bar_device(blo, bhi, a)" = 1
  /\ count bar_kernel "for (int " = 3
  /\ Py.replace "bar" "bar_device"
       ("void bar(const int* lo, const int* hi, Real* a);" ++ nl)
     = "void bar_device(const int* lo, const int* hi, Real* a);" ++ nl
  /\ forall lo hi s p,
       (0 < dx s)%Z -> (0 < dy s)%Z -> (0 < dz s)%Z -> in_box lo hi p ->
       in_grid s (owner lo s p)
       /\ count_occ dim3_eq_dec (thread_calls lo hi (owner lo s p) s) p = 1
       /\ forall t,
            in_grid s t -> t <> owner lo s p ->
            count_occ dim3_eq_dec (thread_calls lo hi t s) p = 0.
Proof.
  split; [vm_compute; reflexivity|].
  split; [vm_compute; reflexivity|].
  split; [vm_compute; reflexivity|].
  split; [vm_compute; reflexivity|].
  exact each_index_once.
Qed.

Lemma scenario_B_bar_witness :
  let lo := {| dx := 0; dy := 0; dz := 0 |} in
  let hi := {| dx := 3; dy := 2; dz := 1 |} in
  let s := {| dx := 2; dy := 2; dz := 1 |} in
  let p := {| dx := 3; dy := 1; dz := 1 |} in
  owner lo s p = {| dx := 1; dy := 1; dz := 0 |}
  /\ count_occ dim3_eq_dec (thread_calls lo hi (owner lo s p) s) p = 1.
Proof.
  intros lo hi s p. split; [reflexivity|].
  destruct scenario_B_bar as (_ & _ & _ & _ & H).
  apply (H lo hi s p); try reflexivity.
  unfold in_box; simpl; lia.
Defined.

(** ** The device name suffix (C2) *)

(** C2 does not hold of the code: [str.replace] rewrites every
    occurrence of the name text, so the type [fill_t] of the third
    parameter is renamed along with the function. *)
Theorem device_suffix_hits_every_occurrence :
  case_name fill_decl "fill" = "fill"
  /\ device_sig_start fill_decl "fill"
     = "__device__ void fill_device(const int* lo, const int* hi, fill_device_t* a);"
       ++ nl ++ ";" ++ nl ++ nl
  /\ option_map device_declaration
       (match rewrite_signature "fill" fill_decl [[]] with
        | Ok p => Some p
        | _ => None
        end)
     = Some ("__device__ void fill_device(const int* lo, const int* hi, fill_device_t* a);"
             ++ nl ++ ";" ++ nl ++ nl).
Proof.
  split; [vm_compute; reflexivity|].
  split; vm_compute; reflexivity.
Qed.

(** ** Lines copied to the new files (C8) *)

(** C8 does not hold of the scan of the original header: its capture
    loop reads a new line before it tests for the semicolon, so after
    a declaration that fits on one line it also swallows the next
    statement.  The line [int keep_me;] is no part of the declaration
    captured from the expanded header, and is not copied. *)
Theorem original_scan_drops_line_after_one_line_declaration :
  scan_expanded 10 [("foo", [[]])] foo_one_line (tl header_one_line_decl) []
  = Some (Ok [("foo", (foo_one_line, [[]]))])
  /\ scan_original 10 [("foo", (foo_one_line, [[]]))]
       foo_one_line (tl header_one_line_decl) [] []
     = Some (Ok (["int other;" ++ nl], [("foo", (foo_one_line, [[]]))]))
  /\ option_map
       (fun r => match r with Ok h => copied h | _ => [] end)
       (convert_header id_order 10 [("foo", [[]])] "Src/Foo_F.H"
          header_one_line_decl header_one_line_decl)
     = Some ["int other;" ++ nl].
Proof.
  split; [vm_compute; reflexivity|].
  split; vm_compute; reflexivity.
Qed.

(** A source file without marker lines, and a header without lines
    that match a captured name, are copied line by line. *)
Lemma scan_cxx_copies_unmarked (lines : file) :
  forall line out,
    Forall (fun l => l <> EmptyString /\ Py.startswith l marker = false)
      (line :: lines) ->
    scan_cxx (S (S (List.length lines))) line lines out
    = Some (Ok (out ++ line :: lines)%list).
Proof.
  induction lines as [|l rest IH]; intros line out H;
    inversion H as [|? ? [Hne Hm] Hrest]; subst.
  - destruct line as [|c line']; [contradiction|].
    cbn [scan_cxx List.length readline]. rewrite Hm. reflexivity.
  - destruct line as [|c line']; [contradiction|].
    cbn [List.length].
    change (scan_cxx (S (S (S (List.length rest)))) (String c line') (l :: rest) out)
      with (if Py.startswith (String c line') marker
            then match accumulate (S (S (List.length rest))) l rest EmptyString with
                 | None => None
                 | Some (acc, last, h2) =>
                     match expand_call (call_text acc last) with
                     | Ok text =>
                         let (l3, h3) := readline h2 in
                         scan_cxx (S (S (List.length rest))) l3 h3 (out ++ [text])%list
                     | SysExit msg => Some (SysExit msg)
                     | Raise e => Some (Raise e)
                     end
                 end
            else scan_cxx (S (S (List.length rest))) l rest
                   (out ++ [String c line'])%list).
    rewrite Hm, (IH l _ Hrest), <- List.app_assoc. reflexivity.
Qed.

Lemma scan_original_copies_unmatched (signatures : dict sig_entry)
  (lines : file) :
  forall line out needed,
    Forall (fun l => l <> EmptyString
                     /\ find_target (keys signatures) (strip_comment l) = None)
      (line :: lines) ->
    scan_original (S (S (List.length lines))) signatures line lines out needed
    = Some (Ok ((out ++ line :: lines)%list, needed)).
Proof.
  induction lines as [|l rest IH]; intros line out needed H;
    inversion H as [|? ? [Hne Hm] Hrest]; subst.
  - destruct line as [|c line']; [contradiction|].
    cbn [scan_original List.length readline]. rewrite Hm. reflexivity.
  - destruct line as [|c line']; [contradiction|].
    cbn [List.length].
    change (scan_original (S (S (S (List.length rest)))) signatures
              (String c line') (l :: rest) out needed)
      with (match find_target (keys signatures) (strip_comment (String c line')) with
            | Some found =>
                match dict_get signatures found with
                | None => Some (Raise KeyError)
                | Some entry =>
                    match capture_original (S (S (List.length rest))) (l :: rest)
                            (String c line') with
                    | None => None
                    | Some (_, h1) =>
                        let (l2, h2) := readline h1 in
                        scan_original (S (S (List.length rest))) signatures l2 h2
                          out (dict_set needed found entry)
                    end
                end
            | None =>
                scan_original (S (S (List.length rest))) signatures l rest
                  (out ++ [String c line'])%list needed
            end).
    rewrite Hm, (IH l _ _ Hrest), <- List.app_assoc. reflexivity.
Qed.

(** ** One pair for every name (C9) *)

Lemma keys_dict_set {V : Type} (d : dict V) (k : string) (v : V) :
  keys (dict_set d k v)
  = if in_dec string_dec k (keys d) then keys d else (keys d ++ [k])%list.
Proof.
  induction d as [|[k' v'] r IH]; simpl; [reflexivity|].
  destruct (String.eqb k k') eqn:E.
  - apply String.eqb_eq in E. subst k'. simpl.
    destruct (string_dec k k) as [Hkk|N]; [reflexivity | contradiction].
  - apply String.eqb_neq in E. simpl. rewrite IH.
    destruct (string_dec k' k) as [Heq|Hne]; [symmetry in Heq; contradiction|].
    destruct (in_dec string_dec k (keys r)); reflexivity.
Qed.

Lemma dict_set_keeps_keys_distinct {V : Type} (d : dict V) (k : string) (v : V) :
  NoDup (keys d) -> NoDup (keys (dict_set d k v)).
Proof.
  intro H. rewrite keys_dict_set.
  destruct (in_dec string_dec k (keys d)) as [Hin|N]; [exact H|].
  apply NoDup_app; [exact H | repeat constructor; intros [] |].
  intros x Hx [<- | []]. contradiction.
Qed.

Lemma scan_original_keys_distinct (fuel : nat) (signatures : dict sig_entry) :
  forall line hin out needed out' needed',
    NoDup (keys needed) ->
    scan_original fuel signatures line hin out needed
    = Some (Ok (out', needed')) ->
    NoDup (keys needed').
Proof.
  induction fuel as [|f IH]; intros line hin out needed out' needed' Hn H;
    [discriminate|].
  destruct line as [|c line']; cbn [scan_original] in H.
  - injection H as H1 H2. subst. exact Hn.
  - destruct (find_target (keys signatures) (strip_comment (String c line')))
      as [found|].
    + destruct (dict_get signatures found) as [entry|]; [|discriminate].
      destruct (capture_original f hin (String c line')) as [[sig h1]|];
        [|discriminate].
      destruct (readline h1) as [l2 h2].
      eapply IH; [|exact H]. apply dict_set_keeps_keys_distinct; exact Hn.
    + destruct (readline hin) as [l1 h1]. eapply IH; eassumption.
Qed.

Lemma emit_pairs_names (signatures : dict sig_entry) (names : list string) :
  forall ps,
    emit_pairs signatures names = Ok ps ->
    map fst ps = names
    /\ Forall (fun p =>
                 exists entry,
                   dict_get signatures (fst p) = Some entry
                   /\ rewrite_signature (fst p) (fst entry) (snd entry)
                      = Ok (snd p)) ps.
Proof.
  induction names as [|name r IH]; intros ps H; simpl in H.
  - injection H as <-. split; constructor.
  - unfold lookup in H.
    destruct (dict_get signatures name) as [entry|] eqn:G; [|discriminate].
    cbn [bind] in H.
    destruct (rewrite_signature name (fst entry) (snd entry)) as [pair| |] eqn:R;
      cbn [bind] in H; try discriminate.
    destruct (emit_pairs signatures r) as [rest| |]; cbn [bind] in H;
      try discriminate.
    injection H as <-. destruct (IH rest eq_refl) as [Hm Hf].
    split; [simpl; now rewrite Hm|].
    constructor; [|exact Hf]. exists entry. simpl. auto.
Qed.

(** ** The bound parameters (C1) *)

Lemma prefix_app (x b : string) : prefix x (x ++ b) = true.
Proof.
  induction x as [|c x IH]; simpl; [now destruct b|].
  destruct (ascii_dec c c) as [_|N]; [exact IH | contradiction].
Qed.

Lemma index_of_unfold (sub s : string) :
  Py.index_of sub s
  = if prefix sub s then Some 0
    else match s with
         | EmptyString => None
         | String _ s' => option_map S (Py.index_of sub s')
         end.
Proof. destruct s; reflexivity. Qed.

Lemma contains_app (x a b : string) : Py.contains x (a ++ x ++ b) = true.
Proof.
  unfold Py.contains.
  assert (H : exists i, Py.index_of x (a ++ x ++ b) = Some i).
  { induction a as [|c a [i IH]].
    - exists 0. rewrite index_of_unfold. simpl. now rewrite prefix_app.
    - rewrite index_of_unfold. cbn [append].
      destruct (prefix x (String c (a ++ x ++ b))).
      + exists 0. reflexivity.
      + rewrite IH. exists (S i). reflexivity. }
  destruct H as [i ->]. reflexivity.
Qed.

Lemma message_reports_name (name sig : string) :
  Py.contains name (missing_bounds_message name sig) = true.
Proof.
  change (missing_bounds_message name sig)
    with (("ERROR: function signature must have variables lo and hi defined:"
           ++ nl ++ "--- function name:" ++ nl ++ " ")
          ++ name
          ++ (" " ++ nl ++ "--- function signature:" ++ nl ++ " " ++ sig
              ++ nl ++ "---")).
  apply contains_app.
Qed.

(** Replacing a macro name by [BL_FORT_FAB_VAL_3D] never produces the
    name of a bound. *)
Lemma macro_replace_not_bound (old b x : string) :
  old <> EmptyString -> b = "lo" \/ b = "hi" ->
  Py.replace old "BL_FORT_FAB_VAL_3D" x = b -> x = b.
Proof.
  intros Hold Hb H. destruct old as [|o old']; [contradiction|].
  unfold Py.replace in H.
  destruct Hb as [-> | ->];
    (destruct x as [|x1 x]; cbn [Py.replace_go] in H; [discriminate|];
     destruct (prefix (String o old') (String x1 x)); [cbn in H; discriminate|];
     injection H as -> H;
     destruct x as [|x2 x]; cbn [Py.replace_go] in H; [discriminate|];
     destruct (prefix (String o old') (String x2 x)); [cbn in H; discriminate|];
     injection H as -> H;
     destruct x as [|x3 x]; [reflexivity|]; cbn [Py.replace_go] in H;
     destruct (prefix (String o old') (String x3 x)); cbn in H; discriminate).
Qed.

Lemma param_var_bound (tok b : string) :
  b = "lo" \/ b = "hi" -> param_var tok = b ->
  Py.strip (Py.replace "&" "" (Py.replace "*" "" tok)) = b.
Proof.
  intros Hb H. unfold param_var in H.
  apply macro_replace_not_bound in H; [|discriminate | exact Hb].
  apply macro_replace_not_bound in H; [|discriminate | exact Hb].
  exact H.
Qed.

Lemma legacy_step_flags (var : string) (st : rw_state) :
  has_lo (legacy_step var st) = has_lo st
  /\ has_hi (legacy_step var st) = has_hi st.
Proof.
  unfold legacy_step.
  destruct (String.eqb var "lo"); [split; reflexivity|].
  destruct (String.eqb var "hi"); split; reflexivity.
Qed.

Lemma bound_step_flags (var : string) (st : rw_state) :
  has_lo (bound_step var st) = (String.eqb var "lo" || has_lo st)%bool
  /\ has_hi (bound_step var st)
     = ((negb (String.eqb var "lo") && String.eqb var "hi") || has_hi st)%bool.
Proof.
  unfold bound_step.
  destruct (String.eqb var "lo"); [split; reflexivity|].
  destruct (String.eqb var "hi"); split; reflexivity.
Qed.

Lemma tagged_loop_result (args : list string) (n : nat) (ps : list nat) :
  forall var st var' st',
    tagged_loop args n ps var st = Ok (var', st') ->
    has_lo st' = has_lo st /\ has_hi st' = has_hi st
    /\ (var' = var
        \/ exists arg, In arg args /\ Py.last_item (Py.words arg) = Some var').
Proof.
  induction ps as [|p r IH]; intros var st var' st' H; simpl in H.
  - injection H as <- <-. auto.
  - destruct (Nat.eqb n p).
    + unfold item, item_last in H.
      destruct (nth_error args p) as [arg|] eqn:A; [|discriminate].
      cbn [bind] in H.
      destruct (Py.last_item (Py.words arg)) as [tok|] eqn:T; [|discriminate].
      cbn [bind] in H. apply IH in H. cbn [has_lo has_hi] in H.
      destruct H as (H1 & H2 & [-> | H3]); repeat split; try assumption.
      * right. exists arg. split; [eapply nth_error_In; exact A | exact T].
      * right. exact H3.
    + apply IH in H. exact H.
Qed.

Lemma last_token_names_bound (arg b : string) :
  b = "lo" \/ b = "hi" ->
  Py.last_item (Py.words arg) = Some b -> names_bound b arg = true.
Proof.
  intros Hb H. unfold names_bound, param_name. rewrite H.
  destruct Hb as [-> | ->]; reflexivity.
Qed.

Lemma declares_in (b arg : string) (params : list string) :
  In arg params -> names_bound b arg = true -> declares b params = true.
Proof.
  intros Hi Hn. unfold declares. apply existsb_exists. exists arg. auto.
Qed.

(** The argument list that the loop body recomputes from the signature
    is the parameter list of [decls_re]. *)
Lemma signature_inner (sig0 : string) (dd : decls_match) :
  decls_re_search sig0 = Some dd ->
  exists after,
    item (Py.split1 "(" sig0) 1 = Ok after
    /\ item (Py.rsplit1 ")" after) 0 = Ok (group3 dd).
Proof.
  intro H. destruct (decls_re_search_some _ _ H) as (post & -> & Hpre & Hpost).
  change (group1 dd ++ "(" ++ group3 dd ++ ")" ++ post)
    with (group1 dd ++ String "(" (group3 dd ++ String ")" post)).
  rewrite (split1_app _ _ _ Hpre). cbn [item nth_error].
  eexists; split; [reflexivity|].
  rewrite (rsplit1_app _ _ _ Hpost). reflexivity.
Qed.

Lemma rewrite_param_flags (sig0 : string) (tags : tag_table) (dd : decls_match)
  (n : nat) (v : string) (st st' : rw_state) :
  decls_re_search sig0 = Some dd ->
  rewrite_param sig0 tags n v st = Ok st' ->
  let params := Py.split "," (group3 dd) in
  (has_lo st' = true ->
   has_lo st = true \/ names_bound "lo" v = true \/ declares "lo" params = true)
  /\ (has_hi st' = true ->
      has_hi st = true \/ names_bound "hi" v = true \/ declares "hi" params = true).
Proof.
  intros Hdd H params. unfold rewrite_param, item_last in H.
  destruct (Py.last_item (Py.words v)) as [tok|] eqn:T; [|discriminate].
  cbn [bind] in H.
  destruct (signature_inner _ _ Hdd) as (after & -> & A2) in H.
  cbn [bind] in H. rewrite A2 in H. cbn [bind] in H.
  destruct (item tags 0) as [aps| |]; cbn [bind] in H; try discriminate.
  assert (V : forall b, b = "lo" \/ b = "hi" ->
                        param_var tok = b -> names_bound b v = true).
  { intros b Hb E. unfold names_bound, param_name. rewrite T. cbn [option_map].
    rewrite (param_var_bound tok b Hb E). apply String.eqb_refl. }
  destruct aps as [|p r].
  - injection H as <-.
    destruct (bound_step_flags (param_var tok) (legacy_step (param_var tok) st))
      as [-> ->].
    destruct (legacy_step_flags (param_var tok) st) as [-> ->].
    split; intro F; apply orb_true_iff in F; destruct F as [F | F]; auto.
    + apply String.eqb_eq in F. right; left. apply V; auto.
    + apply andb_true_iff in F. destruct F as [_ F].
      apply String.eqb_eq in F. right; left. apply V; auto.
  - destruct (tagged_loop (Py.split "," (group3 dd)) n (p :: r) (param_var tok) st)
      as [[var' st1]| |] eqn:L; cbn [bind] in H; try discriminate.
    injection H as <-. cbn [fst snd].
    destruct (bound_step_flags var' st1) as [-> ->].
    destruct (tagged_loop_result _ _ _ _ _ _ _ L) as (-> & -> & Hv).
    assert (W : forall b, b = "lo" \/ b = "hi" -> var' = b ->
                names_bound b v = true \/ declares b params = true).
    { intros b Hb E. destruct Hv as [-> | (arg & Hi & Ht)].
      - left. apply V; auto.
      - right. subst var'. eapply declares_in; [exact Hi|].
        apply last_token_names_bound; assumption. }
    split; intro F; apply orb_true_iff in F; destruct F as [F | F]; auto.
    + apply String.eqb_eq in F. right. apply W; auto.
    + apply andb_true_iff in F. destruct F as [_ F].
      apply String.eqb_eq in F. right. apply W; auto.
Qed.

Lemma rewrite_params_flags (sig0 : string) (tags : tag_table) (dd : decls_match) :
  decls_re_search sig0 = Some dd ->
  forall ps n st st',
    rewrite_params sig0 tags n ps st = Ok st' ->
    let params := Py.split "," (group3 dd) in
    (has_lo st' = true ->
     has_lo st = true \/ declares "lo" ps = true \/ declares "lo" params = true)
    /\ (has_hi st' = true ->
        has_hi st = true \/ declares "hi" ps = true \/ declares "hi" params = true).
Proof.
  intros Hdd ps. induction ps as [|v r IH]; intros n st st' H params; simpl in H.
  - injection H as <-. auto.
  - destruct (rewrite_param sig0 tags n v st) as [st1| |] eqn:P;
      cbn [bind] in H; try discriminate.
    destruct (rewrite_param_flags _ _ _ _ _ _ _ Hdd P) as [P1 P2].
    destruct (IH _ _ _ H) as [I1 I2].
    unfold declares in *. cbn [existsb].
    split; intro F.
    + destruct (I1 F) as [G | [G | G]]; auto.
      * destruct (P1 G) as [K | [K | K]]; auto.
        right; left. rewrite K. reflexivity.
      * right; left. rewrite G. apply orb_true_r.
    + destruct (I2 F) as [G | [G | G]]; auto.
      * destruct (P2 G) as [K | [K | K]]; auto.
        right; left. rewrite K. reflexivity.
      * right; left. rewrite G. apply orb_true_r.
Qed.

Lemma tagged_loop_ok (args : list string) (n : nat) (v : string) :
  nth_error args n = Some v -> Py.words v <> [] ->
  forall ps var st, exists r, tagged_loop args n ps var st = Ok r.
Proof.
  intros Hn Hw ps. induction ps as [|p r IH]; intros var st; simpl.
  - eexists; reflexivity.
  - destruct (Nat.eqb n p) eqn:E; [|apply IH].
    apply Nat.eqb_eq in E. subst p. unfold item, item_last. rewrite Hn.
    cbn [bind]. destruct (Py.words v) as [|w ws] eqn:W; [contradiction|].
    cbn [Py.last_item bind]. apply IH.
Qed.

Lemma rewrite_param_ok (sig0 : string) (tags : tag_table) (dd : decls_match)
  (n : nat) (v : string) (st : rw_state) :
  decls_re_search sig0 = Some dd -> tags <> [] -> Py.words v <> [] ->
  nth_error (Py.split "," (group3 dd)) n = Some v ->
  exists st', rewrite_param sig0 tags n v st = Ok st'.
Proof.
  intros Hdd Ht Hw Hn. unfold rewrite_param, item_last.
  destruct (Py.words v) as [|w ws] eqn:W; [contradiction|].
  cbn [Py.last_item bind].
  destruct (signature_inner _ _ Hdd) as (after & A1 & A2).
  rewrite A1. cbn [bind]. rewrite A2. cbn [bind].
  destruct tags as [|aps tags']; [contradiction|]. cbn [item nth_error bind].
  destruct aps as [|p r]; [eexists; reflexivity|].
  assert (Hw' : Py.words v <> []) by (rewrite W; discriminate).
  destruct (tagged_loop_ok _ _ _ Hn Hw' (p :: r)
              (param_var (List.last ws w)) st) as [res ->].
  cbn [bind]. eexists; reflexivity.
Qed.

Lemma rewrite_params_ok (sig0 : string) (tags : tag_table) (dd : decls_match) :
  decls_re_search sig0 = Some dd -> tags <> [] ->
  forall ps done st,
    Py.split "," (group3 dd) = (done ++ ps)%list ->
    Forall (fun v => Py.words v <> []) ps ->
    exists st', rewrite_params sig0 tags (List.length done) ps st = Ok st'.
Proof.
  intros Hdd Ht ps. induction ps as [|v r IH]; intros done st Hs Hf; simpl.
  - eexists; reflexivity.
  - inversion Hf as [|? ? Hv Hr]; subst.
    destruct (rewrite_param_ok sig0 tags dd (List.length done) v st Hdd Ht Hv)
      as [st1 ->].
    { rewrite Hs, nth_error_app2, Nat.sub_diag by lia. reflexivity. }
    cbn [bind].
    replace (S (List.length done)) with (List.length (done ++ [v])%list)
      by (rewrite length_app; simpl; lia).
    apply IH; [|exact Hr]. rewrite <- List.app_assoc. exact Hs.
Qed.

(** C1, as stated, fails: for a declaration with an empty parameter
    list the bounds are missing, but the run ends in an uncaught
    [IndexError] (the last token of an empty parameter) and not in the
    fatal exit that reports the name. *)
Lemma empty_parameter_raises_index_error :
  decls_re_search ("void foo();" ++ nl)
  = Some {| group1 := "void foo"; group3 := EmptyString |}
  /\ declares "lo" (Py.split "," EmptyString) = false
  /\ declares "hi" (Py.split "," EmptyString) = false
  /\ rewrite_signature "foo" ("void foo();" ++ nl) [[]] = Raise IndexError
  /\ forall msg,
       rewrite_signature "foo" ("void foo();" ++ nl) [[]] <> SysExit msg.
Proof.
  repeat split; try reflexivity.
  intro msg. vm_compute. discriminate.
Qed.

(** C1 (amended): for a captured declaration with a parenthesised
    parameter list, rewriting succeeds only if the list has a parameter
    named [lo] and one named [hi]; and when every parameter has at
    least one token (the assumption the code comments on) and the tag
    table has an entry, a missing bound ends the run in the fatal exit
    whose message reports the target name. *)
Theorem bounds_required
  (name sig0 : string) (tags : tag_table) (dd : decls_match) :
  decls_re_search sig0 = Some dd ->
  let params := Py.split "," (group3 dd) in
  ((exists pair, rewrite_signature name sig0 tags = Ok pair) ->
   declares "lo" params = true /\ declares "hi" params = true)
  /\ (tags <> [] ->
      Forall (fun v => Py.words v <> []) params ->
      (declares "lo" params && declares "hi" params)%bool = false ->
      exists sig',
        rewrite_signature name sig0 tags
        = SysExit (missing_bounds_message name sig')
        /\ Py.contains name (missing_bounds_message name sig') = true).
Proof.
  intros Hdd params. unfold rewrite_signature. rewrite Hdd. fold params.
  set (st0 := {| func_sig := sig0; device_sig := device_sig_start sig0 name;
                 has_lo := false; has_hi := false;
                 vars := []; intvect_vars := [] |}).
  assert (Sound : forall st,
            rewrite_params sig0 tags 0 params st0 = Ok st ->
            (has_lo st = true -> declares "lo" params = true)
            /\ (has_hi st = true -> declares "hi" params = true)).
  { intros st R. destruct (rewrite_params_flags _ tags _ Hdd _ _ _ _ R) as [L H].
    split; intro F.
    - destruct (L F) as [G | [G | G]];
        [unfold st0 in G; discriminate | exact G | exact G].
    - destruct (H F) as [G | [G | G]];
        [unfold st0 in G; discriminate | exact G | exact G]. }
  split.
  - intros [pair E].
    destruct (rewrite_params sig0 tags 0 params st0) as [st| |] eqn:R;
      cbn [bind] in E; try discriminate.
    destruct (Sound st eq_refl) as [L H].
    destruct (has_lo st); [|simpl in E; discriminate].
    destruct (has_hi st); [|simpl in E; discriminate]. auto.
  - intros Ht Hf Hmiss.
    destruct (rewrite_params_ok sig0 tags dd Hdd Ht params [] st0 eq_refl Hf)
      as [st R].
    cbn [List.length] in R. rewrite R. cbn [bind].
    destruct (Sound st R) as [L H]. exists (func_sig st).
    split; [|apply message_reports_name].
    destruct (has_lo st); [rewrite (L eq_refl) in Hmiss|reflexivity].
    destruct (has_hi st); [rewrite (H eq_refl) in Hmiss; discriminate|reflexivity].
Qed.

Lemma bounds_required_witness :
  exists sig',
    rewrite_signature "baz" ("void baz(const int* lo, Real* a);" ++ nl) [[]]
    = SysExit (missing_bounds_message "baz" sig')
    /\ Py.contains "baz" (missing_bounds_message "baz" sig') = true.
Proof.
  refine (proj2 (bounds_required "baz" ("void baz(const int* lo, Real* a);" ++ nl)
                   [[]] {| group1 := "void baz"; group3 := "const int* lo, Real* a" |}
                   eq_refl) _ _ eq_refl).
  - discriminate.
  - repeat constructor; discriminate.
Defined.

(** ** Which lines start a captured declaration (C5) *)

Lemma span_app (p : ascii -> bool) (s : string) :
  fst (span p s) ++ snd (span p s) = s.
Proof.
  induction s as [|c s IH]; simpl; [reflexivity|].
  destruct (p c); [|reflexivity].
  destruct (span p s) as [a b]. simpl in *. now rewrite IH.
Qed.

Lemma span_all (p : ascii -> bool) (s : string) :
  all_chars p (fst (span p s)) = true.
Proof.
  induction s as [|c s IH]; simpl; [reflexivity|].
  destruct (p c) eqn:E; [|reflexivity].
  destruct (span p s) as [a b]. simpl in *. now rewrite E, IH.
Qed.

Lemma span_stops (p : ascii -> bool) (s : string) :
  match snd (span p s) with
  | EmptyString => True
  | String c _ => p c = false
  end.
Proof.
  induction s as [|c s IH]; simpl; [exact I|].
  destruct (p c) eqn:E; [|exact E].
  destruct (span p s) as [a b]. exact IH.
Qed.

Lemma span_exact (p : ascii -> bool) (a b : string) :
  all_chars p a = true ->
  match b with EmptyString => True | String c _ => p c = false end ->
  span p (a ++ b) = (a, b).
Proof.
  intros Ha Hb. induction a as [|c a IH]; simpl in *.
  - destruct b as [|c b]; [reflexivity|]. simpl. now rewrite Hb.
  - apply andb_true_iff in Ha. destruct Ha as [Hc Ha].
    rewrite Hc, (IH Ha). reflexivity.
Qed.

Lemma take_drop (n : nat) (s : string) : Py.take n s ++ Py.drop n s = s.
Proof.
  revert s; induction n as [|n IH]; intros [|c s]; simpl; try reflexivity.
  now rewrite IH.
Qed.

Lemma length_lower (s : string) : String.length (Py.lower s) = String.length s.
Proof. induction s as [|c s IH]; simpl; [reflexivity | now rewrite IH]. Qed.

Lemma letter_not_space (c : ascii) : is_letter c = true -> Py.is_space c = false.
Proof.
  destruct c as [[] [] [] [] [] [] [] []]; intro H;
    solve [reflexivity | vm_compute in H; discriminate].
Qed.

Lemma letter_is_name_char (c : ascii) : is_letter c = true -> is_name_char c = true.
Proof. intro H. unfold is_name_char. now rewrite H. Qed.

Lemma binding_match_at_spec (s nm : string) :
  binding_match_at s = Some nm <-> binding_at s nm.
Proof.
  unfold binding_match_at, binding_at. split.
  - intro H.
    destruct (String.eqb (Py.lower (Py.take 4 s)) "void") eqn:K; [|discriminate].
    apply String.eqb_eq in K.
    pose proof (span_app Py.is_space (Py.drop 4 s)) as A1.
    pose proof (span_all Py.is_space (Py.drop 4 s)) as A2.
    destruct (span Py.is_space (Py.drop 4 s)) as [ws r]. cbn [fst snd] in *.
    destruct ws as [|w ws]; [discriminate|].
    destruct r as [|c r]; [discriminate|].
    destruct (is_letter c) eqn:L; [|discriminate].
    pose proof (span_app is_name_char r) as B1.
    pose proof (span_all is_name_char r) as B2.
    pose proof (span_stops is_name_char r) as B3.
    destruct (span is_name_char r) as [run rest]. cbn [fst snd] in *.
    destruct run as [|d run]; [discriminate|].
    injection H as <-.
    exists (Py.take 4 s), (String w ws), rest.
    split; [|split; [exact K|split; [|split]]].
    + rewrite <- (take_drop 4 s) at 1. f_equal. rewrite <- A1.
      f_equal. cbn [append]. f_equal. rewrite <- B1. reflexivity.
    + split; [discriminate | exact A2].
    + exists c, d, run. auto.
    + exact B3.
  - intros (kw & ws & rest & -> & K & [W1 W2] & (c & d & r & -> & L & N) & R).
    assert (Len : String.length kw = 4)
      by (rewrite <- length_lower, K; reflexivity).
    rewrite <- Len at 1. rewrite take_app, K. cbn [String.eqb Ascii.eqb Bool.eqb].
    rewrite <- Len, drop_app.
    rewrite (span_exact Py.is_space ws) ; [|exact W2|].
    2:{ cbn [append]. apply letter_not_space; exact L. }
    destruct ws as [|w ws]; [contradiction|].
    cbn [append]. rewrite L.
    change (String d (r ++ rest)) with (String d r ++ rest).
    rewrite (span_exact is_name_char (String d r) rest N R). reflexivity.
Qed.

Lemma search_unfold (s : string) :
  fortran_binding_re_search s
  = match binding_match_at s with
    | Some g => Some g
    | None =>
        match s with
        | EmptyString => None
        | String _ s' => fortran_binding_re_search s'
        end
    end.
Proof. destruct s; reflexivity. Qed.

Lemma search_spec (s nm : string) :
  fortran_binding_re_search s = Some nm
  <-> exists pre rest,
        s = pre ++ rest /\ binding_at rest nm /\ no_match_inside pre rest.
Proof.
  split.
  - revert nm. induction s as [|c s IH]; intros nm H; rewrite search_unfold in H.
    + destruct (binding_match_at EmptyString) as [g|] eqn:M; [|discriminate].
      injection H as ->. exists EmptyString, EmptyString.
      split; [reflexivity|]. split; [apply binding_match_at_spec; exact M|].
      intros p1 p2 nm' E N. destruct p2; [contradiction|].
      destruct p1; discriminate.
    + destruct (binding_match_at (String c s)) as [g|] eqn:M.
      * injection H as ->. exists EmptyString, (String c s).
        split; [reflexivity|]. split; [apply binding_match_at_spec; exact M|].
        intros p1 p2 nm' E N. destruct p2; [contradiction|].
        destruct p1; discriminate.
      * destruct (IH nm H) as (pre & rest & -> & B & N).
        exists (String c pre), rest. split; [reflexivity|]. split; [exact B|].
        intros p1 p2 nm' E Hp2 Hb. destruct p1 as [|x p1]; simpl in E.
        -- subst p2. apply binding_match_at_spec in Hb.
           cbn [append] in Hb. congruence.
        -- injection E as _ E. exact (N p1 p2 nm' E Hp2 Hb).
  - intros (pre & rest & -> & B & N). induction pre as [|c pre IH].
    + simpl. rewrite search_unfold.
      apply binding_match_at_spec in B. now rewrite B.
    + rewrite search_unfold.
      destruct (binding_match_at (String c pre ++ rest)) as [g|] eqn:M.
      * exfalso. apply binding_match_at_spec in M.
        exact (N EmptyString (String c pre) g eq_refl ltac:(discriminate) M).
      * cbn [append]. apply IH.
        intros p1 p2 nm' E Hp2. apply (N (String c p1) p2 nm'); [|exact Hp2].
        simpl. now rewrite E.
Qed.

Lemma find_target_spec (names : list string) (tline found : string) :
  find_target names tline = Some found
  <-> In found names
      /\ fortran_binding_re_search (Py.lower tline) = Some found.
Proof.
  split.
  - intro H. split; [eapply find_target_in | eapply find_target_matches];
      exact H.
  - intros [Hi Hs]. unfold find_target. rewrite Hs.
    induction names as [|t r IH]; [contradiction|]. simpl.
    destruct (String.eqb t found) eqn:E.
    + apply String.eqb_eq in E. now subst.
    + destruct Hi as [-> | Hi]; [rewrite String.eqb_refl in E; discriminate|].
      apply IH; exact Hi.
Qed.

Lemma take_all (n : nat) (s : string) :
  String.length s <= n -> Py.take n s = s.
Proof.
  revert s; induction n as [|n IH]; intros [|c s] H; simpl in *;
    try reflexivity; try lia.
  rewrite IH by lia. reflexivity.
Qed.

Lemma take_min (n : nat) (s : string) :
  Py.take (Nat.min n (String.length s)) s = Py.take n s.
Proof.
  destruct (Nat.le_ge_cases n (String.length s)) as [H | H].
  - now rewrite Nat.min_l.
  - rewrite Nat.min_r by exact H. now rewrite !take_all by lia.
Qed.

Lemma drop_0 (s : string) : Py.drop 0 s = s.
Proof. now destruct s. Qed.

(** A line with a comment is cut at the first [//]. *)
Lemma strip_comment_at_comment (line : string) (i : nat) :
  Py.index_of "//" line = Some i -> strip_comment line = Py.take i line.
Proof.
  intro H. unfold strip_comment, Py.find, Py.slice, Py.norm_bound. rewrite H.
  assert ((Z.of_nat i <? 0)%Z = false) as -> by (apply Z.ltb_ge; lia).
  rewrite Nat2Z.id, Nat.sub_0_r, drop_0. apply take_min.
Qed.

(** A line without a comment, ended by a line feed, loses the line feed. *)
Lemma strip_comment_at_newline (body : string) :
  Py.index_of "//" (body ++ nl) = None -> strip_comment (body ++ nl) = body.
Proof.
  intro H. unfold strip_comment, Py.find, Py.slice, Py.norm_bound. rewrite H.
  cbn [Z.ltb Z.compare]. rewrite Nat.sub_0_r, drop_0, length_app_s.
  replace (Z.to_nat (Z.max 0 (-1 + Z.of_nat (String.length body + String.length nl))))
    with (String.length body) by (simpl String.length; lia).
  apply take_app.
Qed.

(** C5, as stated, fails in both scans: the pattern of the code has no
    opening parenthesis in it and knows one type only, [void].  A line
    [void foo] without any parenthesis starts a capture; the line
    [int foo(int* lo);], a type and the name before a parenthesis, does
    not. *)
Lemma capture_needs_no_parenthesis :
  find_target ["foo"] (strip_comment ("void foo" ++ nl)) = Some "foo"
  /\ Py.contains "(" ("void foo" ++ nl) = false
  /\ find_target ["foo"] (strip_comment ("int foo(int* lo);" ++ nl)) = None
  /\ scan_expanded 5 [("foo", [[]])] ("void foo" ++ nl) [";" ++ nl] []
     = Some (Ok [("foo", ("void foo" ++ nl ++ ";" ++ nl, [[]]))])
  /\ scan_expanded 5 [("foo", [[]])] ("int foo(int* lo);" ++ nl) [] []
     = Some (Ok []).
Proof. repeat split; reflexivity. Qed.

Lemma line_matches_found (names : list string) (line found : string) :
  line_matches names line found
  <-> find_target names (strip_comment line) = Some found.
Proof.
  unfold line_matches. rewrite find_target_spec, search_spec. reflexivity.
Qed.

Lemma line_matches_none (names : list string) (line : string) :
  (forall found, ~ line_matches names line found) ->
  find_target names (strip_comment line) = None.
Proof.
  intro H. destruct (find_target names (strip_comment line)) as [found|] eqn:F;
    [|reflexivity].
  apply line_matches_found in F. destruct (H found F).
Qed.

(** C5 (amended): a line with a comment is matched on its text before
    the first [//], a line without a comment on its text before the
    line feed.  A line that a scan examines -- one that the capture of
    an earlier declaration has not read -- starts a captured
    declaration if and only if the leftmost place of that text,
    lowercased, where the word void, one or more whitespace characters
    and a letter followed by name characters stand in a row, carries
    there the whole run of name characters equal to one of the names
    searched for: in the scan of the preprocessed header the pending
    targets, in the scan of the original header the names that the
    first scan has recorded.  Then the scan captures from that line on,
    records the capture under that name and goes on behind the
    captured lines; otherwise it passes the line over (the second scan
    copies it) and records nothing. *)
Theorem declaration_line_matched :
  (forall line i,
     Py.index_of "//" line = Some i -> strip_comment line = Py.take i line)
  /\ (forall body,
        Py.index_of "//" (body ++ nl) = None ->
        strip_comment (body ++ nl) = body)
  /\ (forall f targets line hin signatures,
        line <> EmptyString ->
        (forall found,
           line_matches (keys targets) line found ->
           exists tags,
             dict_get targets found = Some tags
             /\ scan_expanded (S f) targets line hin signatures
                = match accumulate f line hin EmptyString with
                  | Some (acc, last, h1) =>
                      scan_expanded f targets (fst (readline h1))
                        (snd (readline h1))
                        (dict_set signatures found (acc ++ last, tags))
                  | None => None
                  end)
        /\ ((forall found, ~ line_matches (keys targets) line found) ->
            scan_expanded (S f) targets line hin signatures
            = scan_expanded f targets (fst (readline hin))
                (snd (readline hin)) signatures))
  /\ (forall f signatures line hin out needed,
        line <> EmptyString ->
        (forall found,
           line_matches (keys signatures) line found ->
           exists entry,
             dict_get signatures found = Some entry
             /\ scan_original (S f) signatures line hin out needed
                = match capture_original f hin line with
                  | Some (_, h1) =>
                      scan_original f signatures (fst (readline h1))
                        (snd (readline h1)) out
                        (dict_set needed found entry)
                  | None => None
                  end)
        /\ ((forall found, ~ line_matches (keys signatures) line found) ->
            scan_original (S f) signatures line hin out needed
            = scan_original f signatures (fst (readline hin))
                (snd (readline hin)) (out ++ [line])%list needed)).
Proof.
  split; [exact strip_comment_at_comment|].
  split; [exact strip_comment_at_newline|].
  split.
  - intros f targets line hin signatures Hne.
    destruct line as [|c line']; [contradiction|]. split.
    + intros found M. pose proof M as [Hin _].
      apply line_matches_found in M.
      destruct (dict_get_in targets found Hin) as [tags Ht].
      exists tags. split; [exact Ht|].
      cbn [scan_expanded]. rewrite M.
      destruct (accumulate f (String c line') hin EmptyString)
        as [[[acc last] h1]|]; [|reflexivity].
      rewrite Ht. destruct (readline h1); reflexivity.
    + intro N. cbn [scan_expanded]. rewrite (line_matches_none _ _ N).
      destruct (readline hin); reflexivity.
  - intros f signatures line hin out needed Hne.
    destruct line as [|c line']; [contradiction|]. split.
    + intros found M. pose proof M as [Hin _].
      apply line_matches_found in M.
      destruct (dict_get_in signatures found Hin) as [entry He].
      exists entry. split; [exact He|].
      cbn [scan_original]. rewrite M, He.
      destruct (capture_original f hin (String c line')) as [[sig h1]|];
        [|reflexivity].
      destruct (readline h1); reflexivity.
    + intro N. cbn [scan_original]. rewrite (line_matches_none _ _ N).
      destruct (readline hin); reflexivity.
Qed.

Lemma declaration_line_matched_witness :
  strip_comment ("  void Foo (const int* lo, // bounds" ++ nl)
  = "  void Foo (const int* lo, "
  /\ scan_expanded 4 [("bar", [[]]); ("foo", [[0]])]
       ("  void Foo (const int* lo, // bounds" ++ nl)
       [ "            const int* hi);" ++ nl; "int z;" ++ nl ] []
     = Some (Ok [("foo", ("  void Foo (const int* lo, // bounds" ++ nl
                          ++ "            const int* hi);" ++ nl, [[0]]))])
  /\ scan_original 3 [] ("void foo(const int* lo);" ++ nl) [] [] []
     = Some (Ok (["void foo(const int* lo);" ++ nl], [])).
Proof.
  destruct declaration_line_matched as (Hc & _ & He & Ho).
  split; [|split].
  - exact (Hc ("  void Foo (const int* lo, // bounds" ++ nl) 27 eq_refl).
  - destruct (He 3 [("bar", [[]]); ("foo", [[0]])]
                ("  void Foo (const int* lo, // bounds" ++ nl)
                [ "            const int* hi);" ++ nl; "int z;" ++ nl ] []
                ltac:(discriminate)) as [Hm _].
    destruct (Hm "foo") as (tags & Ht & Hs).
    + split; [right; left; reflexivity|].
      exists "  ", "void foo (const int* lo, ".
      split; [reflexivity|]. split.
      * exists "void", " ", " (const int* lo, ".
        split; [reflexivity|]. split; [reflexivity|].
        split; [split; [discriminate | reflexivity]|].
        split; [|reflexivity].
        exists "f"%char, "o"%char, "o". repeat split; reflexivity.
      * intros p1 p2 nm E N B. apply binding_match_at_spec in B.
        destruct p1 as [|a [|b [|c p1]]]; simpl in E.
        -- subst p2. discriminate.
        -- injection E as _ <-. discriminate.
        -- injection E as _ _ <-. contradiction.
        -- destruct p1; discriminate.
    + injection Ht as <-. rewrite Hs. reflexivity.
  - destruct (Ho 2 [] ("void foo(const int* lo);" ++ nl) [] [] []
                ltac:(discriminate)) as [_ Hn].
    rewrite Hn; [reflexivity|]. intros found [[] _].
Defined.

(** ** Occurrences after a replacement (towards C3) *)

Lemma contains_unfold (q s : string) :
  Py.contains q s
  = (prefix q s
     || match s with
        | EmptyString => false
        | String _ s' => Py.contains q s'
        end)%bool.
Proof.
  unfold Py.contains. rewrite index_of_unfold.
  destruct (prefix q s); [reflexivity|]. simpl.
  destruct s as [|c s]; [reflexivity|].
  destruct (Py.index_of q s); reflexivity.
Qed.

Lemma prefix_nil_r (q : string) : prefix q EmptyString = true -> q = EmptyString.
Proof. destruct q; [reflexivity | discriminate]. Qed.

Lemma prefix_cons (a b : ascii) (q s : string) :
  prefix (String a q) (String b s) = (Ascii.eqb a b && prefix q s)%bool.
Proof.
  simpl. destruct (ascii_dec a b) as [->|N].
  - now rewrite Ascii.eqb_refl.
  - apply Ascii.eqb_neq in N. now rewrite N.
Qed.

Lemma prefix_decompose (q s : string) :
  prefix q s = true -> s = q ++ Py.drop (String.length q) s.
Proof.
  revert s; induction q as [|a q IH]; intros s H.
  - reflexivity.
  - destruct s as [|b s]; [discriminate|]. rewrite prefix_cons in H.
    apply andb_true_iff in H. destruct H as [E H].
    apply Ascii.eqb_eq in E. subst b. simpl. f_equal. apply IH; exact H.
Qed.

Lemma prefix_length (q s : string) :
  prefix q s = true -> String.length q <= String.length s.
Proof.
  intro H. rewrite (prefix_decompose _ _ H) at 1. rewrite length_app_s. lia.
Qed.

Lemma length_drop (k : nat) (s : string) :
  String.length (Py.drop k s) = String.length s - k.
Proof.
  revert s; induction k as [|k IH]; intros [|c s]; simpl; try reflexivity.
  apply IH.
Qed.

(** The skip counter steps over the replaced occurrence. *)
Lemma replace_go_skip (old new : string) (k : nat) (s : string) :
  Py.replace_go old new k s = Py.replace_go old new 0 (Py.drop k s).
Proof.
  revert s; induction k as [|k IH]; intros [|c s]; try reflexivity.
  simpl Py.drop. rewrite <- IH. reflexivity.
Qed.

Lemma replace_go_unfold (old new : string) (c : ascii) (s : string) :
  Py.replace_go old new 0 (String c s)
  = if prefix old (String c s)
    then new ++ Py.replace_go old new 0 (Py.drop (String.length old - 1) s)
    else String c (Py.replace_go old new 0 s).
Proof.
  cbn [Py.replace_go]. destruct (prefix old (String c s)); [|reflexivity].
  now rewrite replace_go_skip.
Qed.

(** [q] may be a prefix of [r] followed by something only if one of
    [q], [r] is a prefix of the other. *)
Lemma prefix_of_app (q r x : string) :
  prefix q (r ++ x) = true -> prefix q r = true \/ prefix r q = true.
Proof.
  revert r; induction q as [|a q IH]; intros r H.
  - left. now destruct r.
  - destruct r as [|b r]; [right; reflexivity|].
    cbn [append] in H. rewrite prefix_cons in *.
    apply andb_true_iff in H. destruct H as [E H]. rewrite E. cbn [andb].
    destruct (IH r H) as [K | K]; [left; exact K | right].
    rewrite prefix_cons. apply Ascii.eqb_eq in E. subst b.
    now rewrite Ascii.eqb_refl.
Qed.

Lemma contains_after_clashless (q r x : string) :
  no_clash q r = true -> Py.contains q (r ++ x) = Py.contains q x.
Proof.
  induction r as [|b r IH]; intro H; [reflexivity|].
  cbn [no_clash] in H. apply andb_true_iff in H. destruct H as [N H].
  rewrite contains_unfold. cbn [append].
  destruct (prefix q (String b (r ++ x))) eqn:P.
  - exfalso. change (String b (r ++ x)) with (String b r ++ x) in P.
    apply prefix_of_app in P. apply negb_true_iff, orb_false_iff in N.
    destruct N, P; congruence.
  - cbn [orb]. apply IH; exact H.
Qed.

Lemma drop_tail (j : nat) (q : string) (h : ascii) (t : string) :
  Py.drop j q = String h t -> Py.drop (S j) q = t.
Proof.
  revert q; induction j as [|j IH]; intros q H.
  - destruct q as [|a q]; [discriminate|]. simpl in H. injection H as _ <-.
    now destruct q.
  - destruct q as [|a q]; [discriminate|]. simpl in H. exact (IH q H).
Qed.

Lemma drop_head_mem (j : nat) (q : string) (h : ascii) (t : string) :
  Py.drop j q = String h t -> Py.mem_char h q = true.
Proof.
  revert q; induction j as [|j IH]; intros q H.
  - destruct q as [|a q]; [discriminate|]. simpl in H. injection H as -> _.
    simpl. now rewrite Ascii.eqb_refl.
  - destruct q as [|a q]; [discriminate|]. simpl in H.
    simpl. rewrite (IH q H). apply orb_true_r.
Qed.

Lemma drop_drop (i k : nat) (s : string) :
  Py.drop i (Py.drop k s) = Py.drop (k + i) s.
Proof.
  revert s; induction k as [|k IH]; intros s; [reflexivity|].
  destruct s as [|c s]; [now destruct i|]. simpl. apply IH.
Qed.

Section Replacement.

(** [P] is replaced by [r0 Rt]; the occurrences of [q0 Qt] are watched. *)
Variables (P Rt Qt : string) (r0 q0 : ascii).
Let R := String r0 Rt.
Let Q := String q0 Qt.
Hypothesis clashless : no_clash Q R = true.
Hypothesis head_apart : Py.mem_char r0 Qt = false.

(** A suffix of [Q] that starts the output at a scan position starts
    the input there as well. *)
Lemma replaced_prefix_is_old (n : nat) :
  forall s j,
    String.length s <= n ->
    prefix (Py.drop j Q) (Py.replace_go P R 0 s) = true ->
    prefix (Py.drop j Q) s = true.
Proof.
  induction n as [|n IH]; intros s j L H.
  - destruct s; [exact H | simpl in L; lia].
  - destruct s as [|c s]; [exact H|]. simpl in L.
    rewrite replace_go_unfold in H.
    destruct (Py.drop j Q) as [|h t] eqn:D; [reflexivity|].
    destruct (prefix P (String c s)).
    + exfalso. destruct j as [|j].
      * simpl in D. rewrite <- D in H. apply prefix_of_app in H.
        unfold R in clashless. cbn [no_clash] in clashless.
        apply andb_true_iff in clashless. destruct clashless as [N _].
        apply negb_true_iff, orb_false_iff in N.
        unfold Q, R in *. destruct N, H; congruence.
      * unfold R in H. cbn [append] in H. rewrite prefix_cons in H.
        apply andb_true_iff in H. destruct H as [E _].
        apply Ascii.eqb_eq in E. subst h.
        unfold Q in D. simpl in D. apply drop_head_mem in D. congruence.
    + rewrite prefix_cons in *. apply andb_true_iff in H. destruct H as [E H].
      rewrite E. cbn [andb]. rewrite <- (drop_tail _ _ _ _ D) in *.
      apply IH; [lia | exact H].
Qed.

(** If every occurrence of [Q] in the input is an occurrence of [P],
    the output has no occurrence of [Q]. *)
Lemma replaced_has_no_occurrence (n : nat) :
  forall s,
    String.length s <= n ->
    (forall i, prefix Q (Py.drop i s) = true -> prefix P (Py.drop i s) = true) ->
    Py.contains Q (Py.replace_go P R 0 s) = false.
Proof.
  induction n as [|n IH]; intros s L H.
  - destruct s; [reflexivity | simpl in L; lia].
  - destruct s as [|c s]; [reflexivity|]. simpl in L.
    pose proof (replaced_prefix_is_old (S n) (String c s) 0
                  ltac:(simpl; lia)) as PF.
    rewrite replace_go_unfold in *.
    destruct (prefix P (String c s)) eqn:M.
    + rewrite (contains_after_clashless _ _ _ clashless).
      apply IH; [rewrite length_drop; lia|].
      intros i. rewrite drop_drop.
      exact (H (S (String.length P - 1 + i))).
    + rewrite contains_unfold.
      destruct (prefix Q (String c (Py.replace_go P R 0 s))) eqn:E.
      * specialize (PF E). specialize (H 0 PF). cbn [Py.drop] in H. congruence.
      * cbn [orb]. apply IH; [lia|]. intro i. exact (H (S i)).
Qed.

End Replacement.

(** *** Replacing in front of a separator that the pattern lacks *)

Lemma prefix_nil_l (s : string) : prefix EmptyString s = true.
Proof. now destruct s. Qed.

Lemma prefix_before_sep (c : ascii) (t : string) :
  forall p x, no_char c p -> prefix p (x ++ String c t) = prefix p x.
Proof.
  intros p x; revert p; induction x as [|b x IH]; intros p H.
  - destruct p as [|a p]; [reflexivity|].
    apply no_char_cons in H. destruct H as [E _].
    cbn [append]. rewrite prefix_cons, E. reflexivity.
  - destruct p as [|a p]; [reflexivity|].
    apply no_char_cons in H. destruct H as [_ H].
    cbn [append]. rewrite !prefix_cons, (IH p H). reflexivity.
Qed.

Lemma drop_app_le (k : nat) (x y : string) :
  k <= String.length x -> Py.drop k (x ++ y) = Py.drop k x ++ y.
Proof.
  revert x; induction k as [|k IH]; intros x H.
  - now rewrite !drop_0.
  - destruct x as [|a x]; [simpl in H; lia|]. simpl. apply IH.
    simpl in H. lia.
Qed.

Lemma replace_go_before_sep (p r : string) (c : ascii) (t : string) (n : nat) :
  p <> EmptyString -> no_char c p ->
  forall x,
    String.length x <= n ->
    Py.replace_go p r 0 (x ++ String c t)
    = Py.replace_go p r 0 x ++ String c (Py.replace_go p r 0 t).
Proof.
  intros Hp Hc. induction n as [|n IH]; intros x L.
  - destruct x; [|simpl in L; lia]. cbn [append].
    rewrite replace_go_unfold.
    destruct p as [|a p]; [contradiction|].
    apply no_char_cons in Hc. destruct Hc as [E _].
    rewrite prefix_cons, E. reflexivity.
  - destruct x as [|b x]; [apply (IH EmptyString); simpl; lia|].
    simpl in L. cbn [append]. rewrite !replace_go_unfold.
    change (String b (x ++ String c t)) with (String b x ++ String c t).
    rewrite (prefix_before_sep c t p (String b x) Hc).
    destruct (prefix p (String b x)) eqn:M.
    + apply prefix_length in M. simpl in M.
      rewrite drop_app_le by lia.
      rewrite IH by (rewrite length_drop; lia).
      now rewrite app_assoc_s.
    + cbn [append]. rewrite IH by lia. reflexivity.
Qed.

Lemma replace_go_spaces (a : ascii) (p r t : string) :
  Py.is_space a = false -> all_chars Py.is_space t = true ->
  Py.replace_go (String a p) r 0 t = t.
Proof.
  intros Ha. induction t as [|w t IH]; intro H; [reflexivity|].
  simpl in H. apply andb_true_iff in H. destruct H as [Hw H].
  rewrite replace_go_unfold, prefix_cons.
  destruct (Ascii.eqb a w) eqn:E.
  - apply Ascii.eqb_eq in E. subst. congruence.
  - cbn [andb]. now rewrite IH.
Qed.

Lemma option_map_S_none (o : option nat) : option_map S o = None <-> o = None.
Proof. destruct o; simpl; split; congruence. Qed.

Lemma no_char_app (c : ascii) (a b : string) :
  no_char c (a ++ b) <-> no_char c a /\ no_char c b.
Proof.
  unfold no_char. induction a as [|x a IH]; simpl.
  - tauto.
  - destruct (Ascii.eqb x c).
    + split; [discriminate | intros [H _]; discriminate].
    + rewrite !option_map_S_none. exact IH.
Qed.

Lemma no_char_drop (c : ascii) (k : nat) (s : string) :
  no_char c s -> no_char c (Py.drop k s).
Proof.
  intro H. rewrite <- (take_drop k s) in H. apply no_char_app in H. tauto.
Qed.

Lemma replace_go_no_char (c : ascii) (p r : string) (n : nat) :
  no_char c r ->
  forall x,
    String.length x <= n -> no_char c x -> no_char c (Py.replace_go p r 0 x).
Proof.
  intro Hr. induction n as [|n IH]; intros x L H.
  - destruct x; [reflexivity | simpl in L; lia].
  - destruct x as [|b x]; [reflexivity|]. simpl in L.
    rewrite replace_go_unfold. pose proof (no_char_cons _ _ _ H) as [E Hx].
    destruct (prefix p (String b x)).
    + apply no_char_app. split; [exact Hr|].
      apply IH; [rewrite length_drop; lia | apply no_char_drop; exact Hx].
    + unfold no_char. simpl. rewrite E.
      apply option_map_S_none. apply IH; [lia | exact Hx].
Qed.

Lemma contains_tail_false (q : string) (c : ascii) (s : string) :
  Py.contains q (String c s) = false ->
  prefix q (String c s) = false /\ Py.contains q s = false.
Proof. rewrite contains_unfold. intro H. apply orb_false_iff in H. exact H. Qed.

Lemma contains_drop_false (q : string) (k : nat) (s : string) :
  Py.contains q s = false -> Py.contains q (Py.drop k s) = false.
Proof.
  revert s; induction k as [|k IH]; intros s H; [now rewrite drop_0|].
  destruct s as [|c s]; [exact H|]. simpl.
  apply IH. apply (contains_tail_false q c s H).
Qed.

Lemma contains_false_no_prefix (q : string) (i : nat) (s : string) :
  Py.contains q s = false -> prefix q (Py.drop i s) = false.
Proof.
  intro H. apply (contains_drop_false q i) in H.
  rewrite contains_unfold in H. apply orb_false_iff in H. tauto.
Qed.

Lemma prefix_of_spaces (q t : string) :
  all_chars Py.is_space t = true -> prefix q t = true -> last_nonspace q = false.
Proof.
  revert t; induction q as [|a q IH]; intros t Ht H; [reflexivity|].
  destruct t as [|w t]; [discriminate|].
  rewrite prefix_cons in H. apply andb_true_iff in H. destruct H as [E H].
  apply Ascii.eqb_eq in E. subst w.
  simpl in Ht. apply andb_true_iff in Ht. destruct Ht as [Ha Ht].
  destruct q as [|b q]; [simpl; now rewrite Ha|].
  change (last_nonspace (String a (String b q))) with (last_nonspace (String b q)).
  eapply IH; eassumption.
Qed.

Lemma prefix_before_spaces (t : string) :
  all_chars Py.is_space t = true ->
  forall q x,
    last_nonspace q = true -> prefix q (x ++ t) = true -> prefix q x = true.
Proof.
  intros Ht q x; revert q; induction x as [|b x IH]; intros q Hq H.
  - simpl in H. rewrite (prefix_of_spaces q t Ht H) in Hq. discriminate.
  - destruct q as [|a q]; [reflexivity|].
    cbn [append] in H. rewrite prefix_cons in *.
    apply andb_true_iff in H. destruct H as [E H]. rewrite E. cbn [andb].
    destruct q as [|a' q]; [apply prefix_nil_l|].
    apply IH; [exact Hq | exact H].
Qed.

Lemma contains_in_spaces (q t : string) :
  last_nonspace q = true -> all_chars Py.is_space t = true ->
  Py.contains q t = false.
Proof.
  intros Hq. induction t as [|w t IH]; intro Ht.
  - rewrite contains_unfold. destruct q; [discriminate | reflexivity].
  - rewrite contains_unfold.
    destruct (prefix q (String w t)) eqn:P.
    + rewrite (prefix_of_spaces q _ Ht P) in Hq. discriminate.
    + simpl in Ht. apply andb_true_iff in Ht. apply IH. tauto.
Qed.

Lemma contains_before_spaces (q x t : string) :
  last_nonspace q = true -> all_chars Py.is_space t = true ->
  Py.contains q x = false -> Py.contains q (x ++ t) = false.
Proof.
  intros Hq Ht. induction x as [|b x IH]; intro H.
  - apply contains_in_spaces; assumption.
  - apply contains_tail_false in H. destruct H as [P H].
    rewrite contains_unfold. cbn [append].
    destruct (prefix q (String b (x ++ t))) eqn:E.
    + change (String b (x ++ t)) with (String b x ++ t) in E.
      apply (prefix_before_spaces t Ht q (String b x) Hq) in E. congruence.
    + apply IH; exact H.
Qed.

(** *** Deleting the semicolons *)

Lemma replace_char_by_nothing (c : ascii) (s : string) :
  Py.replace (String c EmptyString) EmptyString s = remove_char c s.
Proof.
  unfold Py.replace. induction s as [|a s IH]; [reflexivity|].
  rewrite replace_go_unfold, prefix_cons, prefix_nil_l, andb_true_r.
  cbn [String.length Nat.sub remove_char]. rewrite drop_0.
  destruct (Ascii.eqb c a); [exact IH | now rewrite IH].
Qed.

Lemma remove_char_app (c : ascii) (a b : string) :
  remove_char c (a ++ b) = remove_char c a ++ remove_char c b.
Proof.
  induction a as [|x a IH]; simpl; [reflexivity|].
  destruct (Ascii.eqb c x); [exact IH | simpl; now rewrite IH].
Qed.

Lemma remove_char_absent (c : ascii) (s : string) :
  no_char c s -> remove_char c s = s.
Proof.
  induction s as [|a s IH]; intro H; [reflexivity|].
  apply no_char_cons in H. destruct H as [E H]. simpl.
  rewrite Ascii.eqb_sym, E. now rewrite IH.
Qed.

Lemma remove_char_drop (c : ascii) (k : nat) (s : string) :
  exists j, remove_char c (Py.drop k s) = Py.drop j (remove_char c s).
Proof.
  revert s; induction k as [|k IH]; intros s.
  - exists 0. now rewrite !drop_0.
  - destruct s as [|a s]; [exists 0; reflexivity|]. simpl.
    destruct (IH s) as [j Hj]. destruct (Ascii.eqb c a).
    + exists j. exact Hj.
    + exists (S j). exact Hj.
Qed.

Lemma spaces_have_no_semicolon (t : string) :
  all_chars Py.is_space t = true -> no_char ";" t.
Proof.
  induction t as [|w t IH]; intro H; [reflexivity|].
  simpl in H. apply andb_true_iff in H. destruct H as [Hw H].
  unfold no_char. simpl. destruct (Ascii.eqb w ";") eqn:E.
  - apply Ascii.eqb_eq in E. subst. discriminate.
  - apply option_map_S_none. apply IH; exact H.
Qed.

Lemma slice_from (s : string) (i : Z) :
  Py.slice s (Some i) None = Py.drop (Py.norm_bound (String.length s) i) s.
Proof.
  unfold Py.slice. apply take_all. rewrite length_drop. lia.
Qed.

(** ** The bound pointers in the emitted pair (C3) *)

Lemma replace_lo_clears (q body : string) :
  q = lo_pointer \/ q = hi_pointer ->
  q = lo_pointer \/ Py.contains q body = false ->
  Py.contains q (Py.replace lo_pointer (three_ints "lo") body) = false.
Proof.
  intros Hq H.
  change (Py.replace lo_pointer (three_ints "lo") body)
    with (Py.replace_go lo_pointer
            (String "c" "onst int lo_1, const int lo_2, const int lo_3") 0 body).
  destruct Hq as [-> | ->].
  - apply (replaced_has_no_occurrence lo_pointer
             "onst int lo_1, const int lo_2, const int lo_3" "onst int* lo" "c" "c"
             eq_refl eq_refl (String.length body) body (le_n _)).
    intros i Hi. exact Hi.
  - apply (replaced_has_no_occurrence lo_pointer
             "onst int lo_1, const int lo_2, const int lo_3" "onst int* hi" "c" "c"
             eq_refl eq_refl (String.length body) body (le_n _)).
    intros i Hi. destruct H as [H | H]; [discriminate|].
    pose proof (contains_false_no_prefix hi_pointer i body H) as K.
    change (prefix hi_pointer (Py.drop i body) = true) in Hi. congruence.
Qed.

Lemma replace_hi_clears (q body : string) :
  q = lo_pointer \/ q = hi_pointer ->
  q = hi_pointer \/ Py.contains q body = false ->
  Py.contains q (Py.replace hi_pointer (three_ints "hi") body) = false.
Proof.
  intros Hq H.
  change (Py.replace hi_pointer (three_ints "hi") body)
    with (Py.replace_go hi_pointer
            (String "c" "onst int hi_1, const int hi_2, const int hi_3") 0 body).
  destruct Hq as [-> | ->].
  - apply (replaced_has_no_occurrence hi_pointer
             "onst int hi_1, const int hi_2, const int hi_3" "onst int* lo" "c" "c"
             eq_refl eq_refl (String.length body) body (le_n _)).
    intros i Hi. destruct H as [H | H]; [discriminate|].
    pose proof (contains_false_no_prefix lo_pointer i body H) as K.
    change (prefix lo_pointer (Py.drop i body) = true) in Hi. congruence.
  - apply (replaced_has_no_occurrence hi_pointer
             "onst int hi_1, const int hi_2, const int hi_3" "onst int* hi" "c" "c"
             eq_refl eq_refl (String.length body) body (le_n _)).
    intros i Hi. exact Hi.
Qed.

(** Replacing a bound pointer in a signature [b ; tail] works on [b]. *)
Lemma replace_bound_in_signature (p r b tail : string) :
  p = lo_pointer \/ p = hi_pointer ->
  all_chars Py.is_space tail = true ->
  Py.replace p r (b ++ ";" ++ tail) = Py.replace p r b ++ ";" ++ tail.
Proof.
  intros Hp Ht.
  assert (E : Py.replace p r (b ++ ";" ++ tail)
              = Py.replace_go p r 0 (b ++ String ";" tail)
              /\ Py.replace p r b = Py.replace_go p r 0 b)
    by (destruct Hp as [-> | ->]; split; reflexivity).
  destruct E as [-> ->].
  rewrite (replace_go_before_sep p r ";" tail (String.length b));
    [| destruct Hp as [-> | ->]; discriminate
     | destruct Hp as [-> | ->]; reflexivity
     | apply le_n].
  f_equal. cbn [append]. f_equal.
  destruct Hp as [-> | ->]; apply replace_go_spaces; try reflexivity; exact Ht.
Qed.

Lemma legacy_inv_step (tail dev0 var : string) (st : rw_state) :
  all_chars Py.is_space tail = true ->
  legacy_inv tail dev0 st ->
  legacy_inv tail dev0 (bound_step var (legacy_step var st)).
Proof.
  intros Ht (b & F & Nb & L & H & D).
  unfold bound_step, legacy_step.
  destruct (String.eqb var "lo") eqn:E1.
  - apply String.eqb_eq in E1. subst var. cbn [func_sig device_sig has_lo has_hi].
    exists (Py.replace lo_pointer (three_ints "lo") b).
    split; [rewrite F; apply replace_bound_in_signature; auto|].
    split; [apply (replace_go_no_char ";" lo_pointer _ (String.length b));
              [reflexivity | apply le_n | exact Nb]|].
    split; [intros _; apply replace_lo_clears; auto|].
    split; [intro K; apply replace_lo_clears; auto | exact D].
  - destruct (String.eqb var "hi") eqn:E2.
    + apply String.eqb_eq in E2. subst var.
      cbn [func_sig device_sig has_lo has_hi].
      exists (Py.replace hi_pointer (three_ints "hi") b).
      split; [rewrite F; apply replace_bound_in_signature; auto|].
      split; [apply (replace_go_no_char ";" hi_pointer _ (String.length b));
                [reflexivity | apply le_n | exact Nb]|].
      split; [intro K; apply replace_hi_clears; auto|].
      split; [intros _; apply replace_hi_clears; auto | exact D].
    + exists b. cbn [func_sig device_sig has_lo has_hi]. auto.
Qed.

Lemma legacy_inv_loop (sig0 tail dev0 : string) (tags' : tag_table) :
  all_chars Py.is_space tail = true ->
  forall ps n st st',
    rewrite_params sig0 ([] :: tags') n ps st = Ok st' ->
    legacy_inv tail dev0 st -> legacy_inv tail dev0 st'.
Proof.
  intros Ht ps. induction ps as [|v r IH]; intros n st st' H I; simpl in H.
  - injection H as <-. exact I.
  - destruct (rewrite_param sig0 ([] :: tags') n v st) as [st1| |] eqn:P;
      cbn [bind] in H; try discriminate.
    apply (IH _ _ _ H). clear H IH.
    unfold rewrite_param in P.
    destruct (item_last (Py.words v)) as [tok| |]; cbn [bind] in P;
      try discriminate.
    destruct (item (Py.split1 "(" sig0) 1) as [after| |]; cbn [bind] in P;
      try discriminate.
    destruct (item (Py.rsplit1 ")" after) 0) as [inner| |]; cbn [bind] in P;
      try discriminate.
    cbn [item nth_error bind] in P. injection P as <-.
    apply legacy_inv_step; assumption.
Qed.

(** * Further properties *)

(** ** What a capture loop gathers *)

(** X1: the loop shared by the collector, the expander and the scan of
    the expanded header returns exactly at the first line, from the
    current one on, whose trimmed text ends in a semicolon: what it has
    gathered is the text of the lines before that one, in order, and
    the file is left just after it. *)
Theorem accumulate_gathers_up_to_first_terminator
  (fuel : nat) (line : string) (hin : file) (acc acc' last : string)
  (rest : file) :
  accumulate fuel line hin acc = Some (acc', last, rest) ->
  exists before,
    (line :: hin = before ++ last :: rest)%list
    /\ Forall (fun l => ends_statement l = false) before
    /\ ends_statement last = true
    /\ acc' = fold_left append before acc.
Proof.
  revert line hin acc. induction fuel as [|f IH]; intros line hin acc H;
    [discriminate|].
  cbn [accumulate] in H. destruct (ends_statement line) eqn:E.
  - injection H as <- <- <-. exists []. repeat split; [constructor | exact E].
  - destruct hin as [|l r]; cbn [readline] in H.
    + rewrite accumulate_eof in H. discriminate.
    + destruct (IH _ _ _ H) as (before & Hb & Hf & Hl & Ha).
      exists (line :: before). repeat split.
      * simpl. now rewrite Hb.
      * constructor; assumption.
      * exact Hl.
      * exact Ha.
Qed.

Lemma accumulate_gathers_up_to_first_terminator_witness :
  exists before,
    List.app before [("      a);" ++ nl)%string; ("x = 1;" ++ nl)%string]
    = [("  foo(lo, hi," ++ nl)%string; ("      a);" ++ nl)%string;
       ("x = 1;" ++ nl)%string]
    /\ Forall (fun l => ends_statement l = false) before
    /\ fold_left append before EmptyString = "  foo(lo, hi," ++ nl.
Proof.
  destruct (accumulate_gathers_up_to_first_terminator 5 ("  foo(lo, hi," ++ nl)
              ["      a);" ++ nl; "x = 1;" ++ nl] EmptyString
              ("  foo(lo, hi," ++ nl) ("      a);" ++ nl) ["x = 1;" ++ nl] eq_refl)
    as (before & Hb & Hf & _ & Ha).
  exists before. split; [symmetry; exact Hb|]. split; [exact Hf|].
  symmetry; exact Ha.
Defined.

Lemma lstrip_is_drop (s : string) : exists k, Py.lstrip s = Py.drop k s.
Proof.
  induction s as [|c s [k IH]].
  - exists 0. reflexivity.
  - simpl. destruct (Py.is_space c).
    + exists (S k). exact IH.
    + exists 0. reflexivity.
Qed.

Lemma endswith_char_split (s : string) (c : ascii) :
  Py.endswith s (String c EmptyString) = true ->
  exists body, s = body ++ String c EmptyString.
Proof.
  unfold Py.endswith. intro H. apply andb_true_iff in H. destruct H as [L H].
  apply String.eqb_eq in H.
  remember (String.length s - String.length (String c EmptyString)) as n.
  exists (Py.take n s). rewrite <- H. symmetry. apply take_drop.
Qed.

Lemma slice_drop_last (body : string) (c : ascii) :
  Py.slice (body ++ String c EmptyString) None (Some (-1)%Z) = body.
Proof.
  unfold Py.slice, Py.norm_bound. cbn [Z.ltb Z.compare].
  rewrite Nat.sub_0_r, drop_0, length_app_s.
  replace (Z.to_nat (Z.max 0 (-1 + Z.of_nat (String.length body
                                              + String.length (String c EmptyString)))))
    with (String.length body) by (simpl String.length; lia).
  apply take_app.
Qed.

(** X2: the text handed to the parser is the captured text with the
    whitespace after the closing semicolon and that one semicolon cut
    off, and nothing else: putting the semicolon back gives the
    gathered lines followed by the last line without its trailing
    whitespace. *)
Theorem call_text_drops_final_semicolon (acc last : string) :
  ends_statement last = true ->
  call_text acc last ++ ";" = acc ++ Py.rstrip last.
Proof.
  unfold ends_statement, Py.strip, call_text. intro H.
  apply endswith_char_split in H. destruct H as [body Hb].
  destruct (lstrip_is_drop (Py.rstrip last)) as [k Hk].
  assert (E : Py.rstrip last
              = (Py.take k (Py.rstrip last) ++ body) ++ String ";" EmptyString).
  { rewrite app_assoc_s, <- Hb, Hk. symmetry. apply take_drop. }
  rewrite E at 1. rewrite slice_drop_last, app_assoc_s.
  f_equal. rewrite E at 2. rewrite !app_assoc_s. reflexivity.
Qed.

Lemma call_text_drops_final_semicolon_witness :
  call_text ("  foo(lo, hi," ++ nl) ("      a);  " ++ nl) ++ ";"
  = ("  foo(lo, hi," ++ nl) ++ "      a);".
Proof.
  exact (call_text_drops_final_semicolon ("  foo(lo, hi," ++ nl)
           ("      a);  " ++ nl) eq_refl).
Defined.

(** ** Statements without a parenthesised part *)

Lemma index_char_app_some (c : ascii) (pre x : string) :
  exists i,
    Py.index_char c (pre ++ String c x) = Some i /\ i <= String.length pre.
Proof.
  induction pre as [|a pre (i & Hi & Li)]; simpl.
  - exists 0. now rewrite Ascii.eqb_refl.
  - destruct (Ascii.eqb a c).
    + exists 0. split; [reflexivity | lia].
    + exists (S i). rewrite Hi. split; [reflexivity | lia].
Qed.

Lemma rindex_char_app_some (c : ascii) (a b : string) :
  exists j, Py.rindex_char c (a ++ String c b) = Some j.
Proof.
  induction a as [|x a [j Hj]]; simpl.
  - destruct (Py.rindex_char c b); [eexists; reflexivity|].
    rewrite Ascii.eqb_refl. eexists; reflexivity.
  - rewrite Hj. eexists; reflexivity.
Qed.

Lemma decls_re_search_finds (pre mid post : string) :
  exists dd, decls_re_search (pre ++ "(" ++ mid ++ ")" ++ post) = Some dd.
Proof.
  unfold decls_re_search.
  change (pre ++ "(" ++ mid ++ ")" ++ post)
    with (pre ++ String "(" (mid ++ String ")" post)).
  destruct (index_char_app_some "(" pre (mid ++ String ")" post)) as (i & -> & Li).
  replace (pre ++ String "(" (mid ++ String ")" post))
    with ((pre ++ String "(" EmptyString) ++ (mid ++ String ")" post))
    by (rewrite app_assoc_s; reflexivity).
  rewrite drop_app_le by (rewrite length_app_s; simpl; lia).
  rewrite <- app_assoc_s.
  destruct (rindex_char_app_some ")"
              (Py.drop (S i) (pre ++ String "(" EmptyString) ++ mid) post)
    as [j ->].
  eexists; reflexivity.
Qed.

Lemma parse_target_found (macro_list : list string) (s : string)
  (dd : decls_match) :
  decls_re_search s = Some dd ->
  parse_target macro_list s
  = Ok (Py.replace " " "" (Py.strip (group1 dd)),
        tag_positions macro_list (Py.split "," (group3 dd))).
Proof.
  intro H. unfold parse_target. rewrite H.
  destruct (decls_re_search_some _ _ H) as (post & _ & Hpre & _).
  pose proof (stripped_match_inner (group1 dd) (group3 dd) Hpre) as E.
  unfold group0.
  destruct (item (Py.split1 "(" (Py.strip (group1 dd ++ "(" ++ group3 dd ++ ")"))) 1)
    as [after | |]; cbn [bind] in *; try discriminate.
  destruct (item (Py.rsplit1 ")" after) 0) as [inner | |];
    cbn [bind] in *; try discriminate.
  injection E as ->. reflexivity.
Qed.

(** X3: a captured statement is parsed by the collector and by the
    expander exactly when it has an opening parenthesis with a closing
    one somewhere after it; both then use the same name, the text
    before the first opening parenthesis, stripped and without spaces.
    A statement without such a part ends both in an uncaught
    [AttributeError]; neither of them skips it. *)
Theorem statement_needs_parentheses (macro_list : list string) (s : string) :
  ((exists pre mid post, s = pre ++ "(" ++ mid ++ ")" ++ post) ->
   exists dd,
     decls_re_search s = Some dd
     /\ parse_target macro_list s
        = Ok (Py.replace " " "" (Py.strip (group1 dd)),
              tag_positions macro_list (Py.split "," (group3 dd)))
     /\ expand_call s
        = Ok (launch_text (Py.replace " " "" (Py.strip (group1 dd))) (group3 dd)))
  /\ (~ (exists pre mid post, s = pre ++ "(" ++ mid ++ ")" ++ post) ->
      parse_target macro_list s = Raise AttributeError
      /\ expand_call s = Raise AttributeError).
Proof.
  split.
  - intros (pre & mid & post & ->).
    destruct (decls_re_search_finds pre mid post) as [dd Hdd].
    exists dd. split; [exact Hdd|]. split.
    + apply parse_target_found; exact Hdd.
    + unfold expand_call. rewrite Hdd. reflexivity.
  - intro N. unfold parse_target, expand_call.
    destruct (decls_re_search s) as [dd|] eqn:E; [|split; reflexivity].
    exfalso. apply N. destruct (decls_re_search_some _ _ E) as (post & Hs & _).
    exists (group1 dd), (group3 dd), post. exact Hs.
Qed.

Lemma statement_needs_parentheses_witness :
  (exists dd,
     decls_re_search "foo(a, (b))" = Some dd
     /\ parse_target ["AMREX_INT_ANYD"] "foo(a, (b))"
        = Ok (Py.replace " " "" (Py.strip (group1 dd)),
              tag_positions ["AMREX_INT_ANYD"] (Py.split "," (group3 dd)))
     /\ expand_call "foo(a, (b))"
        = Ok (launch_text (Py.replace " " "" (Py.strip (group1 dd))) (group3 dd)))
  /\ parse_target ["AMREX_INT_ANYD"] "x = y" = Raise AttributeError.
Proof.
  split.
  - apply (proj1 (statement_needs_parentheses ["AMREX_INT_ANYD"] "foo(a, (b))")).
    exists "foo", "a, (b)", "". reflexivity.
  - apply (proj2 (statement_needs_parentheses ["AMREX_INT_ANYD"] "x = y")).
    intros (pre & mid & post & H).
    assert (C : Py.contains "(" "x = y" = true)
      by (rewrite H; apply contains_app).
    discriminate.
Defined.

Lemma parse_and_expand_end_alike (macro_list : list string) (s : string) :
  result_kind (parse_target macro_list s) = result_kind (expand_call s).
Proof.
  destruct (decls_re_search s) as [dd|] eqn:E.
  - rewrite (parse_target_found _ _ _ E). unfold expand_call. rewrite E.
    reflexivity.
  - unfold parse_target, expand_call. rewrite E. reflexivity.
Qed.

(** X4: on the same file the expander ends as the collector does: it
    completes, raises the same exception, or hangs with it.  So a file
    that the collector has scanned is never refused by the expander. *)
Theorem expander_ends_as_collector (fuel : nat) (macro_list : list string) :
  forall line hin out targets,
    run_kind (scan_cxx fuel line hin out)
    = run_kind (scan_pragmas fuel macro_list line hin targets).
Proof.
  induction fuel as [|f IH]; intros line hin out targets; [reflexivity|].
  destruct line as [|c line']; [reflexivity|].
  cbn [scan_cxx scan_pragmas].
  destruct (Py.startswith (String c line') marker).
  - destruct (readline hin) as [l1 h1].
    destruct (accumulate f l1 h1 EmptyString) as [[[acc last] h2]|];
      [|reflexivity].
    pose proof (parse_and_expand_end_alike macro_list (call_text acc last)) as K.
    destruct (expand_call (call_text acc last)) as [text| |],
             (parse_target macro_list (call_text acc last)) as [[nm tags]| |];
      cbn [result_kind] in K; try discriminate.
    + destruct (readline h2) as [l3 h3]. apply IH.
    + cbn [run_kind option_map result_kind]. congruence.
    + cbn [run_kind option_map result_kind]. congruence.
  - destruct (readline hin) as [l1 h1]. apply IH.
Qed.

(** ** Lines without a marker *)

Lemma scan_cxx_unmarked_step (f : nat) (line : string) (hin : file)
  (out : list string) :
  unmarked line ->
  scan_cxx (S f) line hin out
  = scan_cxx f (fst (readline hin)) (snd (readline hin)) (out ++ [line])%list.
Proof.
  intros [Hne Hm]. destruct line as [|c line']; [contradiction|].
  cbn [scan_cxx]. rewrite Hm. destruct (readline hin); reflexivity.
Qed.

Lemma scan_pragmas_unmarked_step (f : nat) (macro_list : list string)
  (line : string) (hin : file) (targets : dict tag_table) :
  unmarked line ->
  scan_pragmas (S f) macro_list line hin targets
  = scan_pragmas f macro_list (fst (readline hin)) (snd (readline hin)) targets.
Proof.
  intros [Hne Hm]. destruct line as [|c line']; [contradiction|].
  cbn [scan_pragmas]. rewrite Hm. destruct (readline hin); reflexivity.
Qed.

Lemma scan_pragmas_unmarked_stretch
  (fuel : nat) (macro_list : list string) (pre rest : file) :
  forall line targets,
    Forall unmarked (line :: pre) ->
    scan_pragmas (S (List.length pre) + fuel) macro_list line
      (pre ++ rest)%list targets
    = scan_pragmas fuel macro_list (fst (readline rest))
        (snd (readline rest)) targets.
Proof.
  induction pre as [|l pre' IH]; intros line targets H;
    inversion H as [|? ? Hu Hrest]; subst;
    cbn [List.length Nat.add app];
    rewrite (scan_pragmas_unmarked_step _ _ _ _ _ Hu).
  - reflexivity.
  - cbn [readline fst snd]. exact (IH l targets Hrest).
Qed.

(** X5: a stretch of lines without marker is passed over by both scans
    of a source file: the expander copies the lines, unchanged and in
    order, the collector leaves its registry as it is, and both go on
    with what follows the stretch. *)
Theorem unmarked_stretch_is_passed_over
  (fuel : nat) (macro_list : list string) (pre rest : file) :
  forall line out targets,
    Forall unmarked (line :: pre) ->
    scan_cxx (S (List.length pre) + fuel) line (pre ++ rest)%list out
    = scan_cxx fuel (fst (readline rest)) (snd (readline rest))
        (out ++ line :: pre)%list
    /\ scan_pragmas (S (List.length pre) + fuel) macro_list line
         (pre ++ rest)%list targets
       = scan_pragmas fuel macro_list (fst (readline rest))
           (snd (readline rest)) targets.
Proof.
  induction pre as [|l pre' IH]; intros line out targets H;
    inversion H as [|? ? Hu Hrest]; subst;
    cbn [List.length Nat.add app];
    rewrite (scan_cxx_unmarked_step _ _ _ _ Hu),
            (scan_pragmas_unmarked_step _ _ _ _ _ Hu).
  - split; reflexivity.
  - cbn [readline fst snd].
    destruct (IH l (out ++ [line])%list targets Hrest) as [A B].
    cbn [Nat.add] in A, B. rewrite A, B, <- List.app_assoc. split; reflexivity.
Qed.

Lemma unmarked_stretch_is_passed_over_witness :
  scan_cxx 4 ("int a;" ++ nl) ["int b;" ++ nl; "int c;" ++ nl] []
  = Some (Ok ["int a;" ++ nl; "int b;" ++ nl; "int c;" ++ nl]).
Proof.
  etransitivity.
  - exact (proj1 (unmarked_stretch_is_passed_over 1 [] ["int b;" ++ nl; "int c;" ++ nl]
                    [] ("int a;" ++ nl) [] []
                    ltac:(repeat constructor; discriminate))).
  - reflexivity.
Defined.

(** ** The registry of the collector *)

Lemma dict_get_set_same {V : Type} (d : dict V) (k : string) (v : V) :
  dict_get (dict_set d k v) k = Some v.
Proof.
  induction d as [|[k' v'] r IH]; simpl.
  - now rewrite String.eqb_refl.
  - destruct (String.eqb k k') eqn:E; simpl.
    + now rewrite String.eqb_refl.
    + now rewrite E.
Qed.

Lemma dict_get_set_other {V : Type} (d : dict V) (k k' : string) (v : V) :
  k' <> k -> dict_get (dict_set d k v) k' = dict_get d k'.
Proof.
  intro N. induction d as [|[k0 v0] r IH]; simpl.
  - apply String.eqb_neq in N. now rewrite N.
  - destruct (String.eqb k k0) eqn:E; simpl.
    + apply String.eqb_eq in E. subst k0.
      apply String.eqb_neq in N. now rewrite N.
    + destruct (String.eqb k' k0); [reflexivity | exact IH].
Qed.



(** ** The names that a header scan can find *)

Lemma to_lower_idem (c : ascii) : Py.to_lower (Py.to_lower c) = Py.to_lower c.
Proof. destruct c as [[] [] [] [] [] [] [] []]; reflexivity. Qed.

Lemma all_chars_app (p : ascii -> bool) (a b : string) :
  all_chars p (a ++ b) = (all_chars p a && all_chars p b)%bool.
Proof.
  induction a as [|c a IH]; simpl; [reflexivity|].
  now rewrite IH, andb_assoc.
Qed.

Lemma lower_is_lowered (s : string) :
  all_chars (fun c => Ascii.eqb (Py.to_lower c) c) (Py.lower s) = true.
Proof.
  induction s as [|c s IH]; simpl; [reflexivity|].
  now rewrite to_lower_idem, Ascii.eqb_refl, IH.
Qed.

Lemma lowered_fixed (s : string) :
  all_chars (fun c => Ascii.eqb (Py.to_lower c) c) s = true -> Py.lower s = s.
Proof.
  induction s as [|c s IH]; simpl; intro H; [reflexivity|].
  apply andb_true_iff in H. destruct H as [Hc Hs].
  apply Ascii.eqb_eq in Hc. now rewrite Hc, IH.
Qed.

Lemma lowered_name_chars (s : string) :
  all_chars (fun c => Ascii.eqb (Py.to_lower c) c) s = true ->
  all_chars is_name_char s = true -> all_chars lower_name_char s = true.
Proof.
  induction s as [|c s IH]; simpl; intros H N; [reflexivity|].
  apply andb_true_iff in H. destruct H as [Hc Hs].
  apply andb_true_iff in N. destruct N as [Nc Ns].
  rewrite (IH Hs Ns), andb_true_r.
  unfold is_name_char, is_letter in Nc. apply Ascii.eqb_eq in Hc.
  rewrite Hc in Nc. exact Nc.
Qed.

(** X7: a name that a header scan finds is a target made of two or more
    characters, all of them lowercase letters or underscores, the
    first one a letter.  So a target whose name, as written at the
    call, has an uppercase letter, a digit or a colon in it is never
    found in any header. *)
Theorem found_names_are_lowercase_words
  (names : list string) (tline found : string) :
  find_target names tline = Some found ->
  In found names
  /\ 2 <= String.length found
  /\ all_chars lower_name_char found = true
  /\ (exists c r, found = String c r /\ Py.is_lower c = true)
  /\ Py.lower found = found.
Proof.
  intro H. apply find_target_spec in H. destruct H as [Hin Hs].
  split; [exact Hin|].
  apply search_spec in Hs.
  destruct Hs as (pre & rest & Ht & (kw & ws & rest' & Hr & _ & _ & Hn & _) & _).
  pose proof (lower_is_lowered tline) as L.
  rewrite Ht, Hr, !all_chars_app in L.
  apply andb_true_iff in L. destruct L as [_ L].
  apply andb_true_iff in L. destruct L as [_ L].
  apply andb_true_iff in L. destruct L as [_ L].
  apply andb_true_iff in L. destruct L as [L _].
  destruct Hn as (c & d & r & -> & Hc & Hr').
  assert (Lc : Py.to_lower c = c).
  { simpl in L. apply andb_true_iff in L. destruct L as [L _].
    apply Ascii.eqb_eq in L. exact L. }
  assert (Ic : Py.is_lower c = true)
    by (unfold is_letter in Hc; rewrite Lc in Hc; exact Hc).
  split; [simpl; lia|]. split; [|split].
  - apply lowered_name_chars; [exact L|].
    change (all_chars is_name_char (String c (String d r)))
      with (is_name_char c && all_chars is_name_char (String d r))%bool.
    now rewrite (letter_is_name_char c Hc), Hr'.
  - exists c, (String d r). auto.
  - apply lowered_fixed; exact L.
Qed.

Lemma found_names_are_lowercase_words_witness :
  2 <= String.length "ca_fill" /\ Py.lower "ca_fill" = "ca_fill".
Proof.
  destruct (found_names_are_lowercase_words ["ca_fill"]
              "  void CA_Fill (const int* lo," "ca_fill" eq_refl)
    as (_ & H2 & _ & _ & Hl).
  split; assumption.
Defined.

(** ** How rewriting a signature can end *)

Lemma bind_only_index_error {A B : Type} (r : result A) (k : A -> result B) :
  only_index_error r -> (forall a, only_index_error (k a)) ->
  only_index_error (bind r k).
Proof. destruct r; simpl; intros H K; [apply K | contradiction | exact H]. Qed.

Lemma item_only_index_error {A : Type} (l : list A) (i : nat) :
  only_index_error (item l i).
Proof. unfold item. destruct (nth_error l i); simpl; auto. Qed.

Lemma item_last_only_index_error {A : Type} (l : list A) :
  only_index_error (item_last l).
Proof. unfold item_last. destruct (Py.last_item l); simpl; auto. Qed.

Lemma tagged_loop_only_index_error (args : list string) (n : nat)
  (ps : list nat) :
  forall var st, only_index_error (tagged_loop args n ps var st).
Proof.
  induction ps as [|p r IH]; intros var st; simpl; [exact I|].
  destruct (Nat.eqb n p); [|apply IH].
  apply bind_only_index_error; [apply item_only_index_error|]. intro arg.
  apply bind_only_index_error; [apply item_last_only_index_error|]. intro v.
  apply IH.
Qed.

Lemma rewrite_param_only_index_error (sig0 : string) (tags : tag_table)
  (n : nat) (v : string) (st : rw_state) :
  only_index_error (rewrite_param sig0 tags n v st).
Proof.
  unfold rewrite_param.
  apply bind_only_index_error; [apply item_last_only_index_error|]. intro tok.
  apply bind_only_index_error; [apply item_only_index_error|]. intro aft.
  apply bind_only_index_error; [apply item_only_index_error|]. intro inner.
  apply bind_only_index_error; [apply item_only_index_error|]. intro aps.
  destruct aps as [|p r]; [exact I|].
  apply bind_only_index_error; [apply tagged_loop_only_index_error|].
  intro res. exact I.
Qed.

Lemma rewrite_params_only_index_error (sig0 : string) (tags : tag_table)
  (ps : list string) :
  forall n st, only_index_error (rewrite_params sig0 tags n ps st).
Proof.
  induction ps as [|v r IH]; intros n st; simpl; [exact I|].
  apply bind_only_index_error; [apply rewrite_param_only_index_error|].
  intro st'. apply IH.
Qed.

(** X8: rewriting a signature ends in one of four ways only.  It raises
    [AttributeError] exactly when the signature has no opening
    parenthesis with a closing one after it; the only other exception
    is [IndexError]; the only exit is the one for missing bounds, whose
    message carries the target name; otherwise it succeeds. *)
Theorem rewrite_signature_endings (name sig0 : string) (tags : tag_table) :
  (rewrite_signature name sig0 tags = Raise AttributeError
   <-> decls_re_search sig0 = None)
  /\ (forall e,
        rewrite_signature name sig0 tags = Raise e ->
        e = AttributeError \/ e = IndexError)
  /\ (forall msg,
        rewrite_signature name sig0 tags = SysExit msg ->
        exists sig',
          msg = missing_bounds_message name sig'
          /\ Py.contains name msg = true).
Proof.
  unfold rewrite_signature.
  destruct (decls_re_search sig0) as [dd|] eqn:E.
  - pose proof (rewrite_params_only_index_error sig0 tags
                  (Py.split "," (group3 dd)) 0
                  {| func_sig := sig0; device_sig := device_sig_start sig0 name;
                     has_lo := false; has_hi := false;
                     vars := []; intvect_vars := [] |}) as K.
    destruct (rewrite_params sig0 tags 0 (Py.split "," (group3 dd)) _)
      as [st| |e']; cbn [bind only_index_error] in *; try contradiction.
    + destruct (negb (has_lo st) || negb (has_hi st)).
      * split; [split; discriminate|]. split; [discriminate|].
        intros msg H. injection H as <-. exists (func_sig st).
        split; [reflexivity | apply message_reports_name].
      * split; [split; discriminate|]. split; discriminate.
    + subst e'. split; [split; discriminate|].
      split; [|discriminate]. intros e H. injection H as <-. auto.
  - split; [split; reflexivity|]. split; [|discriminate].
    intros e H. injection H as <-. auto.
Qed.

Lemma rewrite_signature_endings_witness :
  rewrite_signature "foo" ("void foo;" ++ nl) [[]] = Raise AttributeError
  /\ exists sig',
       missing_bounds_message "foo" ("void foo(int a);" ++ nl)
       = missing_bounds_message "foo" sig'
       /\ Py.contains "foo"
            (missing_bounds_message "foo" ("void foo(int a);" ++ nl)) = true.
Proof.
  split.
  - apply (proj1 (rewrite_signature_endings "foo" ("void foo;" ++ nl) [[]])).
    reflexivity.
  - apply (proj2 (proj2 (rewrite_signature_endings "foo"
                           ("void foo(int a);" ++ nl) [[]]))).
    reflexivity.
Defined.

(** ** The call that the kernel forwards *)

Lemma rstrip_spaceless (s : string) : spaceless s = true -> Py.rstrip s = s.
Proof.
  unfold spaceless. induction s as [|c s IH]; intro H; [reflexivity|].
  cbn [all_chars] in H. apply andb_true_iff in H. destruct H as [Hc Hs].
  apply negb_true_iff in Hc. cbn [Py.rstrip]. rewrite (IH Hs).
  destruct s; [rewrite Hc|]; reflexivity.
Qed.

Lemma strip_spaceless (s : string) : spaceless s = true -> Py.strip s = s.
Proof.
  intro H. unfold Py.strip. rewrite (rstrip_spaceless _ H).
  destruct s as [|c s]; [reflexivity|].
  unfold spaceless in H. cbn [all_chars] in H.
  apply andb_true_iff in H. destruct H as [Hc _].
  apply negb_true_iff in Hc. cbn [Py.lstrip]. rewrite Hc. reflexivity.
Qed.

Lemma remove_char_spaceless (c : ascii) (s : string) :
  spaceless s = true -> spaceless (remove_char c s) = true.
Proof.
  unfold spaceless. induction s as [|a s IH]; intro H; [reflexivity|].
  cbn [all_chars] in H. apply andb_true_iff in H. destruct H as [Ha Hs].
  cbn [remove_char]. destruct (Ascii.eqb c a); [exact (IH Hs)|].
  cbn [all_chars]. rewrite Ha, (IH Hs). reflexivity.
Qed.

Lemma words_spaceless (s : string) :
  Forall (fun tok => spaceless tok = true) (Py.words s).
Proof.
  induction s as [|c s IH]; [constructor|].
  cbn [Py.words]. destruct (Py.is_space c) eqn:Hc; [exact IH|].
  assert (One : spaceless (String c EmptyString) = true).
  { unfold spaceless. cbn [all_chars]. now rewrite Hc. }
  destruct s as [|d s']; [constructor; [exact One | constructor]|].
  destruct (Py.is_space d); [constructor; [exact One | exact IH]|].
  destruct (Py.words (String d s')) as [|h t];
    [constructor; [exact One | constructor]|].
  inversion IH as [|? ? Hh Ht]; subst.
  constructor; [|exact Ht].
  unfold spaceless in *. cbn [all_chars]. now rewrite Hc, Hh.
Qed.

Lemma last_in {A : Type} (a : A) (r : list A) : In (List.last r a) (a :: r).
Proof.
  induction r as [|b r IH]; [left; reflexivity|].
  cbn [List.last]. destruct r as [|c r']; [right; left; reflexivity|].
  destruct IH as [IH | IH]; [left; exact IH | right; right; exact IH].
Qed.

Lemma last_word_spaceless (v tok : string) :
  Py.last_item (Py.words v) = Some tok -> spaceless tok = true.
Proof.
  intro H. pose proof (words_spaceless v) as F.
  destruct (Py.words v) as [|w ws]; [discriminate|].
  cbn [Py.last_item] in H. injection H as <-.
  rewrite Forall_forall in F. apply F. apply last_in.
Qed.

Lemma param_var_bare (tok : string) :
  spaceless tok = true -> param_var tok = bare_name tok.
Proof.
  intro H. unfold param_var, bare_name.
  rewrite !replace_char_by_nothing.
  rewrite strip_spaceless; [reflexivity|].
  apply remove_char_spaceless, remove_char_spaceless. exact H.
Qed.


Lemma legacy_step_forward (var : string) (st : rw_state) :
  let st' := bound_step var (legacy_step var st) in
  vars st'
  = (vars st ++ [if String.eqb var "lo" then "blo"
                 else if String.eqb var "hi" then "bhi" else var])%list
  /\ (forwarding_inv st -> forwarding_inv st').
Proof.
  unfold bound_step, legacy_step, forwarding_inv.
  destruct (String.eqb var "lo") eqn:E1.
  - apply String.eqb_eq in E1. subst var. cbn [String.eqb Ascii.eqb Bool.eqb].
    cbn [vars intvect_vars has_lo has_hi]. split; [reflexivity|].
    intros (V & W & L & H).
    split; [|split; [|split]].
    + apply Forall_app. split; [exact V|].
      constructor; [intros [K | K]; discriminate | constructor].
    + apply Forall_app. split; [exact W|].
      constructor; [left; reflexivity | constructor].
    + intros _. split; apply in_or_app; right; left; reflexivity.
    + intro F. destruct (H F). split; apply in_or_app; left; assumption.
  - destruct (String.eqb var "hi") eqn:E2.
    + apply String.eqb_eq in E2. subst var. cbn [String.eqb Ascii.eqb Bool.eqb].
      cbn [vars intvect_vars has_lo has_hi]. split; [reflexivity|].
      intros (V & W & L & H).
      split; [|split; [|split]].
      * apply Forall_app. split; [exact V|].
        constructor; [intros [K | K]; discriminate | constructor].
      * apply Forall_app. split; [exact W|].
        constructor; [right; reflexivity | constructor].
      * intro F. destruct (L F). split; apply in_or_app; left; assumption.
      * intros _. split; apply in_or_app; right; left; reflexivity.
    + cbn [vars intvect_vars has_lo has_hi].
      split; [reflexivity|].
      intros (V & W & L & H).
      split; [|split; [exact W|split]].
      * apply Forall_app. split; [exact V|].
        apply String.eqb_neq in E1, E2.
        constructor; [intros [K | K]; contradiction | constructor].
      * intro F. destruct (L F). split; [apply in_or_app; left|]; assumption.
      * intro F. destruct (H F). split; [apply in_or_app; left|]; assumption.
Qed.

Lemma legacy_param_forward (sig0 : string) (tags' : tag_table) (n : nat)
  (v : string) (st st' : rw_state) :
  rewrite_param sig0 ([] :: tags') n v st = Ok st' ->
  vars st' = (vars st ++ [forward_name v])%list
  /\ (forwarding_inv st -> forwarding_inv st').
Proof.
  unfold rewrite_param, item_last, forward_name. intro P.
  destruct (Py.last_item (Py.words v)) as [tok|] eqn:T; cbn [bind] in P;
    [|discriminate].
  destruct (item (Py.split1 "(" sig0) 1) as [aft| |]; cbn [bind] in P;
    try discriminate.
  destruct (item (Py.rsplit1 ")" aft) 0) as [inner| |]; cbn [bind] in P;
    try discriminate.
  cbn [item nth_error bind] in P. injection P as <-.
  unfold thread_bound.
  rewrite <- (param_var_bare tok (last_word_spaceless _ _ T)).
  apply legacy_step_forward.
Qed.

Lemma legacy_params_forward (sig0 : string) (tags' : tag_table) :
  forall ps n st st',
    rewrite_params sig0 ([] :: tags') n ps st = Ok st' ->
    vars st' = (vars st ++ map forward_name ps)%list
    /\ (forwarding_inv st -> forwarding_inv st').
Proof.
  induction ps as [|v r IH]; intros n st st' H; simpl in H.
  - injection H as <-. rewrite List.app_nil_r. auto.
  - destruct (rewrite_param sig0 ([] :: tags') n v st) as [st1| |] eqn:P;
      cbn [bind] in H; try discriminate.
    destruct (legacy_param_forward _ _ _ _ _ _ P) as [V1 J1].
    destruct (IH _ _ _ H) as [V2 J2].
    split; [|auto]. rewrite V2, V1, <- List.app_assoc. reflexivity.
Qed.

(** X9: when no position is tagged and the rewriting succeeds, the call
    in the kernel body forwards one argument for every parameter, in
    the order of the declaration: the last token of the parameter with
    every [*] and [&] deleted and with the array-descriptor macros
    [BL_FORT_FAB_ARG_3D] and [BL_FORT_IFAB_ARG_3D] renamed to
    [BL_FORT_FAB_VAL_3D]; [lo] and [hi] are forwarded as the
    per-thread bounds [blo] and [bhi].  Both of these are among the
    arguments, [lo] and [hi] themselves never are, and the kernel body
    declares the local arrays [lo] and [hi], and no others, in front
    of the loops. *)
Theorem legacy_kernel_forwards_every_parameter
  (name sig0 : string) (tags' : tag_table) (pair : generated_pair) :
  rewrite_signature name sig0 ([] :: tags') = Ok pair ->
  exists dd decl ivs,
    decls_re_search sig0 = Some dd
    /\ let forwarded := map forward_name (Py.split "," (group3 dd)) in
       kernel pair
       = TEMPLATE decl (intvect_decls ivs)
           (case_name sig0 name ++ "_device" ++ "("
            ++ String.concat ", " forwarded ++ ")")
       /\ In "blo" forwarded /\ In "bhi" forwarded
       /\ Forall (fun a => ~ is_bound_name a) forwarded
       /\ In "lo" ivs /\ In "hi" ivs /\ Forall is_bound_name ivs.
Proof.
  intro H. unfold rewrite_signature in H.
  destruct (decls_re_search sig0) as [dd|] eqn:E; [|discriminate].
  destruct (rewrite_params sig0 ([] :: tags') 0 (Py.split "," (group3 dd)) _)
    as [st| |] eqn:R; cbn [bind] in H; try discriminate.
  destruct (legacy_params_forward _ _ _ _ _ _ R) as [V J].
  cbn [vars List.app] in V.
  assert (J0 : forwarding_inv st).
  { apply J. unfold forwarding_inv. cbn [vars intvect_vars has_lo has_hi].
    split; [constructor|]. split; [constructor|]. split; discriminate. }
  destruct J0 as (Fv & Fi & L & K).
  destruct (has_lo st); [|simpl in H; discriminate].
  destruct (has_hi st); [|simpl in H; discriminate].
  cbn [negb orb] in H. injection H as <-.
  exists dd. eexists. exists (intvect_vars st).
  split; [reflexivity|]. cbn [kernel]. rewrite <- V.
  split; [reflexivity|].
  destruct (L eq_refl) as [L1 L2]. destruct (K eq_refl) as [K1 K2].
  repeat split; assumption.
Qed.

Lemma legacy_kernel_forwards_every_parameter_witness :
  exists dd decl ivs,
    decls_re_search
      ("void baz(const int* lo, const int* hi, Real *dt, BL_FORT_FAB_ARG_3D(s));"
       ++ nl)
    = Some dd
    /\ map forward_name (Py.split "," (group3 dd))
       = ["blo"; "bhi"; "dt"; "BL_FORT_FAB_VAL_3D(s)"]
    /\ option_map kernel
         (match rewrite_signature "baz"
                  ("void baz(const int* lo, const int* hi, Real *dt, BL_FORT_FAB_ARG_3D(s));"
                   ++ nl) [[]]
          with Ok p => Some p | _ => None end)
       = Some (TEMPLATE decl (intvect_decls ivs)
                 "baz_device(blo, bhi, dt, BL_FORT_FAB_VAL_3D(s))").
Proof.
  destruct (rewrite_signature "baz"
              ("void baz(const int* lo, const int* hi, Real *dt, BL_FORT_FAB_ARG_3D(s));"
               ++ nl) [[]])
    as [pair| |] eqn:E; try (vm_compute in E; discriminate).
  destruct (legacy_kernel_forwards_every_parameter "baz"
              ("void baz(const int* lo, const int* hi, Real *dt, BL_FORT_FAB_ARG_3D(s));"
               ++ nl) []
              pair E) as (dd & decl & ivs & Hdd & Hk & _).
  exists dd, decl, ivs. split; [exact Hdd|].
  vm_compute in Hdd. injection Hdd as <-.
  split; [reflexivity|]. cbn [option_map]. rewrite Hk. reflexivity.
Defined.

(** ** How the conversion of a header can end *)

Lemma keys_dict_set_incl {V : Type} (d : dict V) (k : string) (v : V) :
  incl (keys (dict_set d k v)) (k :: keys d).
Proof.
  rewrite keys_dict_set. destruct (in_dec string_dec k (keys d)).
  - apply incl_tl, incl_refl.
  - intros x Hx. apply in_app_or in Hx. destruct Hx as [Hx | [<- | []]];
      [right; exact Hx | left; reflexivity].
Qed.

Lemma scan_expanded_completes (fuel : nat) (targets : dict tag_table) :
  forall line hin signatures r,
    scan_expanded fuel targets line hin signatures = Some r ->
    exists signatures',
      r = Ok signatures'
      /\ incl (keys signatures') (keys signatures ++ keys targets).
Proof.
  induction fuel as [|f IH]; intros line hin signatures r H; [discriminate|].
  destruct line as [|c line']; cbn [scan_expanded] in H.
  - injection H as <-. eexists; split; [reflexivity|]. apply incl_appl, incl_refl.
  - destruct (find_target (keys targets) (strip_comment (String c line')))
      as [found|] eqn:F.
    + destruct (accumulate f (String c line') hin EmptyString)
        as [[[acc last] h1]|]; [|discriminate].
      pose proof (find_target_in _ _ _ F) as Hin.
      destruct (dict_get_in targets found Hin) as [tags Ht]. rewrite Ht in H.
      destruct (readline h1) as [l2 h2].
      destruct (IH _ _ _ _ H) as (s' & -> & I).
      exists s'. split; [reflexivity|].
      intros x Hx. apply I in Hx. apply in_app_or in Hx.
      destruct Hx as [Hx | Hx]; [|apply in_or_app; right; exact Hx].
      apply keys_dict_set_incl in Hx. destruct Hx as [<- | Hx];
        apply in_or_app; [right | left]; assumption.
    + destruct (readline hin) as [l1 h1]. eapply IH; exact H.
Qed.

Lemma scan_original_completes (fuel : nat) (signatures : dict sig_entry) :
  forall line hin out needed r,
    scan_original fuel signatures line hin out needed = Some r ->
    exists out' needed',
      r = Ok (out', needed')
      /\ incl (keys needed') (keys needed ++ keys signatures).
Proof.
  induction fuel as [|f IH]; intros line hin out needed r H; [discriminate|].
  destruct line as [|c line']; cbn [scan_original] in H.
  - injection H as <-. eexists; eexists; split; [reflexivity|].
    apply incl_appl, incl_refl.
  - destruct (find_target (keys signatures) (strip_comment (String c line')))
      as [found|] eqn:F.
    + pose proof (find_target_in _ _ _ F) as Hin.
      destruct (dict_get_in signatures found Hin) as [entry He].
      rewrite He in H.
      destruct (capture_original f hin (String c line')) as [[sig h1]|];
        [|discriminate].
      destruct (readline h1) as [l2 h2].
      destruct (IH _ _ _ _ _ H) as (o' & n' & -> & I).
      exists o', n'. split; [reflexivity|].
      intros x Hx. apply I in Hx. apply in_app_or in Hx.
      destruct Hx as [Hx | Hx]; [|apply in_or_app; right; exact Hx].
      apply keys_dict_set_incl in Hx. destruct Hx as [<- | Hx];
        apply in_or_app; [right | left]; assumption.
    + destruct (readline hin) as [l1 h1]. eapply IH; exact H.
Qed.

Lemma rewrite_signature_failure (name sig0 : string) (tags : tag_table) :
  header_failure_allowed [name] (rewrite_signature name sig0 tags).
Proof.
  unfold rewrite_signature.
  destruct (decls_re_search sig0) as [dd|]; [|simpl; left; reflexivity].
  pose proof (rewrite_params_only_index_error sig0 tags
                (Py.split "," (group3 dd)) 0
                {| func_sig := sig0; device_sig := device_sig_start sig0 name;
                   has_lo := false; has_hi := false;
                   vars := []; intvect_vars := [] |}) as K.
  destruct (rewrite_params sig0 tags 0 (Py.split "," (group3 dd)) _)
    as [st| |e']; cbn [bind only_index_error] in *; try contradiction.
  - destruct (negb (has_lo st) || negb (has_hi st)); simpl; [|exact I].
    exists name, (func_sig st). split; [left; reflexivity | reflexivity].
  - simpl. right. exact K.
Qed.

Lemma emit_pairs_failures (signatures : dict sig_entry) (targets : list string)
  (names : list string) :
  incl names (keys signatures) -> incl names targets ->
  header_failure_allowed targets (emit_pairs signatures names).
Proof.
  induction names as [|name r IH]; intros Hs Ht; simpl; [exact I|].
  unfold lookup.
  destruct (dict_get_in signatures name (Hs name (or_introl eq_refl)))
    as [entry ->]. cbn [bind].
  pose proof (rewrite_signature_failure name (fst entry) (snd entry)) as K.
  destruct (rewrite_signature name (fst entry) (snd entry)) as [pair|msg|e];
    cbn [bind].
  - specialize (IH (fun x Hx => Hs x (or_intror Hx))
                   (fun x Hx => Ht x (or_intror Hx))).
    destruct (emit_pairs signatures r); cbn [bind]; [exact I | exact IH | exact IH].
  - destruct K as (name' & sig' & [<- | []] & ->).
    exists name, sig'. split; [apply Ht; left; reflexivity | reflexivity].
  - exact K.
Qed.

(** X10: once its files are open, the conversion of a header can fail
    in three ways only: an [AttributeError] or an [IndexError] raised
    while a signature is rewritten, or the exit for missing bounds,
    whose message names one of the targets.  No lookup in the
    registries ever fails, and the two scans themselves never fail:
    they complete or hang. *)
Theorem convert_header_failures
  (set_order : list string -> list string)
  (fuel : nat) (targets : dict tag_table) (hname : string)
  (expanded original : file) (r : result cuda_header) :
  (forall l, NoDup l -> Permutation (set_order l) l) ->
  convert_header set_order fuel targets hname expanded original = Some r ->
  header_failure_allowed (keys targets) r.
Proof.
  intros Hperm H. unfold convert_header in H.
  destruct (readline expanded) as [l0 h0].
  destruct (scan_expanded fuel targets l0 h0 []) as [r1|] eqn:E1;
    [|discriminate].
  destruct (scan_expanded_completes _ _ _ _ _ _ E1) as (sigs & -> & I1).
  destruct (readline original) as [l1 h1].
  destruct (scan_original fuel sigs l1 h1 [] []) as [r2|] eqn:E2;
    [|discriminate].
  destruct (scan_original_completes _ _ _ _ _ _ _ E2) as (out & needed & -> & I2).
  assert (D : NoDup (keys needed)).
  { eapply scan_original_keys_distinct; [|exact E2]. constructor. }
  assert (S1 : incl (set_order (keys needed)) (keys sigs)).
  { intros x Hx. apply (Permutation_in _ (Hperm _ D)) in Hx.
    apply I2 in Hx. exact Hx. }
  assert (S2 : incl (set_order (keys needed)) (keys targets)).
  { intros x Hx. apply S1 in Hx. apply I1 in Hx. exact Hx. }
  pose proof (emit_pairs_failures sigs (keys targets) _ S1 S2) as K.
  destruct (emit_pairs sigs (set_order (keys needed))) as [ps|msg|e];
    injection H as <-; [exact I | exact K | exact K].
Qed.

Lemma convert_header_failures_witness :
  header_failure_allowed ["baz"]
    (SysExit (A := cuda_header)
       (missing_bounds_message "baz"
          ("void baz(const int lo_1, const int lo_2, const int lo_3," ++ nl
           ++ "         Real* a);" ++ nl))).
Proof.
  apply (convert_header_failures id_order 10 [("baz", [[]])] "Src/Baz_F.H"
           [ "void baz(const int* lo," ++ nl; "         Real* a);" ++ nl ]
           [ "void baz(const int* lo," ++ nl; "         Real* a);" ++ nl ]).
  - intros l _. apply Permutation_refl.
  - vm_compute. reflexivity.
Defined.

(** ** What the new header copies from the original one *)

Lemma subseq_nil_l {A : Type} (l : list A) : subseq [] l.
Proof. induction l; constructor; assumption. Qed.

Lemma subseq_app_skip {A : Type} (pre kept l : list A) :
  subseq kept l -> subseq kept (pre ++ l)%list.
Proof. intro H. induction pre; simpl; [exact H | constructor; exact IHpre]. Qed.

Lemma capture_original_leaves_suffix (fuel : nat) :
  forall hin sig sig' h1,
    capture_original fuel hin sig = Some (sig', h1) ->
    exists pre, hin = (pre ++ h1)%list.
Proof.
  induction fuel as [|f IH]; intros hin sig sig' h1 H; [discriminate|].
  destruct hin as [|l rest]; cbn [capture_original readline] in H.
  - change (ends_statement EmptyString) with false in H.
    destruct (IH _ _ _ _ H) as [pre Hp]. exists pre; exact Hp.
  - destruct (ends_statement l).
    + injection H as _ <-. exists [l]; reflexivity.
    + destruct (IH _ _ _ _ H) as [pre ->]. exists (l :: pre); reflexivity.
Qed.

Lemma scan_original_copy (fuel : nat) (signatures : dict sig_entry) :
  forall h out needed out' needed',
    scan_original fuel signatures (fst (readline h)) (snd (readline h))
      out needed = Some (Ok (out', needed')) ->
    exists kept,
      out' = (out ++ kept)%list
      /\ subseq kept h
      /\ Forall (fun l => find_target (keys signatures) (strip_comment l) = None)
           kept.
Proof.
  induction fuel as [|f IH]; intros h out needed out' needed' H; [discriminate|].
  destruct h as [|l rest]; cbn [readline fst snd] in H.
  - cbn [scan_original] in H. injection H as <- _.
    exists []. rewrite app_nil_r. repeat split; constructor.
  - destruct l as [|c l']; cbn [scan_original] in H.
    + injection H as <- _. exists []. rewrite app_nil_r.
      split; [reflexivity|]. split; [apply subseq_nil_l | constructor].
    + destruct (find_target (keys signatures) (strip_comment (String c l')))
        as [found|] eqn:F.
      * destruct (dict_get signatures found) as [entry|]; [|discriminate].
        destruct (capture_original f rest (String c l')) as [[sig h1]|] eqn:C;
          [|discriminate].
        destruct (capture_original_leaves_suffix _ _ _ _ _ C) as [pre ->].
        rewrite (surjective_pairing (readline h1)) in H.
        destruct (IH _ _ _ _ _ H) as (kept & -> & S & U).
        exists kept. split; [reflexivity|]. split; [|exact U].
        constructor. apply subseq_app_skip. exact S.
      * rewrite (surjective_pairing (readline rest)) in H.
        destruct (IH _ _ _ _ _ H) as (kept & -> & S & U).
        exists (String c l' :: kept). split.
        -- rewrite <- app_assoc. reflexivity.
        -- split; [constructor; exact S | constructor; [exact F | exact U]].
Qed.

(** X11: what the new header takes over from the original one is the
    original one with some lines left out: no line is added, changed or
    moved.  On none of the lines taken over does the search for a
    Fortran binding find the name of a function for which a pair was
    generated. *)
Theorem copied_lines_are_original_lines
  (set_order : list string -> list string)
  (fuel : nat) (targets : dict tag_table) (hname : string)
  (expanded original : file) (hdr : cuda_header) :
  (forall l, NoDup l -> Permutation (set_order l) l) ->
  convert_header set_order fuel targets hname expanded original
  = Some (Ok hdr) ->
  subseq (copied hdr) original
  /\ Forall (fun l =>
               forall name, In name (map fst (pairs hdr)) ->
                 fortran_binding_re_search (Py.lower (strip_comment l))
                 <> Some name)
       (copied hdr).
Proof.
  intros Hperm H. unfold convert_header in H.
  destruct (readline expanded) as [l0 h0].
  destruct (scan_expanded fuel targets l0 h0 []) as [[sigs|?|?]|];
    try discriminate.
  rewrite (surjective_pairing (readline original)) in H.
  destruct (scan_original fuel sigs (fst (readline original))
              (snd (readline original)) [] []) as [[[out needed]|?|?]|] eqn:E2;
    try discriminate.
  destruct (scan_original_copy _ _ _ _ _ _ _ E2) as (kept & Ho & S & U).
  simpl in Ho. subst out.
  destruct (scan_original_completes _ _ _ _ _ _ _ E2) as (o & n & Eq & I2).
  injection Eq as <- <-.
  assert (D : NoDup (keys needed)).
  { eapply scan_original_keys_distinct; [|exact E2]. constructor. }
  destruct (emit_pairs sigs (set_order (keys needed))) as [ps|?|?] eqn:E3;
    try discriminate.
  injection H as <-. cbn [copied pairs].
  split; [exact S|].
  destruct (emit_pairs_names _ _ _ E3) as [N _]. rewrite N.
  eapply Forall_impl; [|exact U]. cbn beta.
  intros l Hl name Hn Hs.
  apply (Permutation_in _ (Hperm _ D)) in Hn. apply I2 in Hn. simpl in Hn.
  assert (F : find_target (keys sigs) (strip_comment l) = Some name).
  { apply find_target_spec. split; assumption. }
  congruence.
Qed.

Lemma copied_lines_are_original_lines_witness :
  exists hdr,
    convert_header id_order 20 [("bar", [[]])] "Src/Bar_F.H"
      header_bar_between header_bar_between
    = Some (Ok hdr)
    /\ copied hdr = [ "#include <AMReX_REAL.H>" ++ nl; "int keep_me;" ++ nl ]
    /\ map fst (pairs hdr) = ["bar"]
    /\ subseq (copied hdr) header_bar_between.
Proof.
  eexists. split; [vm_compute; reflexivity|].
  split; [reflexivity|]. split; [reflexivity|].
  refine (proj1 (copied_lines_are_original_lines id_order 20 [("bar", [[]])]
                   "Src/Bar_F.H" header_bar_between header_bar_between _ _ _)).
  - intros l _. apply Permutation_refl.
  - vm_compute. reflexivity.
Defined.

(** ** The registry of signatures *)

Lemma lower_app (a b : string) : Py.lower (a ++ b) = Py.lower a ++ Py.lower b.
Proof. induction a as [|c a IH]; simpl; [reflexivity | now rewrite IH]. Qed.

Lemma lower_take (n : nat) (s : string) :
  Py.lower (Py.take n s) = Py.take n (Py.lower s).
Proof.
  revert s; induction n as [|n IH]; intros [|c s]; simpl; try reflexivity.
  now rewrite IH.
Qed.

Lemma lower_drop (n : nat) (s : string) :
  Py.lower (Py.drop n s) = Py.drop n (Py.lower s).
Proof.
  revert s; induction n as [|n IH]; intros [|c s]; simpl; try reflexivity.
  apply IH.
Qed.

Lemma index_of_some (q s : string) (i : nat) :
  Py.index_of q s = Some i ->
  prefix q (Py.drop i s) = true /\ i + String.length q <= String.length s.
Proof.
  revert i; induction s as [|c s IH]; intros i H; rewrite index_of_unfold in H.
  - destruct (prefix q EmptyString) eqn:P; [|discriminate].
    injection H as <-. split; [exact P|]. apply prefix_length in P. simpl in *. lia.
  - destruct (prefix q (String c s)) eqn:P.
    + injection H as <-. split; [exact P|]. apply prefix_length in P. simpl in *. lia.
    + destruct (Py.index_of q s) as [j|]; [|discriminate].
      injection H as <-. destruct (IH j eq_refl) as [P' L].
      split; [exact P' | simpl; lia].
Qed.

Lemma index_of_app_found (q a b : string) :
  exists i, Py.index_of q (a ++ q ++ b) = Some i.
Proof.
  pose proof (contains_app q a b) as H. unfold Py.contains in H.
  destruct (Py.index_of q (a ++ q ++ b)) as [i|]; [exists i; reflexivity | discriminate].
Qed.

Lemma strip_comment_is_take (line : string) :
  exists n, strip_comment line = Py.take n line.
Proof.
  unfold strip_comment, Py.slice. rewrite Nat.sub_0_r, drop_0.
  eexists; reflexivity.
Qed.

Lemma accumulate_starts_with_line (fuel : nat) :
  forall line hin acc acc' last h1,
    accumulate fuel line hin acc = Some (acc', last, h1) ->
    exists more, acc' ++ last = acc ++ line ++ more.
Proof.
  induction fuel as [|f IH]; intros line hin acc acc' last h1 H; [discriminate|].
  cbn [accumulate] in H. destruct (ends_statement line).
  - injection H as <- <- _. exists EmptyString. now rewrite app_nil_r_s.
  - destruct (readline hin) as [l' h'].
    destruct (IH _ _ _ _ _ _ H) as [more ->].
    exists (l' ++ more). now rewrite app_assoc_s.
Qed.

Lemma found_name_in_text (names : list string) (line more found : string) :
  find_target names (strip_comment line) = Some found ->
  exists a b, Py.lower (line ++ more) = a ++ found ++ b.
Proof.
  intro F. apply find_target_matches in F.
  apply search_spec in F. destruct F as (pre & rest & E & B & _).
  destruct B as (kw & ws & rest' & -> & _).
  destruct (strip_comment_is_take line) as [n T]. rewrite T in E.
  exists (pre ++ kw ++ ws), (rest' ++ Py.lower (Py.drop n line ++ more)).
  rewrite <- (take_drop n line) at 1.
  rewrite app_assoc_s, lower_app, E.
  now rewrite !app_assoc_s.
Qed.

Lemma name_in_text_sound (sig name a b : string) :
  Py.lower sig = a ++ name ++ b ->
  (0 <= name_index sig name)%Z /\ Py.lower (case_name sig name) = name.
Proof.
  intro E. unfold case_name, name_index, Py.find.
  destruct (index_of_app_found name a b) as [i Hi]. rewrite E, Hi.
  split; [lia|].
  destruct (index_of_some _ _ _ Hi) as [P L].
  rewrite <- E in P, L. rewrite length_lower in L.
  unfold Py.slice, Py.norm_bound.
  assert ((Z.of_nat i <? 0)%Z = false) as -> by (apply Z.ltb_ge; lia).
  assert ((Z.of_nat i + Z.of_nat (String.length name) <? 0)%Z = false) as ->
    by (apply Z.ltb_ge; lia).
  rewrite Nat2Z.id, <- Nat2Z.inj_add, Nat2Z.id.
  rewrite !Nat.min_l by lia.
  replace (i + String.length name - i) with (String.length name) by lia.
  rewrite lower_take, lower_drop.
  rewrite (prefix_decompose _ _ P). apply take_app.
Qed.

Lemma Forall_dict_set {V : Type} (P : string * V -> Prop) (d : dict V)
  (k : string) (v : V) :
  Forall P d -> P (k, v) -> Forall P (dict_set d k v).
Proof.
  intros H Hk. induction d as [|[k' v'] r IH]; simpl.
  - constructor; [exact Hk | constructor].
  - inversion H; subst. destruct (String.eqb k k').
    + constructor; assumption.
    + constructor; [assumption | apply IH; assumption].
Qed.

Lemma scan_expanded_entries_sound (fuel : nat) (targets : dict tag_table) :
  forall line hin signatures signatures',
    Forall (entry_sound targets) signatures ->
    scan_expanded fuel targets line hin signatures = Some (Ok signatures') ->
    Forall (entry_sound targets) signatures'.
Proof.
  induction fuel as [|f IH]; intros line hin signatures signatures' Inv H;
    [discriminate|].
  destruct line as [|c line']; cbn [scan_expanded] in H.
  - injection H as <-. exact Inv.
  - destruct (find_target (keys targets) (strip_comment (String c line')))
      as [found|] eqn:F.
    + destruct (accumulate f (String c line') hin EmptyString)
        as [[[acc last] h1]|] eqn:A; [|discriminate].
      destruct (dict_get targets found) as [tags|] eqn:G; [|discriminate].
      destruct (readline h1) as [l2 h2].
      eapply IH; [|exact H]. apply Forall_dict_set; [exact Inv|].
      destruct (accumulate_starts_with_line _ _ _ _ _ _ _ A) as [more M].
      cbn [append] in M.
      destruct (found_name_in_text _ _ more _ F) as (a & b & E).
      unfold entry_sound; cbn [fst snd]. split; [exact G|].
      apply (name_in_text_sound _ _ a b). rewrite M. exact E.
    + destruct (readline hin) as [l1 h1]. eapply IH; [exact Inv | exact H].
Qed.

(** X12: after the scan of the preprocessed header every entry of the
    registry of signatures belongs to a target and carries that
    target's tag table; the search for the name in the lowered text of
    the entry succeeds, so the index used when the kernel is written is
    never -1; and the text cut out at that index is the name up to the
    case of its letters. *)
Theorem registry_entries_are_sound
  (fuel : nat) (targets : dict tag_table) (expanded : file)
  (signatures : dict sig_entry) :
  scan_expanded fuel targets (fst (readline expanded)) (snd (readline expanded))
    [] = Some (Ok signatures) ->
  Forall (entry_sound targets) signatures.
Proof.
  intro H. eapply scan_expanded_entries_sound; [|exact H]. constructor.
Qed.

Lemma registry_entries_are_sound_witness :
  Forall (entry_sound [("bar", [[]])])
    [("bar", ("void BAR(const int* lo, const int* hi," ++ nl
              ++ "         Real* a);" ++ nl, [[]]))].
Proof.
  apply (registry_entries_are_sound 20 [("bar", [[]])]
           [ "#include <AMReX_REAL.H>" ++ nl;
             "void BAR(const int* lo, const int* hi," ++ nl;
             "         Real* a);" ++ nl;
             "int keep_me;" ++ nl ]).
  vm_compute. reflexivity.
Defined.

(** ** When rewriting a signature raises [IndexError] *)

Lemma rewrite_param_blank (sig0 : string) (tags : tag_table) (n : nat)
  (v : string) (st : rw_state) :
  blank v -> rewrite_param sig0 tags n v st = Raise IndexError.
Proof.
  unfold blank, rewrite_param, item_last. intros ->. reflexivity.
Qed.

Lemma rewrite_params_blank (sig0 : string) (tags : tag_table)
  (ps : list string) :
  Exists blank ps ->
  forall n st, rewrite_params sig0 tags n ps st = Raise IndexError.
Proof.
  induction ps as [|v r IH]; intros H n st; [inversion H|].
  cbn [rewrite_params].
  pose proof (rewrite_param_only_index_error sig0 tags n v st) as K.
  destruct (rewrite_param sig0 tags n v st) as [st'| |e] eqn:P;
    cbn [bind only_index_error] in *; [|contradiction|now subst e].
  inversion H as [? ? Hv | ? ? Hr]; subst.
  - rewrite (rewrite_param_blank _ _ _ _ _ Hv) in P. discriminate.
  - apply IH; exact Hr.
Qed.

Lemma blank_or_not (ps : list string) :
  Exists blank ps \/ Forall (fun v => Py.words v <> []) ps.
Proof.
  induction ps as [|v r [IH | IH]].
  - right; constructor.
  - left. apply Exists_cons_tl; exact IH.
  - unfold blank. destruct (Py.words v) as [|w ws] eqn:W.
    + left. apply Exists_cons_hd; exact W.
    + right. constructor; [rewrite W; discriminate | exact IH].
Qed.

(** X13: for a signature with a parenthesised parameter list and a tag
    table with an entry, rewriting raises [IndexError] exactly when one
    of the comma-separated parameters is blank (as in an empty list, or
    after a trailing comma); a tagged position never raises it, since
    the position of a parameter is always inside the argument list. *)
Theorem index_error_iff_blank_parameter
  (name sig0 : string) (tags : tag_table) (dd : decls_match) :
  decls_re_search sig0 = Some dd -> tags <> [] ->
  (rewrite_signature name sig0 tags = Raise IndexError
   <-> Exists blank (Py.split "," (group3 dd))).
Proof.
  intros Hdd Ht. unfold rewrite_signature. rewrite Hdd.
  set (st0 := {| func_sig := sig0; device_sig := device_sig_start sig0 name;
                 has_lo := false; has_hi := false;
                 vars := []; intvect_vars := [] |}).
  split.
  - intro H. destruct (blank_or_not (Py.split "," (group3 dd))) as [B | N];
      [exact B|]. exfalso.
    destruct (rewrite_params_ok sig0 tags dd Hdd Ht
                (Py.split "," (group3 dd)) [] st0 eq_refl N) as [st R].
    cbn [List.length] in R. rewrite R in H. cbn [bind] in H.
    destruct (negb (has_lo st) || negb (has_hi st)); discriminate.
  - intro B. rewrite (rewrite_params_blank _ _ _ B). reflexivity.
Qed.

Lemma index_error_iff_blank_parameter_witness :
  rewrite_signature "foo" ("void foo(const int* lo, const int* hi, );" ++ nl)
    [[]] = Raise IndexError.
Proof.
  apply (proj2 (index_error_iff_blank_parameter "foo"
                  ("void foo(const int* lo, const int* hi, );" ++ nl) [[]]
                  {| group1 := "void foo";
                     group3 := "const int* lo, const int* hi, " |}
                  eq_refl ltac:(discriminate))).
  apply Exists_cons_tl, Exists_cons_tl, Exists_cons_hd. reflexivity.
Defined.

(** ** The include guard *)

Lemma split_app_sep (c : ascii) (a b : string) :
  exists f fs, Py.split c (a ++ String c b) = (f :: fs ++ Py.split c b)%list.
Proof.
  induction a as [|x a (f & fs & IH)]; cbn [append Py.split].
  - rewrite Ascii.eqb_refl. exists EmptyString, []. reflexivity.
  - rewrite IH. destruct (Ascii.eqb x c).
    + exists EmptyString, (f :: fs). reflexivity.
    + exists (String x f), fs. reflexivity.
Qed.

Lemma last_app_nonempty {A : Type} (f l : list A) (d : A) :
  l <> [] -> List.last (f ++ l) d = List.last l d.
Proof.
  intro N. induction f as [|x f IH]; [reflexivity|].
  cbn [List.app List.last]. destruct (f ++ l)%list eqn:E; [|exact IH].
  apply app_eq_nil in E. destruct E; contradiction.
Qed.

Lemma last_split_after_sep (c : ascii) (a b : string) :
  List.last (Py.split c (a ++ String c b)) EmptyString
  = List.last (Py.split c b) EmptyString.
Proof.
  destruct (split_app_sep c a b) as (f & fs & ->).
  change (f :: fs ++ Py.split c b)%list with ((f :: fs) ++ Py.split c b)%list.
  apply last_app_nonempty. apply (split_pieces c b).
Qed.

Lemma strip_chars_leading (chars : string) (c : ascii) (s : string) :
  Py.mem_char c chars = true ->
  Py.strip_chars chars (String c s) = Py.strip_chars chars s.
Proof.
  intro M. unfold Py.strip_chars. cbn [Py.rstrip_chars].
  destruct (Py.rstrip_chars chars s) as [|d r].
  - rewrite M. reflexivity.
  - cbn [Py.lstrip_chars]. rewrite M. reflexivity.
Qed.

(** X14: the include guard is the base name of the header without the
    characters [.] and [H] at its two ends, not without the extension
    [.H]: a base name that starts with [H] loses it, so two headers
    whose base names differ by a leading [H] get the same guard. *)
Theorem guard_drops_leading_H (dir base : string) :
  no_char "/" base ->
  guard_name (dir ++ "/" ++ "H" ++ base) = guard_name (dir ++ "/" ++ base)
  /\ guard_name (dir ++ "/" ++ base) = Py.strip_chars ".H" base.
Proof.
  intro N. unfold guard_name.
  change (dir ++ "/" ++ "H" ++ base) with (dir ++ String "/" (String "H" base)).
  change (dir ++ "/" ++ base) with (dir ++ String "/" base).
  rewrite !last_split_after_sep.
  assert (S : Py.split "/" base = [base]).
  { clear dir. induction base as [|x b IH]; [reflexivity|].
    apply no_char_cons in N. destruct N as [E N].
    cbn [Py.split]. rewrite E, (IH N). reflexivity. }
  cbn [Py.split]. change (Ascii.eqb "H" "/") with false. cbn iota.
  rewrite S. cbn [List.last].
  split; [apply strip_chars_leading; reflexivity | reflexivity].
Qed.

Lemma guard_drops_leading_H_witness :
  guard_name "Src/HYDRO_F.H" = guard_name "Src/YDRO_F.H"
  /\ guard_name "Src/YDRO_F.H" = "YDRO_F".
Proof.
  destruct (guard_drops_leading_H "Src" "YDRO_F.H" eq_refl) as [A B].
  split; [exact A | etransitivity; [exact B | reflexivity]].
Defined.

(** ** The defines that are excluded *)

Lemma replace_go_absent (q new : string) (s : string) :
  q <> EmptyString -> Py.contains q s = false -> Py.replace_go q new 0 s = s.
Proof.
  intro Hq. induction s as [|c s IH]; intro H; [reflexivity|].
  apply contains_tail_false in H. destruct H as [P H].
  rewrite replace_go_unfold, P, (IH H). reflexivity.
Qed.

Lemma replace_go_first (q new : string) :
  q <> EmptyString ->
  forall s i,
    Py.index_of q s = Some i ->
    Py.replace_go q new 0 s
    = Py.take i s ++ new
      ++ Py.replace_go q new 0 (Py.drop (i + String.length q) s).
Proof.
  intro Hq. induction s as [|c s IH]; intros i H; rewrite index_of_unfold in H.
  - destruct q as [|a q]; [contradiction | discriminate].
  - rewrite replace_go_unfold. destruct (prefix q (String c s)) eqn:P.
    + injection H as <-. destruct q as [|a q]; [contradiction|].
      replace (String.length (String a q) - 1) with (String.length q)
        by (cbn [String.length]; lia).
      reflexivity.
    + destruct (Py.index_of q s) as [j|]; [|discriminate].
      injection H as <-. rewrite (IH j eq_refl). reflexivity.
Qed.

Lemma filter_defines_one (d ex : string) :
  Py.words ex = [ex] ->
  ex <> EmptyString /\ filter_defines d ex = Py.replace_go ex EmptyString 0 d.
Proof.
  intro W. destruct ex as [|a ex]; [discriminate|].
  split; [discriminate|].
  unfold filter_defines. rewrite W. reflexivity.
Qed.

(** X15: an exclusion is taken out as a piece of text, not as a word of
    the defines.  With one exclusion [ex]: defines in which [ex] does
    not occur are left as they are; otherwise the first occurrence is
    cut out wherever it stands, also inside a longer word, nothing else
    before it changes, and what follows it is filtered in the same
    way. *)
Theorem exclusion_cuts_text (a ex b : string) :
  Py.words ex = [ex] ->
  (Py.contains ex a = false -> filter_defines a ex = a)
  /\ (Py.index_of ex (a ++ ex ++ b) = Some (String.length a) ->
      filter_defines (a ++ ex ++ b) ex = a ++ filter_defines b ex).
Proof.
  intro W. split.
  - intro H. destruct (filter_defines_one a ex W) as [N ->].
    apply replace_go_absent; assumption.
  - intro H. destruct (filter_defines_one (a ++ ex ++ b) ex W) as [N ->].
    destruct (filter_defines_one b ex W) as [_ ->].
    rewrite (replace_go_first ex EmptyString N _ _ H).
    rewrite take_app. cbn [append].
    rewrite <- drop_drop, drop_app, drop_app. reflexivity.
Qed.

Lemma exclusion_cuts_text_witness :
  filter_defines "-DAMREX_DEBUG -DDIM=3" "-DBL" = "-DAMREX_DEBUG -DDIM=3"
  /\ filter_defines "-DDIM=3 -DAMREX_DEBUG_EXTRA" "-DAMREX_DEBUG"
     = "-DDIM=3 _EXTRA".
Proof.
  split.
  - apply (proj1 (exclusion_cuts_text "-DAMREX_DEBUG -DDIM=3" "-DBL"
                    EmptyString eq_refl)).
    reflexivity.
  - etransitivity;
      [exact (proj2 (exclusion_cuts_text "-DDIM=3 " "-DAMREX_DEBUG" "_EXTRA"
                       eq_refl) eq_refl)
      | reflexivity].
Defined.

(** ** The call that the kernel forwards when positions are tagged *)

Lemma tagged_loop_forward (args : list string) (n : nat) (v tok : string) :
  nth_error args n = Some v -> Py.last_item (Py.words v) = Some tok ->
  forall ps var st,
    exists st',
      tagged_loop args n ps var st
      = Ok (if existsb (Nat.eqb n) ps then tok else var, st')
      /\ vars st' = vars st
      /\ intvect_vars st'
         = (intvect_vars st ++ repeat tok (count_occ Nat.eq_dec ps n))%list.
Proof.
  intros Hn Ht ps. induction ps as [|p r IH]; intros var st.
  - exists st. cbn [tagged_loop existsb count_occ repeat].
    rewrite List.app_nil_r. auto.
  - cbn [tagged_loop existsb count_occ].
    destruct (Nat.eqb n p) eqn:E.
    + apply Nat.eqb_eq in E. subst p. unfold item, item_last.
      rewrite Hn. cbn [bind]. rewrite Ht. cbn [bind].
      destruct (Nat.eq_dec n n) as [_|N]; [|contradiction].
      edestruct IH as (st' & -> & V & W). exists st'.
      cbn [orb]. split; [destruct (existsb (Nat.eqb n) r); reflexivity|].
      cbn [vars intvect_vars] in V, W. split; [exact V|].
      rewrite W, <- List.app_assoc. reflexivity.
    + apply Nat.eqb_neq in E.
      destruct (Nat.eq_dec p n) as [N|_]; [subst; contradiction|].
      cbn [orb]. apply IH.
Qed.

Lemma bound_step_forward (var : string) (st : rw_state) :
  vars (bound_step var st) = (vars st ++ [thread_bound var])%list
  /\ intvect_vars (bound_step var st) = intvect_vars st.
Proof.
  unfold bound_step, thread_bound.
  destruct (String.eqb var "lo"); [split; reflexivity|].
  destruct (String.eqb var "hi"); split; reflexivity.
Qed.

Lemma tagged_param_forward (sig0 : string) (dd : decls_match)
  (p : nat) (ps : list nat) (tags' : tag_table) (n : nat) (v : string)
  (st st' : rw_state) :
  decls_re_search sig0 = Some dd ->
  nth_error (Py.split "," (group3 dd)) n = Some v ->
  rewrite_param sig0 ((p :: ps) :: tags') n v st = Ok st' ->
  vars st' = (vars st ++ forward_tagged (p :: ps) n [v])%list
  /\ intvect_vars st'
     = (intvect_vars st ++ local_arrays (p :: ps) n [v])%list.
Proof.
  intros Hdd Hn P. unfold rewrite_param, item_last in P.
  destruct (Py.last_item (Py.words v)) as [tok|] eqn:T; cbn [bind] in P;
    [|discriminate].
  destruct (signature_inner _ _ Hdd) as (aft & A1 & A2).
  rewrite A1 in P. cbn [bind] in P. rewrite A2 in P.
  cbn [bind item nth_error] in P.
  destruct (tagged_loop_forward _ _ _ _ Hn T (p :: ps) (param_var tok) st)
    as (st1 & L & V & W).
  rewrite L in P. cbn [bind fst snd] in P. injection P as <-.
  destruct (bound_step_forward
              (if existsb (Nat.eqb n) (p :: ps) then tok else param_var tok) st1)
    as [B1 B2].
  change ((n =? p)%nat || existsb (Nat.eqb n) ps)%bool
    with (existsb (Nat.eqb n) (p :: ps)).
  rewrite B1, B2, V, W.
  cbn [forward_tagged local_arrays]. unfold raw_name. rewrite T.
  rewrite <- (param_var_bare tok (last_word_spaceless _ _ T)).
  rewrite List.app_nil_r. split; reflexivity.
Qed.

Lemma forward_tagged_app (ps : list nat) (a b : list string) :
  forall n,
    forward_tagged ps n (a ++ b)
    = (forward_tagged ps n a ++ forward_tagged ps (List.length a + n) b)%list.
Proof.
  induction a as [|v a IH]; intro n; [reflexivity|].
  cbn [List.app forward_tagged List.length]. rewrite IH.
  replace (List.length a + S n) with (S (List.length a + n)) by lia.
  reflexivity.
Qed.

Lemma local_arrays_app (ps : list nat) (a b : list string) :
  forall n,
    local_arrays ps n (a ++ b)
    = (local_arrays ps n a ++ local_arrays ps (List.length a + n) b)%list.
Proof.
  induction a as [|v a IH]; intro n; [reflexivity|].
  cbn [List.app local_arrays List.length]. rewrite IH, <- List.app_assoc.
  replace (List.length a + S n) with (S (List.length a + n)) by lia.
  reflexivity.
Qed.

Lemma tagged_params_forward (sig0 : string) (dd : decls_match)
  (p : nat) (ps : list nat) (tags' : tag_table) :
  decls_re_search sig0 = Some dd ->
  forall rest done st st',
    Py.split "," (group3 dd) = (done ++ rest)%list ->
    rewrite_params sig0 ((p :: ps) :: tags') (List.length done) rest st = Ok st' ->
    vars st'
    = (vars st ++ forward_tagged (p :: ps) (List.length done) rest)%list
    /\ intvect_vars st'
       = (intvect_vars st ++ local_arrays (p :: ps) (List.length done) rest)%list.
Proof.
  intros Hdd rest. induction rest as [|v r IH]; intros done st st' Hs H;
    cbn [rewrite_params] in H.
  - injection H as <-. cbn [forward_tagged local_arrays].
    rewrite !List.app_nil_r. auto.
  - destruct (rewrite_param sig0 ((p :: ps) :: tags') (List.length done) v st)
      as [st1| |] eqn:P; cbn [bind] in H; try discriminate.
    assert (Hn : nth_error (Py.split "," (group3 dd)) (List.length done) = Some v).
    { rewrite Hs, nth_error_app2, Nat.sub_diag by lia. reflexivity. }
    destruct (tagged_param_forward _ _ _ _ _ _ _ _ _ Hdd Hn P) as [V1 W1].
    replace (S (List.length done)) with (List.length (done ++ [v])%list) in H
      by (rewrite length_app; simpl; lia).
    destruct (IH (done ++ [v])%list st1 st') as [V2 W2];
      [rewrite <- List.app_assoc; exact Hs | exact H |].
    rewrite length_app in V2, W2. cbn [List.length] in V2, W2.
    change (v :: r) with ([v] ++ r)%list.
    rewrite forward_tagged_app, local_arrays_app. cbn [List.length].
    rewrite V2, W2, V1, W1, <- !List.app_assoc.
    replace (1 + List.length done) with (List.length done + 1) by lia.
    split; reflexivity.
Qed.

(** X16: when positions are tagged for the target and the rewriting
    succeeds, the call in the kernel body forwards one argument for
    every parameter, in the order of the declaration: at a tagged
    position the last token of the parameter as it is written,
    elsewhere the last token with every [*] and [&] deleted and with
    the array-descriptor macros [BL_FORT_FAB_ARG_3D] and
    [BL_FORT_IFAB_ARG_3D] renamed to [BL_FORT_FAB_VAL_3D]; [lo] and
    [hi] are forwarded as [blo] and [bhi].  The local arrays declared
    in front of the loops are those of the tagged positions, in that
    order. *)
Theorem tagged_kernel_forwards_every_parameter
  (name sig0 : string) (p : nat) (ps : list nat) (tags' : tag_table)
  (pair : generated_pair) :
  rewrite_signature name sig0 ((p :: ps) :: tags') = Ok pair ->
  exists dd decl,
    decls_re_search sig0 = Some dd
    /\ let params := Py.split "," (group3 dd) in
       kernel pair
       = TEMPLATE decl (intvect_decls (local_arrays (p :: ps) 0 params))
           (case_name sig0 name ++ "_device" ++ "("
            ++ String.concat ", " (forward_tagged (p :: ps) 0 params) ++ ")")
       /\ In "blo" (forward_tagged (p :: ps) 0 params)
       /\ In "bhi" (forward_tagged (p :: ps) 0 params).
Proof.
  intro H. unfold rewrite_signature in H.
  destruct (decls_re_search sig0) as [dd|] eqn:E; [|discriminate].
  destruct (rewrite_params sig0 ((p :: ps) :: tags') 0
              (Py.split "," (group3 dd)) _) as [st| |] eqn:R;
    cbn [bind] in H; try discriminate.
  destruct (tagged_params_forward _ _ _ _ _ E _ [] _ _ eq_refl R) as [V W].
  cbn [vars intvect_vars List.app List.length] in V, W.
  assert (F : (has_lo st = true -> In "blo" (vars st))
              /\ (has_hi st = true -> In "bhi" (vars st))).
  { clear H V W.
    assert (G : forall rest n st0 st1,
               rewrite_params sig0 ((p :: ps) :: tags') n rest st0 = Ok st1 ->
               ((has_lo st0 = true -> In "blo" (vars st0)) ->
                (has_lo st1 = true -> In "blo" (vars st1)))
               /\ ((has_hi st0 = true -> In "bhi" (vars st0)) ->
                   (has_hi st1 = true -> In "bhi" (vars st1)))).
    { induction rest as [|v r IH]; intros n st0 st1 H; cbn [rewrite_params] in H.
      - injection H as <-. auto.
      - destruct (rewrite_param sig0 ((p :: ps) :: tags') n v st0)
          as [st2| |] eqn:P; cbn [bind] in H; try discriminate.
        destruct (IH _ _ _ H) as [I1 I2].
        assert (K : ((has_lo st0 = true -> In "blo" (vars st0)) ->
                     (has_lo st2 = true -> In "blo" (vars st2)))
                    /\ ((has_hi st0 = true -> In "bhi" (vars st0)) ->
                        (has_hi st2 = true -> In "bhi" (vars st2)))).
        { clear H I1 I2 IH. unfold rewrite_param in P.
          destruct (item_last (Py.words v)) as [tok| |]; cbn [bind] in P;
            try discriminate.
          destruct (item (Py.split1 "(" sig0) 1) as [aft| |]; cbn [bind] in P;
            try discriminate.
          destruct (item (Py.rsplit1 ")" aft) 0) as [inner| |]; cbn [bind] in P;
            try discriminate.
          cbn [item nth_error bind] in P.
          destruct (tagged_loop (Py.split "," inner) n (p :: ps) (param_var tok) st0)
            as [[var s3]| |] eqn:L; cbn [bind fst snd] in P; try discriminate.
          injection P as <-.
          destruct (tagged_loop_result _ _ _ _ _ _ _ L) as (L1 & L2 & _).
          assert (V3 : vars s3 = vars st0).
          { clear - L. revert L. generalize (param_var tok) as x. revert st0.
            induction (p :: ps) as [|q qs IHq]; intros st0 x L;
              cbn [tagged_loop] in L.
            - injection L as _ <-. reflexivity.
            - destruct (Nat.eqb n q).
              + destruct (item (Py.split "," inner) q) as [arg| |];
                  cbn [bind] in L; try discriminate.
                destruct (item_last (Py.words arg)) as [t| |];
                  cbn [bind] in L; try discriminate.
                apply IHq in L. exact L.
              + apply IHq in L. exact L. }
          unfold bound_step.
          destruct (String.eqb var "lo").
          { cbn [has_lo has_hi vars]. rewrite V3, L2. split; intros A B.
            - apply in_or_app. right. left. reflexivity.
            - apply in_or_app. left. auto. }
          destruct (String.eqb var "hi").
          { cbn [has_lo has_hi vars]. rewrite V3, L1. split; intros A B.
            - apply in_or_app. left. auto.
            - apply in_or_app. right. left. reflexivity. }
          cbn [has_lo has_hi vars]. rewrite V3, L1, L2. split; intros A B;
            apply in_or_app; left; auto. }
        destruct K as [K1 K2]. split; auto. }
    destruct (G _ _ _ _ R) as [G1 G2]. cbn [has_lo has_hi vars] in G1, G2.
    split; [apply G1 | apply G2]; discriminate. }
  destruct F as [F1 F2].
  destruct (has_lo st); [|simpl in H; discriminate].
  destruct (has_hi st); [|simpl in H; discriminate].
  cbn [negb orb] in H. injection H as <-.
  exists dd. eexists. split; [reflexivity|]. cbn [kernel].
  rewrite <- V, <- W. split; [reflexivity|].
  split; [apply F1 | apply F2]; reflexivity.
Qed.

Lemma tagged_kernel_forwards_every_parameter_witness :
  exists dd decl,
    decls_re_search
      ("void baz(const int* lo, const int *hi, Real& dt, BL_FORT_IFAB_ARG_3D(m));"
       ++ nl)
    = Some dd
    /\ forward_tagged [0] 0 (Py.split "," (group3 dd))
       = ["blo"; "bhi"; "dt"; "BL_FORT_FAB_VAL_3D(m)"]
    /\ local_arrays [0] 0 (Py.split "," (group3 dd)) = ["lo"]
    /\ option_map kernel
         (match rewrite_signature "baz"
                  ("void baz(const int* lo, const int *hi, Real& dt, BL_FORT_IFAB_ARG_3D(m));"
                   ++ nl) [[0]]
          with Ok p => Some p | _ => None end)
       = Some (TEMPLATE decl (intvect_decls ["lo"])
                 "baz_device(blo, bhi, dt, BL_FORT_FAB_VAL_3D(m))").
Proof.
  destruct (rewrite_signature "baz"
              ("void baz(const int* lo, const int *hi, Real& dt, BL_FORT_IFAB_ARG_3D(m));"
               ++ nl) [[0]])
    as [pair| |] eqn:E; try (vm_compute in E; discriminate).
  destruct (tagged_kernel_forwards_every_parameter "baz"
              ("void baz(const int* lo, const int *hi, Real& dt, BL_FORT_IFAB_ARG_3D(m));"
               ++ nl) 0 [] []
              pair E) as (dd & decl & Hdd & Hk & _).
  exists dd, decl. split; [exact Hdd|].
  vm_compute in Hdd. injection Hdd as <-.
  split; [reflexivity|]. split; [reflexivity|].
  cbn [option_map]. rewrite Hk. reflexivity.
Defined.

(** ** The tag tables of the collector *)

Lemma positions_from_ascending (macro : string) (args : list string) :
  forall k,
    Forall (fun i => k <= i) (positions_from k macro args)
    /\ StronglySorted lt (positions_from k macro args).
Proof.
  induction args as [|a r IH]; intro k; cbn [positions_from].
  - split; constructor.
  - destruct (IH (S k)) as [B Hs].
    assert (B' : Forall (fun i => k <= i) (positions_from (S k) macro r)).
    { eapply Forall_impl; [|exact B]. cbn beta. intros; lia. }
    destruct (Py.contains macro a).
    + split; [constructor; [lia | exact B']|].
      constructor; [exact Hs|]. eapply Forall_impl; [|exact B].
      cbn beta. intros; lia.
    + split; assumption.
Qed.

Lemma tag_positions_sound (macro_list args : list string) (name : string) :
  table_sound macro_list (name, tag_positions macro_list args).
Proof.
  unfold table_sound, tag_positions. cbn [snd]. split; [apply length_map|].
  apply Forall_map, Forall_forall. intros macro _.
  apply positions_from_ascending.
Qed.

Lemma parse_target_sound (macro_list : list string) (func_call name : string)
  (tags : tag_table) :
  parse_target macro_list func_call = Ok (name, tags) ->
  table_sound macro_list (name, tags).
Proof.
  unfold parse_target. intro H.
  destruct (decls_re_search func_call) as [dd|]; [|discriminate].
  destruct (item (Py.split1 "(" (Py.strip (group0 dd))) 1) as [aft| |];
    cbn [bind] in H; try discriminate.
  destruct (item (Py.rsplit1 ")" aft) 0) as [inner| |];
    cbn [bind] in H; try discriminate.
  injection H as <- <-. apply tag_positions_sound.
Qed.

Lemma scan_pragmas_tables_sound (fuel : nat) (macro_list : list string) :
  forall line hin targets targets',
    Forall (table_sound macro_list) targets ->
    scan_pragmas fuel macro_list line hin targets = Some (Ok targets') ->
    Forall (table_sound macro_list) targets'.
Proof.
  induction fuel as [|f IH]; intros line hin targets targets' Inv H;
    [discriminate|].
  destruct line as [|c line']; cbn [scan_pragmas] in H.
  - injection H as <-. exact Inv.
  - destruct (Py.startswith (String c line') marker).
    + destruct (readline hin) as [l1 h1].
      destruct (accumulate f l1 h1 EmptyString) as [[[acc last] h2]|];
        [|discriminate].
      destruct (parse_target macro_list (call_text acc last))
        as [[func_name tags]| |] eqn:P; try discriminate.
      destruct (readline h2) as [l3 h3].
      eapply IH; [|exact H]. apply Forall_dict_set; [exact Inv|].
      eapply parse_target_sound; exact P.
    + destruct (readline hin) as [l1 h1]. eapply IH; [exact Inv | exact H].
Qed.

(** X17: every tag table that the collector records has one row for
    every macro of the macro list, and every row lists its positions in
    ascending order, so none twice.  With the one macro of the program,
    the row that the rewriting of a signature reads is therefore always
    there. *)
Theorem collected_tables_are_sound
  (fuel : nat) (cxx_files : list file) (macros : list string)
  (targets : dict tag_table) :
  find_targets_from_pragmas fuel cxx_files macros = Some (Ok targets) ->
  Forall (table_sound macros) targets.
Proof.
  unfold find_targets_from_pragmas.
  assert (G : forall files t0,
             Forall (table_sound macros) t0 ->
             find_targets_loop fuel macros files t0 = Some (Ok targets) ->
             Forall (table_sound macros) targets).
  { induction files as [|hin r IH]; intros t0 Inv H; cbn [find_targets_loop] in H.
    - injection H as <-. exact Inv.
    - destruct (readline hin) as [l0 h0].
      destruct (scan_pragmas fuel macros l0 h0 t0) as [[t1| |]|] eqn:Hs;
        try discriminate.
      eapply IH; [|exact H].
      eapply scan_pragmas_tables_sound; [exact Inv | exact Hs]. }
  apply G. constructor.
Qed.

Lemma collected_tables_are_sound_witness :
  Forall (table_sound macro_list) [("foo", [[0; 1]]); ("bar", [[]])].
Proof.
  apply (collected_tables_are_sound 20
           [[ "#pragma gpu" ++ nl;
              "  foo(AMREX_INT_ANYD(lo), AMREX_INT_ANYD(hi)," ++ nl;
              "      a);" ++ nl ];
            [ "int main() {" ++ nl;
              "#pragma gpu" ++ nl;
              "  bar(lo, hi, a);" ++ nl ]]).
  vm_compute. reflexivity.
Defined.

(** ** The text written for a marked call (C7) *)

Lemma concat_cons (b : string) (bs : list string) :
  String.concat EmptyString (b :: bs) = b ++ String.concat EmptyString bs.
Proof.
  destruct bs as [|c cs]; cbn [String.concat]; [now rewrite app_nil_r_s|].
  reflexivity.
Qed.

Lemma accumulate_statement (before : list string) :
  forall acc fuel last rest,
    Forall (fun l => ends_statement l = false) before ->
    ends_statement last = true ->
    List.length before < fuel ->
    accumulate fuel (fst (readline (before ++ last :: rest)%list))
      (snd (readline (before ++ last :: rest)%list)) acc
    = Some (acc ++ String.concat EmptyString before, last, rest).
Proof.
  induction before as [|b bs IH]; intros acc fuel last rest Hb Hl Hf.
  - destruct fuel as [|f]; [simpl in Hf; lia|].
    cbn [List.app readline fst snd accumulate String.concat].
    rewrite Hl, app_nil_r_s. reflexivity.
  - destruct fuel as [|f]; [simpl in Hf; lia|].
    inversion Hb as [|? ? Hb1 Hb2]; subst.
    cbn [List.app readline fst snd accumulate]. rewrite Hb1.
    rewrite (surjective_pairing (readline (bs ++ last :: rest)%list)).
    rewrite (IH (acc ++ b) f last rest Hb2 Hl) by (simpl in Hf; lia).
    now rewrite concat_cons, app_assoc_s.
Qed.

Lemma rstrip_spaces (ws : string) :
  all_chars Py.is_space ws = true -> Py.rstrip ws = EmptyString.
Proof.
  induction ws as [|c ws IH]; intro H; [reflexivity|].
  cbn [all_chars] in H. apply andb_true_iff in H. destruct H as [Hc Hw].
  cbn [Py.rstrip]. now rewrite (IH Hw), Hc.
Qed.

Lemma rstrip_app_spaces (x ws : string) :
  all_chars Py.is_space ws = true -> Py.rstrip (x ++ ws) = Py.rstrip x.
Proof.
  intro H. induction x as [|c x IH]; cbn [append Py.rstrip].
  - apply rstrip_spaces; exact H.
  - now rewrite IH.
Qed.

Lemma rstrip_statement (body ws : string) :
  all_chars Py.is_space ws = true ->
  Py.rstrip (body ++ ";" ++ ws) = body ++ ";".
Proof.
  intro H. rewrite <- app_assoc_s, (rstrip_app_spaces _ _ H).
  apply rstrip_app_nonspace. reflexivity.
Qed.

Lemma endswith_app (x p : string) : Py.endswith (x ++ p) p = true.
Proof.
  unfold Py.endswith. rewrite length_app_s.
  replace (String.length x + String.length p - String.length p)
    with (String.length x) by lia.
  rewrite drop_app, String.eqb_refl, andb_true_r.
  apply Nat.leb_le. lia.
Qed.

Lemma lstrip_keeps_end (x p : string) (c : ascii) :
  Py.is_space c = false ->
  Py.endswith (Py.lstrip (x ++ String c p)) (String c p) = true.
Proof.
  intro Hc. induction x as [|a x IH]; cbn [append Py.lstrip].
  - rewrite Hc. apply (endswith_app EmptyString).
  - destruct (Py.is_space a); [exact IH|].
    apply (endswith_app (String a x)).
Qed.

Lemma statement_line_terminated (body ws : string) :
  all_chars Py.is_space ws = true -> ends_statement (body ++ ";" ++ ws) = true.
Proof.
  intro H. unfold ends_statement, Py.strip.
  rewrite (rstrip_statement _ _ H).
  apply lstrip_keeps_end. reflexivity.
Qed.

Lemma call_text_statement (acc body ws : string) :
  all_chars Py.is_space ws = true ->
  call_text acc (body ++ ";" ++ ws) = acc ++ body.
Proof.
  intro H. unfold call_text. rewrite (rstrip_statement _ _ H).
  now rewrite slice_drop_last.
Qed.



(** ** The bound pointers in the emitted pair (C3) *)

Lemma device_keeps_parameter_list (cname suffix g1 g3 rest : string) :
  cname <> EmptyString -> no_char "(" cname -> no_char ")" cname ->
  Py.contains cname g3 = false ->
  exists front back,
    Py.replace cname (cname ++ suffix) (g1 ++ "(" ++ g3 ++ ")" ++ rest)
    = front ++ "(" ++ g3 ++ ")" ++ back.
Proof.
  intros Hn Ho Hc Hg. destruct cname as [|a cname']; [contradiction|].
  unfold Py.replace.
  change (g1 ++ "(" ++ g3 ++ ")" ++ rest)
    with (g1 ++ String "(" (g3 ++ String ")" rest)).
  rewrite (replace_go_before_sep _ _ "(" _ (String.length g1) Hn Ho g1 (le_n _)).
  rewrite (replace_go_before_sep _ _ ")" _ (String.length g3) Hn Hc g3 (le_n _)).
  rewrite (replace_go_absent _ _ g3 Hn Hg).
  eexists; eexists; reflexivity.
Qed.




(** ** One pair for every name (C9) *)

Lemma in_keys_dict_set {V : Type} (d : dict V) (k : string) (v : V)
  (n : string) :
  In n (keys (dict_set d k v)) <-> n = k \/ In n (keys d).
Proof.
  rewrite keys_dict_set. destruct (in_dec string_dec k (keys d)) as [I|N].
  - split; [auto|]. intros [-> | H]; assumption.
  - rewrite in_app_iff. cbn [In]. split.
    + intros [H | [<- | []]]; auto.
    + intros [-> | H]; auto.
Qed.

Lemma no_target_no_match (names : list string) (l : string) :
  find_target names (strip_comment l) = None ->
  forall name, ~ line_matches names l name.
Proof.
  intros F name M. apply line_matches_found in M. congruence.
Qed.

Lemma accumulate_region (fuel : nat) :
  forall line hin acc acc' last rest,
    accumulate fuel line hin acc = Some (acc', last, rest) ->
    exists before,
      (line :: hin = before ++ last :: rest)%list
      /\ Forall (fun l => ends_statement l = false) before
      /\ ends_statement last = true.
Proof.
  induction fuel as [|f IH]; intros line hin acc acc' last rest H;
    [discriminate|].
  cbn [accumulate] in H. destruct (ends_statement line) eqn:E.
  - injection H as _ <- <-. exists []. repeat split; [constructor | exact E].
  - destruct hin as [|l r]; cbn [readline] in H.
    + rewrite accumulate_eof in H. discriminate.
    + destruct (IH _ _ _ _ _ _ H) as (before & Hb & Hf & Hl).
      exists (line :: before). repeat split.
      * simpl. now rewrite Hb.
      * constructor; assumption.
      * exact Hl.
Qed.

Lemma capture_original_region (fuel : nat) :
  forall hin sig sig' h1,
    capture_original fuel hin sig = Some (sig', h1) ->
    exists body t,
      (hin = body ++ t :: h1)%list
      /\ Forall (fun l => ends_statement l = false) body
      /\ ends_statement t = true.
Proof.
  induction fuel as [|f IH]; intros hin sig sig' h1 H; [discriminate|].
  destruct hin as [|l rest]; cbn [capture_original readline] in H.
  - change (ends_statement EmptyString) with false in H.
    destruct (IH _ _ _ _ H) as (body & t & Hb & _).
    destruct body; discriminate.
  - destruct (ends_statement l) eqn:E.
    + injection H as _ <-. exists [], l. repeat split; [constructor | exact E].
    + destruct (IH _ _ _ _ H) as (body & t & -> & Hf & Ht).
      exists (l :: body), t. repeat split; [constructor; assumption | exact Ht].
Qed.

Lemma scan_expanded_view (fuel : nat) (targets : dict tag_table) :
  forall h signatures signatures',
    scan_expanded fuel targets (fst (readline h)) (snd (readline h)) signatures
    = Some (Ok signatures') ->
    exists seen,
      expanded_view (keys targets) h seen
      /\ forall n, In n (keys signatures')
                   <-> In n (keys signatures) \/ In n seen.
Proof.
  induction fuel as [|f IH]; intros h signatures signatures' H; [discriminate|].
  destruct h as [|l rest]; cbn [readline fst snd] in H.
  - cbn [scan_expanded] in H. injection H as <-.
    exists []. split; [constructor|]. intro n; cbn [In]; tauto.
  - destruct l as [|c l']; cbn [scan_expanded] in H.
    + injection H as <-. exists []. split; [constructor|].
      intro n; cbn [In]; tauto.
    + destruct (find_target (keys targets) (strip_comment (String c l')))
        as [found|] eqn:F.
      * destruct (accumulate f (String c l') rest EmptyString)
          as [[[acc last] h1]|] eqn:A; [|discriminate].
        destruct (dict_get targets found) as [tags|]; [|discriminate].
        rewrite (surjective_pairing (readline h1)) in H.
        destruct (IH _ _ _ H) as (seen & V & K).
        destruct (accumulate_region _ _ _ _ _ _ _ A) as (before & Hb & Hf & Hl).
        exists (found :: seen). split.
        -- eapply eview_capture; try eassumption; [discriminate|].
           apply line_matches_found; exact F.
        -- intro n. rewrite K, in_keys_dict_set. cbn [In].
           split; [intros [[-> | Hn] | Hn]; auto | intros [Hn | [<- | Hn]]; auto].
      * rewrite (surjective_pairing (readline rest)) in H.
        destruct (IH _ _ _ H) as (seen & V & K).
        exists seen. split; [|exact K].
        apply eview_skip; [discriminate | | exact V].
        apply no_target_no_match; exact F.
Qed.

Lemma scan_original_view (fuel : nat) (signatures : dict sig_entry) :
  forall h out needed out' needed',
    scan_original fuel signatures (fst (readline h)) (snd (readline h))
      out needed = Some (Ok (out', needed')) ->
    exists copied found,
      out' = (out ++ copied)%list
      /\ original_view (keys signatures) h copied found
      /\ forall n, In n (keys needed') <-> In n (keys needed) \/ In n found.
Proof.
  induction fuel as [|f IH]; intros h out needed out' needed' H; [discriminate|].
  destruct h as [|l rest]; cbn [readline fst snd] in H.
  - cbn [scan_original] in H. injection H as <- <-.
    exists [], []. rewrite List.app_nil_r.
    split; [reflexivity|]. split; [constructor|]. intro n; cbn [In]; tauto.
  - destruct l as [|c l']; cbn [scan_original] in H.
    + injection H as <- <-. exists [], []. rewrite List.app_nil_r.
      split; [reflexivity|]. split; [constructor|]. intro n; cbn [In]; tauto.
    + destruct (find_target (keys signatures) (strip_comment (String c l')))
        as [found|] eqn:F.
      * destruct (dict_get signatures found) as [entry|]; [|discriminate].
        destruct (capture_original f rest (String c l')) as [[sig h1]|] eqn:C;
          [|discriminate].
        rewrite (surjective_pairing (readline h1)) in H.
        destruct (IH _ _ _ _ _ H) as (copied & fnd & -> & V & K).
        destruct (capture_original_region _ _ _ _ _ C) as (body & t & -> & Hf & Ht).
        exists copied, (found :: fnd). split; [reflexivity|]. split.
        -- apply oview_capture; try assumption; [discriminate|].
           apply line_matches_found; exact F.
        -- intro n. rewrite K, in_keys_dict_set. cbn [In].
           split; [intros [[-> | Hn] | Hn]; auto | intros [Hn | [<- | Hn]]; auto].
      * rewrite (surjective_pairing (readline rest)) in H.
        destruct (IH _ _ _ _ _ H) as (copied & fnd & -> & V & K).
        exists (String c l' :: copied), fnd. split.
        -- rewrite <- List.app_assoc. reflexivity.
        -- split; [|exact K].
           apply oview_copy; [discriminate | | exact V].
           apply no_target_no_match; exact F.
Qed.

Lemma line_matches_ext (names names' : list string) (l name : string) :
  (forall n, In n names <-> In n names') ->
  line_matches names l name -> line_matches names' l name.
Proof. intros E [Hin M]. split; [apply E; exact Hin | exact M]. Qed.

Lemma original_view_ext (names names' : list string) :
  (forall n, In n names <-> In n names') ->
  forall h copied found,
    original_view names h copied found -> original_view names' h copied found.
Proof.
  intros E h copied found V. induction V.
  - constructor.
  - constructor.
  - apply oview_copy; [assumption | | assumption].
    intros name M. apply (H0 name).
    eapply line_matches_ext; [|exact M]. intro n. symmetry. apply E.
  - apply oview_capture; try assumption.
    eapply line_matches_ext; [exact E | assumption].
Qed.

Lemma region_unique (body : list string) :
  forall body' t t' rest rest',
    (body ++ t :: rest = body' ++ t' :: rest')%list ->
    Forall (fun x => ends_statement x = false) body ->
    ends_statement t = true ->
    Forall (fun x => ends_statement x = false) body' ->
    ends_statement t' = true ->
    body = body' /\ t = t' /\ rest = rest'.
Proof.
  induction body as [|b body IH]; intros [|b' body'] t t' rest rest' E Hb Ht Hb' Ht';
    cbn [List.app] in E; injection E as E1 E2.
  - subst. auto.
  - subst. inversion Hb'; subst. congruence.
  - subst. inversion Hb; subst. congruence.
  - subst. inversion Hb; inversion Hb'; subst.
    destruct (IH _ _ _ _ _ E2) as (-> & -> & ->); auto.
Qed.

Lemma line_matches_unique (names : list string) (l name name' : string) :
  line_matches names l name -> line_matches names l name' -> name = name'.
Proof.
  intros M M'. apply line_matches_found in M, M'. congruence.
Qed.

Lemma expanded_view_unique (names : list string) :
  forall h seen,
    expanded_view names h seen ->
    forall seen', expanded_view names h seen' -> seen' = seen.
Proof.
  intros h seen V. induction V as
    [ | rest | l rest found Hl Hn V IH
      | l hin name before t rest found Hl Hm He Hb Ht V IH ];
    intros seen' V'; inversion V'; subst;
    try reflexivity; try contradiction.
  - apply IH; assumption.
  - exfalso. eapply Hn; eassumption.
  - exfalso. match goal with K : forall n, ~ line_matches _ _ n |- _ =>
                               exact (K name Hm) end.
  - match goal with
    | E : (l :: hin = ?b ++ ?t' :: ?r)%list,
      Fb : Forall _ ?b, Ft : ends_statement ?t' = true,
      M : line_matches names l ?n, W : expanded_view names ?r ?f |- _ =>
        rewrite He in E;
        destruct (region_unique _ _ _ _ _ _ E Hb Ht Fb Ft) as (_ & _ & <-);
        rewrite (line_matches_unique _ _ _ _ Hm M); f_equal; apply IH; exact W
    end.
Qed.

Lemma original_view_unique (names : list string) :
  forall h copied found,
    original_view names h copied found ->
    forall copied' found',
      original_view names h copied' found' ->
      copied' = copied /\ found' = found.
Proof.
  intros h copied found V. induction V as
    [ | rest | l rest copied found Hl Hn V IH
      | l name body t rest copied found Hl Hm Hb Ht V IH ];
    intros copied' found' V'; inversion V'; subst;
    try (split; reflexivity); try contradiction.
  - match goal with W : original_view names rest _ _ |- _ =>
      destruct (IH _ _ W) as [-> ->]; auto end.
  - exfalso. eapply Hn; eassumption.
  - exfalso. match goal with K : forall n, ~ line_matches _ _ n |- _ =>
                               exact (K name Hm) end.
  - match goal with
    | E : (?b ++ ?t' :: ?r = body ++ t :: rest)%list,
      Fb : Forall _ ?b, Ft : ends_statement ?t' = true,
      M : line_matches names l ?n, W : original_view names ?r _ _ |- _ =>
        destruct (region_unique _ _ _ _ _ _ E Fb Ft Hb Ht) as (_ & _ & ->);
        rewrite (line_matches_unique _ _ _ _ Hm M);
        destruct (IH _ _ W) as [-> ->]; auto
    end.
Qed.

(** C9, as stated, fails in two ways.  A name that the expanded view
    matches (here twice, through an include) and the original header
    does not declare gets no pair in that header; the code notes that
    the expanded scan may find more signatures than are needed.  And a
    declaration on the line after a declaration that ends on its own
    line is read by the capture of that one: the expanded view matched
    [bar], the original header declares it, and no pair is emitted for
    it. *)
Lemma matched_name_without_pair :
  (option_map (fun r => match r with Ok d => keys d | _ => [] end)
     (scan_expanded 10 [("foo", [[]])] (fst (readline header_foo_twice))
        (snd (readline header_foo_twice)) [])
   = Some ["foo"]
   /\ option_map
        (fun r => match r with
                  | Ok h => (copied h, map fst (pairs h))
                  | _ => ([], ["failed"])
                  end)
        (convert_header id_order 10 [("foo", [[]])] "Src/Bar_F.H"
           header_foo_twice header_only_includes)
      = Some (header_only_includes, []))
  /\ (option_map (fun r => match r with Ok d => keys d | _ => [] end)
        (scan_expanded 10 [("foo", [[]]); ("bar", [[]])]
           (fst (readline header_foo_then_bar))
           (snd (readline header_foo_then_bar)) [])
      = Some ["foo"; "bar"]
      /\ option_map
           (fun r => match r with
                     | Ok h => (copied h, map fst (pairs h))
                     | _ => ([], ["failed"])
                     end)
           (convert_header id_order 10 [("foo", [[]]); ("bar", [[]])]
              "Src/FooBar_F.H" header_foo_then_bar header_foo_then_bar)
         = Some (["int after;" ++ nl], ["foo"])).
Proof. repeat split; vm_compute; reflexivity. Qed.

(** C9 (amended): in a header that the run completes, exactly one pair
    is emitted for every name at which the scan of the original header
    starts a capture, however often it does so, and none for any other
    name.  The scan of the original header starts a capture at a line
    that it examines -- one not read by the capture of an earlier
    declaration -- and that carries the binding of a name at which the
    scan of the preprocessed header has started a capture.  So a name
    that only the preprocessed header matched gets no pair, and neither
    does a declaration whose line the capture of the declaration before
    it has read.  Each pair is the rewriting of the text recorded for
    its name. *)
Theorem one_pair_per_matched_name
  (set_order : list string -> list string)
  (fuel : nat) (targets : dict tag_table) (hname : string)
  (expanded original : file) (h : cuda_header) :
  (forall l, NoDup l -> Permutation (set_order l) l) ->
  convert_header set_order fuel targets hname expanded original = Some (Ok h) ->
  exists signatures seen found,
    scan_expanded fuel targets (fst (readline expanded))
      (snd (readline expanded)) [] = Some (Ok signatures)
    /\ (forall n, In n (keys signatures) <-> In n seen)
    /\ expanded_view (keys targets) expanded seen
    /\ (forall seen', expanded_view (keys targets) expanded seen' -> seen' = seen)
    /\ original_view seen original (copied h) found
    /\ (forall copied' found',
          original_view seen original copied' found' ->
          copied' = copied h /\ found' = found)
    /\ NoDup (map fst (pairs h))
    /\ (forall name,
          count_occ string_dec (map fst (pairs h)) name
          = if in_dec string_dec name found then 1 else 0)
    /\ Forall (fun p =>
                 exists entry,
                   dict_get signatures (fst p) = Some entry
                   /\ rewrite_signature (fst p) (fst entry) (snd entry)
                      = Ok (snd p)) (pairs h).
Proof.
  intros Hperm H. unfold convert_header in H.
  rewrite (surjective_pairing (readline expanded)) in H.
  destruct (scan_expanded fuel targets (fst (readline expanded))
              (snd (readline expanded)) []) as [[signatures| |]|] eqn:E1;
    try discriminate.
  rewrite (surjective_pairing (readline original)) in H.
  destruct (scan_original fuel signatures (fst (readline original))
              (snd (readline original)) [] [])
    as [[[out needed]| |]|] eqn:E2; try discriminate.
  destruct (emit_pairs signatures (set_order (keys needed))) as [ps| |] eqn:E3;
    try discriminate.
  injection H as <-. cbn [copied pairs].
  destruct (scan_expanded_view _ _ _ _ _ E1) as (seen & V1 & K1).
  destruct (scan_original_view _ _ _ _ _ _ _ E2) as (cp & found & Ho & V2 & K2).
  cbn [List.app] in Ho. subst cp.
  assert (S1 : forall n, In n (keys signatures) <-> In n seen).
  { intro n. rewrite K1. cbn [keys map In]. tauto. }
  assert (S2 : forall n, In n (keys needed) <-> In n found).
  { intro n. rewrite K2. cbn [keys map In]. tauto. }
  pose proof (original_view_ext _ _ S1 _ _ _ V2) as V3.
  exists signatures, seen, found.
  destruct (emit_pairs_names _ _ _ E3) as [Hn Hf].
  assert (D : NoDup (keys needed)).
  { eapply scan_original_keys_distinct; [|exact E2]. constructor. }
  assert (P : Permutation (map fst ps) (keys needed)).
  { rewrite Hn. apply Hperm; exact D. }
  assert (D' : NoDup (map fst ps)).
  { eapply Permutation_NoDup; [apply Permutation_sym; exact P | exact D]. }
  split; [reflexivity|]. split; [exact S1|]. split; [exact V1|].
  split; [exact (expanded_view_unique _ _ _ V1)|].
  split; [exact V3|].
  split; [exact (original_view_unique _ _ _ _ V3)|].
  split; [exact D'|]. split; [|exact Hf].
  intro name. destruct (in_dec string_dec name found) as [I|N].
  - apply NoDup_count_occ'; [exact D'|].
    eapply Permutation_in; [apply Permutation_sym; exact P|].
    apply S2; exact I.
  - apply count_occ_not_In. intro I. apply N. apply S2.
    eapply Permutation_in; [exact P | exact I].
Qed.

Lemma one_pair_per_matched_name_witness :
  exists h,
    convert_header id_order 10 [("foo", [[]])] "Src/Foo_F.H"
      header_foo_twice header_foo_twice = Some (Ok h)
    /\ copied h = ["int between;" ++ nl]
    /\ map fst (pairs h) = ["foo"]
    /\ expanded_view ["foo"] header_foo_twice ["foo"; "foo"]
    /\ original_view ["foo"; "foo"] header_foo_twice (copied h) ["foo"; "foo"]
    /\ count_occ string_dec (map fst (pairs h)) "foo" = 1.
Proof.
  destruct (convert_header id_order 10 [("foo", [[]])] "Src/Foo_F.H"
              header_foo_twice header_foo_twice) as [[h| |]|] eqn:E;
    try (vm_compute in E; discriminate).
  destruct (one_pair_per_matched_name id_order 10 [("foo", [[]])] "Src/Foo_F.H"
              header_foo_twice header_foo_twice h
              (fun l _ => Permutation_refl l) E)
    as (signatures & seen & found & _ & _ & V1 & U1 & V2 & U2 & _ & C & _).
  assert (W1 : expanded_view ["foo"] header_foo_twice ["foo"; "foo"]).
  { unfold header_foo_twice.
    eapply (eview_capture _ _ _ "foo"
              ["void foo(const int* lo, const int* hi," ++ nl]
              ("         Real* a);" ++ nl));
      [discriminate | apply line_matches_found; reflexivity | reflexivity
      | repeat constructor | reflexivity |].
    apply eview_skip;
      [discriminate | apply no_target_no_match; reflexivity |].
    eapply (eview_capture _ _ _ "foo"
              ["void foo(const int* lo, const int* hi," ++ nl]
              ("         Real* a);" ++ nl) []);
      [discriminate | apply line_matches_found; reflexivity | reflexivity
      | repeat constructor | reflexivity | constructor]. }
  pose proof (U1 _ W1) as Hs. cbn [keys map fst] in Hs. subst seen.
  assert (W2 : original_view ["foo"; "foo"] header_foo_twice
                 ["int between;" ++ nl] ["foo"; "foo"]).
  { unfold header_foo_twice.
    apply (oview_capture _ _ "foo" [] ("         Real* a);" ++ nl));
      [discriminate | apply line_matches_found; reflexivity | constructor
      | reflexivity |].
    apply oview_copy;
      [discriminate | apply no_target_no_match; reflexivity |].
    apply (oview_capture _ _ "foo" [] ("         Real* a);" ++ nl) []);
      [discriminate | apply line_matches_found; reflexivity | constructor
      | reflexivity | constructor]. }
  destruct (U2 _ _ W2) as [Hc Hf]. subst found.
  exists h. split; [reflexivity|].
  vm_compute in E. injection E as <-.
  split; [reflexivity|]. split; [reflexivity|].
  split; [exact W1|]. split; [exact V2 | exact (C "foo")].
Defined.
